(** * CUDAProb3++ : neutrino oscillation probabilities through a layered Earth

    A shallow embedding of [physics.hpp], [propagator.hpp] and
    [cpupropagator.hpp].

    Conventions of the embedding.
    - [FLOAT_T] is read as the real numbers: [+ - * /], [sqrt], [cos], [sin],
      [acos] and [fabs] are the operations of the real line, so rounding and
      overflow are not represented.  Where an IEEE operation would leave the
      finite numbers (a zero divisor) the development says so with an explicit
      predicate on the operands.
    - [int] is read as [Z]; the 64-bit unsigned index arithmetic of the result
      buffer is written with its wrap-around ([u64]).
    - A C array reached through a pointer argument is a function from indices
      to values; a [std::vector] and a local array of fixed size are lists,
      and an access outside of a local array is the outcome [Undefined].
    - [std::exit] is the outcome [Exit]; a C++ exception is [Throw]. *)

From Stdlib Require Import Reals Lra Lia ZArith Bool String RNsatz.
From stdpp Require Import base list sorting.

Open Scope R_scope.

(** ** Numbers and small loops *)

(** [math::ComplexNumber<FLOAT_T>] : a pair of floating point numbers. *)
Record ComplexNumber : Type := mkComplex { re : R; im : R }.

Definition czero : ComplexNumber := mkComplex 0 0.

(** A 3x3 array [ComplexNumber A[3][3]], indexed [A i j]. *)
Definition cmatrix : Type := nat -> nat -> ComplexNumber.

(** [for (int i = 0; i < 3; i++) body], threading the accumulated state. *)
Definition for3 {A : Type} (body : nat -> A -> A) (a : A) : A :=
  body 2%nat (body 1%nat (body 0%nat a)).

(** [for (i = lo; i < lo + n; i++) body]. *)
Fixpoint for_range {A : Type} (lo n : nat) (body : nat -> A -> A) (a : A) : A :=
  match n with
  | O => a
  | S n' => for_range (S lo) n' body (body lo a)
  end.

(** [fabs]. *)
Definition fabs (x : R) : R := Rabs x.

(** [a < b] on floating point numbers, as a boolean. *)
Definition fltb (a b : R) : bool := if Rlt_dec a b then true else false.

(** [a == b] on floating point numbers, as a boolean. *)
Definition feqb (a b : R) : bool := if Req_dec_T a b then true else false.

(** ** math.hpp

    The header is not part of the source tree; the four matrix helpers that
    [calculate] calls are written from their description. *)
Module math.

(** Modelled from the spec: [clear_complex_matrix] of math.hpp (the spec's
    "clear" of the complex linear algebra primitives): every entry becomes
    zero. *)
Definition clear_complex_matrix (A : cmatrix) : cmatrix :=
  fun _ _ => czero.

(** Modelled from the spec: [copy_complex_matrix] of math.hpp (the spec's
    "copy"): the destination becomes the source. *)
Definition copy_complex_matrix (A B : cmatrix) : cmatrix := A.

(** Modelled from the spec: [multiply_complex_matrix] of math.hpp (the
    spec's "multiply"): the complex product [A * B] is added entry by
    entry onto the destination [C], which every caller clears first. *)
Definition multiply_complex_matrix (A B C : cmatrix) : cmatrix :=
  fun i j =>
    for3 (fun k acc =>
            mkComplex
              (re acc + (re (A i k) * re (B k j) - im (A i k) * im (B k j)))
              (im acc + (im (A i k) * re (B k j) + re (A i k) * im (B k j))))
         (C i j).

(** Modelled from the spec: [multiply_phase_matrix] of math.hpp (the spec's
    "scale-by-phase-and-accumulate", used for [A = sum_k C_k exp(i arg_k)]):
    [C += exp(i phi) * A]. *)
Definition multiply_phase_matrix (phi : R) (A C : cmatrix) : cmatrix :=
  fun i j =>
    mkComplex
      (re (C i j) + (cos phi * re (A i j) - sin phi * im (A i j)))
      (im (C i j) + (cos phi * im (A i j) + sin phi * re (A i j))).

(** Modelled from the spec: [defined_sinc] of math.hpp ("sinc(0) is defined
    as 1 (removable singularity)"), [sin x / x] elsewhere. *)
Definition defined_sinc (x : R) : R :=
  if feqb x 0 then 1 else sin x / x.

End math.

(** ** types.hpp *)

(** [enum NeutrinoType]. *)
Inductive NeutrinoType : Type := Neutrino | Antineutrino.

Definition NeutrinoType_eqb (a b : NeutrinoType) : bool :=
  match a, b with
  | Neutrino, Neutrino | Antineutrino, Antineutrino => true
  | _, _ => false
  end.

(** ** constants.hpp

    The header is not part of the source tree: the values it defines are
    parameters of the development. *)
Record Constants : Type := mkConstants {
  REarth : R;            (* Constants<FLOAT_T>::REarth(), km *)
  REarthcm : R;          (* Constants<FLOAT_T>::REarthcm(), cm *)
  tworttwoGf : R;        (* Constants<FLOAT_T>::tworttwoGf() *)
  km2cm : R;             (* Constants<FLOAT_T>::km2cm() *)
  MaxNLayers : Z;        (* Constants<FLOAT_T>::MaxNLayers() *)
  NPRODHEIGHTBINS : Z;   (* macro NPRODHEIGHTBINS *)
  NeutrinoType_int : NeutrinoType -> Z  (* integer value of the enumerators *)
}.

(** [a >= b] on floating point numbers, as a boolean. *)
Definition fgeb (a b : R) : bool := if Rge_dec a b then true else false.

(** ** Outcomes of a run *)

(** A call returns ([Done]), terminates the process through [std::exit]
    ([Exit]), throws a [std::runtime_error] ([Throw]), or leaves the
    behaviour that C++ defines: an array of known size accessed outside of
    its bounds, or a local read before it was written ([Undefined]). *)
Inductive outcome (A : Type) : Type :=
| Done (a : A)
| Exit (status : Z)
| Throw (what : string)
| Undefined.

Arguments Done {A} a.
Arguments Exit {A} status.
Arguments Throw {A} what.
Arguments Undefined {A}.

Definition bind {A B : Type} (o : outcome A) (f : A -> outcome B) : outcome B :=
  match o with
  | Done a => f a
  | Exit s => Exit s
  | Throw w => Throw w
  | Undefined => Undefined
  end.

(** [for (i = lo; i < lo + n; i++) body], where the body may end the run. *)
Fixpoint for_range_o {A : Type} (lo n : nat) (body : nat -> A -> outcome A) (a : A)
  : outcome A :=
  match n with
  | O => Done a
  | S n' => bind (body lo a) (for_range_o (S lo) n' body)
  end.

(** Conversion of an [int] to [unsigned long long] / [std::uint64_t]. *)
Definition u64 (z : Z) : Z := (z mod 2 ^ 64)%Z.

(** [v[i] = x] on a buffer of known length. *)
Definition store (v : list R) (i : Z) (x : R) : outcome (list R) :=
  if ((0 <=? i) && (i <? Z.of_nat (length v)))%Z
  then Done (<[Z.to_nat i := x]> v)
  else Undefined.

(** ** physics.hpp *)
Module physics.

(** The constant global data of the namespace: [mix_data], [mass_data],
    [A_X_factor] and [mass_order], read through the macros [U(i,j)],
    [DM(i,j)], [AXFAC(a,b,c,d,e)] and [ORDER(i)]. *)
Record Globals : Type := mkGlobals {
  U : nat -> nat -> ComplexNumber;
  DM : nat -> nat -> R;
  AXFAC : nat -> nat -> nat -> nat -> nat -> R;
  ORDER : nat -> nat
}.

(** [setMixMatrix_host]: copy the mixing matrix and precompute the four
    real factors of every pair of entries. *)
Definition setMixMatrix_host (Umat : nat -> nat -> ComplexNumber) (g : Globals)
  : Globals :=
  {| U := Umat;
     DM := DM g;
     AXFAC := fun n m i j e =>
       match e with
       | 0%nat => re (Umat n i) * re (Umat m j) + im (Umat n i) * im (Umat m j)
       | 1%nat => re (Umat n i) * im (Umat m j) - im (Umat n i) * re (Umat m j)
       | 2%nat => im (Umat n i) * im (Umat m j) + re (Umat n i) * re (Umat m j)
       | _ => im (Umat n i) * re (Umat m j) - re (Umat n i) * im (Umat m j)
       end;
     ORDER := ORDER g |}.

(** [setMassDifferences_host]: copy the mass difference matrix. *)
Definition setMassDifferences_host (dm : nat -> nat -> R) (g : Globals)
  : Globals :=
  {| U := U g; DM := dm; AXFAC := AXFAC g; ORDER := ORDER g |}.

(** The two calls the host makes before [calculate]. *)
Definition set_parameters (Umat : nat -> nat -> ComplexNumber) (dm : nat -> nat -> R)
  (g : Globals) : Globals :=
  setMassDifferences_host dm (setMixMatrix_host Umat g).

(** *** prepare_getMfast : the vacuum mass order *)

(** The local [tmpV] of [prepare_getMfast] before the square root. *)
Definition prepare_tmpV (g : Globals) : R :=
  let alphaV := DM g 0 1 + DM g 0 2 in
  let betaV := DM g 0 1 * DM g 0 2 in
  alphaV * alphaV - 3 * betaV.

(** The quotient of Equation (21) in [prepare_getMfast], before the clamp. *)
Definition prepare_argV_raw (g : Globals) : R :=
  let alphaV := DM g 0 1 + DM g 0 2 in
  let betaV := DM g 0 1 * DM g 0 2 in
  let gammaV := 0 in
  let tmpV := prepare_tmpV g in
  (2 * alphaV * alphaV * alphaV - 9 * alphaV * betaV + 27 * gammaV) /
  (2 * sqrt (tmpV * tmpV * tmpV)).

(** [if (fabs(argV)>1.0) argV = argV/fabs(argV);] *)
Definition prepare_argV (g : Globals) : R :=
  let argV := prepare_argV_raw g in
  if fltb 1 (fabs argV) then argV / fabs argV else argV.

(** The three roots [mMatV] computed at zero density. *)
Definition prepare_mMatV (g : Globals) (j : nat) : R :=
  let alphaV := DM g 0 1 + DM g 0 2 in
  let tmpV := prepare_tmpV g in
  let theta0V := acos (prepare_argV g) / 3 in
  let theta1V := theta0V - (2 * PI / 3) in
  let theta2V := theta0V + (2 * PI / 3) in
  let m := - (2 / 3) * sqrt tmpV in
  let tmpV' := DM g 0 0 - alphaV / 3 in
  match j with
  | 0%nat => m * cos theta0V + tmpV'
  | 1%nat => m * cos theta1V + tmpV'
  | _ => m * cos theta2V + tmpV'
  end.

(** [order[i]]: the index of the root closest to the vacuum mass [DM(i,0)],
    the first one on ties. *)
Definition prepare_order (g : Globals) (i : nat) : nat :=
  let tmpV0 := fabs (DM g i 0 - prepare_mMatV g 0) in
  fst (for_range 1 2
         (fun j (st : nat * R) =>
            let tmp := fabs (DM g i 0 - prepare_mMatV g j) in
            if fltb tmp (snd st) then (j, tmp) else st)
         (0%nat, tmpV0)).

Definition prepare_getMfast (type : NeutrinoType) (g : Globals) : Globals :=
  {| U := U g; DM := DM g; AXFAC := AXFAC g; ORDER := prepare_order g |}.

(** *** getMfast : the matter mass differences *)

Section WithConstants.
Context (K : Constants).

(** [fac], Equation (22): the sign of the matter potential follows the
    neutrino type. *)
Definition matter_fac (type : NeutrinoType) (Enu rho : R) : R :=
  if NeutrinoType_eqb type Antineutrino
  then tworttwoGf K * Enu * rho
  else - tworttwoGf K * Enu * rho.

Definition getMfast_alpha (g : Globals) (Enu rho : R) (type : NeutrinoType) : R :=
  matter_fac type Enu rho + DM g 0 1 + DM g 0 2.

Definition getMfast_beta (g : Globals) (Enu rho : R) (type : NeutrinoType) : R :=
  let fac := matter_fac type Enu rho in
  DM g 0 1 * DM g 0 2 +
  fac * (DM g 0 1 * (1 - re (U g 0 1) * re (U g 0 1) - im (U g 0 1) * im (U g 0 1)) +
         DM g 0 2 * (1 - re (U g 0 2) * re (U g 0 2) - im (U g 0 2) * im (U g 0 2))).

Definition getMfast_gamma (g : Globals) (Enu rho : R) (type : NeutrinoType) : R :=
  let fac := matter_fac type Enu rho in
  fac * DM g 0 1 * DM g 0 2 *
  (re (U g 0 0) * re (U g 0 0) + im (U g 0 0) * im (U g 0 0)).

(** [tmp = alpha*alpha-3.0*beta < 0 ? 0 : alpha*alpha-3.0*beta] *)
Definition getMfast_tmp (g : Globals) (Enu rho : R) (type : NeutrinoType) : R :=
  let alpha := getMfast_alpha g Enu rho type in
  let beta := getMfast_beta g Enu rho type in
  if fltb (alpha * alpha - 3 * beta) 0 then 0 else alpha * alpha - 3 * beta.

(** The divisor of Equation (21). *)
Definition getMfast_divisor (g : Globals) (Enu rho : R) (type : NeutrinoType) : R :=
  let tmp := getMfast_tmp g Enu rho type in
  2 * sqrt (tmp * tmp * tmp).

(** [argtmp], Equation (21). *)
Definition getMfast_argtmp (g : Globals) (Enu rho : R) (type : NeutrinoType) : R :=
  let alpha := getMfast_alpha g Enu rho type in
  let beta := getMfast_beta g Enu rho type in
  let gamma := getMfast_gamma g Enu rho type in
  (2 * alpha * alpha * alpha - 9 * alpha * beta + 27 * gamma) /
  getMfast_divisor g Enu rho type.

(** [arg]: the value handed to [acos]. *)
Definition getMfast_arg (g : Globals) (Enu rho : R) (type : NeutrinoType) : R :=
  let argtmp := getMfast_argtmp g Enu rho type in
  if fltb 1 (fabs argtmp) then argtmp / fabs argtmp else argtmp.

(** [mMatU]: the three roots, unsorted. *)
Definition getMfast_mMatU (g : Globals) (Enu rho : R) (type : NeutrinoType)
  (k : nat) : R :=
  let alpha := getMfast_alpha g Enu rho type in
  let tmp := getMfast_tmp g Enu rho type in
  let theta0 := acos (getMfast_arg g Enu rho type) / 3 in
  let theta1 := theta0 - (2 * PI / 3) in
  let theta2 := theta0 + (2 * PI / 3) in
  let tmp2 := DM g 0 0 - alpha / 3 in
  match k with
  | 0%nat => - (2 / 3) * sqrt tmp * cos theta0 + tmp2
  | 1%nat => - (2 / 3) * sqrt tmp * cos theta1 + tmp2
  | _ => - (2 / 3) * sqrt tmp * cos theta2 + tmp2
  end.

(** [mMat[i] = mMatU[ORDER(i)]] *)
Definition getMfast_mMat (g : Globals) (Enu rho : R) (type : NeutrinoType)
  (i : nat) : R :=
  getMfast_mMatU g Enu rho type (ORDER g i).

(** [getMfast] returns [(d_dmMatMat, d_dmMatVac)]. *)
Definition getMfast (g : Globals) (Enu rho : R) (type : NeutrinoType)
  : (nat -> nat -> R) * (nat -> nat -> R) :=
  let mMat := getMfast_mMat g Enu rho type in
  (fun i j => mMat i - mMat j, fun i j => mMat i - DM g j 0).


(** *** get_product : the product of Equation (11)

    The parameter [L] of the source is never read (getC passes NAN for it)
    and is not carried. *)

(** [twoEHmM[n][m][j]]: the matrix 2EH - M_j. *)
Definition twoEHmM (g : Globals) (E rho : R) (d_dmMatVac : nat -> nat -> R)
  (type : NeutrinoType) (n m j : nat) : ComplexNumber :=
  let fac := matter_fac type E rho in
  let r := - fac * (re (U g 0 n) * re (U g 0 m) + im (U g 0 n) * im (U g 0 m)) in
  let i := - fac * (re (U g 0 n) * im (U g 0 m) - im (U g 0 n) * re (U g 0 m)) in
  mkComplex (if Nat.eqb n m then r - d_dmMatVac j n else r) i.

(** The divisor applied to [product[i][j][k]]. *)
Definition product_divisor (d_dmMatMat : nat -> nat -> R) (k : nat) : R :=
  match k with
  | 0%nat => d_dmMatMat 0%nat 1%nat * d_dmMatMat 0%nat 2%nat
  | 1%nat => d_dmMatMat 1%nat 2%nat * d_dmMatMat 1%nat 0%nat
  | _ => d_dmMatMat 2%nat 0%nat * d_dmMatMat 2%nat 1%nat
  end.

(** The two factors multiplied for the expansion index [k]:
    (1,2) for 0, (2,0) for 1 and (0,1) for 2. *)
Definition product_factors (k : nat) : nat * nat :=
  match k with
  | 0%nat => (1%nat, 2%nat)
  | 1%nat => (2%nat, 0%nat)
  | _ => (0%nat, 1%nat)
  end.

Definition get_product (g : Globals) (E rho : R)
  (d_dmMatVac d_dmMatMat : nat -> nat -> R) (type : NeutrinoType)
  : nat -> nat -> nat -> ComplexNumber :=
  fun i j k =>
    let M := twoEHmM g E rho d_dmMatVac type in
    let a := fst (product_factors k) in
    let b := snd (product_factors k) in
    let s :=
      for3 (fun l acc =>
              mkComplex
                (re acc + (re (M i l a) * re (M l j b) - im (M i l a) * im (M l j b)))
                (im acc + (re (M i l a) * im (M l j b) + im (M i l a) * re (M l j b))))
           czero in
    mkComplex (re s / product_divisor d_dmMatMat k)
              (im s / product_divisor d_dmMatMat k).

(** *** getArg, getC, getA *)

(** (1/2)*(1/(h_bar*c)) in units of GeV/(eV^2-km) *)
Definition LoEfac : R := 2.534.

(** [getArg]: the three phases of the expansion. *)
Definition getArg (L E : R) (dmMatVac : nat -> nat -> R) (phase_offset : R)
  : nat -> R :=
  fun k =>
    let a := - LoEfac * dmMatVac k 0%nat * L / E in
    if Nat.eqb k 2 then a + phase_offset else a.

(** [getC]: the three coefficient matrices [C[iExp][iNuFlav][jNuFlav]].
    [product0] stands for the content of the local array [product], which
    the source leaves uninitialised when [phase_offset] is not zero. *)
Definition getC (g : Globals) (E rho : R) (dmMatVac dmMatMat : nat -> nat -> R)
  (type : NeutrinoType) (phase_offset : R)
  (product0 : nat -> nat -> nat -> ComplexNumber)
  : nat -> nat -> nat -> ComplexNumber :=
  let product :=
    if feqb phase_offset 0
    then get_product g E rho dmMatVac dmMatMat type
    else product0 in
  fun iExp iNuFlav jNuFlav =>
    let RR_nk j := for3 (fun i acc => acc + re (U g iNuFlav i) * re (product i j iExp)) 0 in
    let RI_nk j := for3 (fun i acc => acc + re (U g iNuFlav i) * im (product i j iExp)) 0 in
    let IR_nk j := for3 (fun i acc => acc + im (U g iNuFlav i) * re (product i j iExp)) 0 in
    let II_nk j := for3 (fun i acc => acc + im (U g iNuFlav i) * im (product i j iExp)) 0 in
    let ReSum :=
      for3 (fun j acc =>
              acc + RR_nk j * re (U g jNuFlav j)
                  + RI_nk j * im (U g jNuFlav j)
                  + IR_nk j * im (U g jNuFlav j)
                  - II_nk j * re (U g jNuFlav j)) 0 in
    let ImSum :=
      for3 (fun j acc =>
              acc + II_nk j * im (U g jNuFlav j)
                  + IR_nk j * re (U g jNuFlav j)
                  + RI_nk j * re (U g jNuFlav j)
                  - RR_nk j * im (U g jNuFlav j)) 0 in
    mkComplex ReSum ImSum.

(** The local [X] of [getA]: the sum with the exponential factor of
    Equation (11). *)
Definition getA_X (L E : R) (d_dmMatVac : nat -> nat -> R) (phase_offset : R)
  (product : nat -> nat -> nat -> ComplexNumber) : cmatrix :=
  fun i j =>
    for3 (fun k acc =>
            let arg :=
              if Nat.eqb k 2
              then - LoEfac * d_dmMatVac k 0%nat * L / E + phase_offset
              else - LoEfac * d_dmMatVac k 0%nat * L / E in
            let s := sin arg in
            let c := cos arg in
            mkComplex (re acc + (c * re (product i j k) - s * im (product i j k)))
                      (im acc + (c * im (product i j k) + s * re (product i j k))))
         czero.

(** [getA]: the transition amplitude, Equation (10), with the precomputed
    factors. *)
Definition getA (g : Globals) (L E rho : R) (d_dmMatVac d_dmMatMat : nat -> nat -> R)
  (type : NeutrinoType) (phase_offset : R)
  (product0 : nat -> nat -> nat -> ComplexNumber) : cmatrix :=
  let product :=
    if feqb phase_offset 0
    then get_product g E rho d_dmMatVac d_dmMatMat type
    else product0 in
  let X := getA_X L E d_dmMatVac phase_offset product in
  fun n m =>
    for3 (fun i acc =>
            for3 (fun j acc =>
                    mkComplex
                      (re acc + (AXFAC g n m i j 0 * re (X i j) +
                                 AXFAC g n m i j 1 * im (X i j)))
                      (im acc + (AXFAC g n m i j 2 * im (X i j) +
                                 AXFAC g n m i j 3 * re (X i j))))
                 acc)
         czero.

(** [get_transition_matrix]: the amplitude for a neutrino of energy [Enu]
    travelling [Len] kilometres through matter of constant density [rho]. *)
Definition get_transition_matrix (g : Globals) (nutype : NeutrinoType)
  (Enu rho Len : R) (phase_offset : R)
  (product0 : nat -> nat -> nat -> ComplexNumber) : cmatrix :=
  let '(d_dmMatMat, d_dmMatVac) := getMfast g Enu rho nutype in
  getA g Len Enu rho d_dmMatVac d_dmMatMat nutype phase_offset product0.

(** [get_transition_matrix_expansion]: the same amplitude as the pair
    [(Cout, Arg)] with [A = sum_k Cout[k] exp(i Arg[k])]. *)
Definition get_transition_matrix_expansion (g : Globals) (nutype : NeutrinoType)
  (Enu rho Len : R) (phase_offset : R)
  (product0 : nat -> nat -> nat -> ComplexNumber)
  : (nat -> nat -> nat -> ComplexNumber) * (nat -> R) :=
  let '(d_dmMatMat, d_dmMatVac) := getMfast g Enu rho nutype in
  (getC g Enu rho d_dmMatVac d_dmMatMat nutype phase_offset product0,
   getArg Len Enu d_dmMatVac phase_offset).

(** The recombination done by [calculate] for one layer:
    [clear_complex_matrix(TransitionMatrix)] followed by three calls of
    [multiply_phase_matrix]. *)
Definition recombine (Cout : nat -> nat -> nat -> ComplexNumber) (Arg : nat -> R)
  : cmatrix :=
  for3 (fun k T => math.multiply_phase_matrix (Arg k) (Cout k) T)
       (math.clear_complex_matrix (fun _ _ => czero)).


(** *** Layers along the path *)

(** [getDensityOfLayer]: the density of the layer, folded around the
    innermost crossed layer; layer 0 is the atmosphere. *)
Definition getDensityOfLayer (rhos : Z -> R) (layer max_layer : Z) : R :=
  if (layer =? 0)%Z then 0
  else
    let i := if (layer <=? max_layer)%Z then (layer - 1)%Z
             else (2 * max_layer - layer - 1)%Z in
    rhos i.

(** [getTraversedDistanceOfLayer]: the distance travelled in the layer. *)
Definition getTraversedDistanceOfLayer (radii : Z -> R) (layer max_layer : Z)
  (PathLength TotalEarthLength cosine_zenith : R) : R :=
  if fgeb cosine_zenith 0 then PathLength
  else if (layer =? 0)%Z then PathLength - TotalEarthLength
  else
    let i := if (layer >=? max_layer)%Z then (- layer - 1 + 2 * max_layer)%Z
             else (layer - 1)%Z in
    let CrossThis :=
      2 * sqrt (radii i * radii i -
                REarth K * REarth K * (1 - cosine_zenith * cosine_zenith)) in
    let CrossNext :=
      2 * sqrt (radii (i + 1)%Z * radii (i + 1)%Z -
                REarth K * REarth K * (1 - cosine_zenith * cosine_zenith)) in
    if (i <? max_layer - 1)%Z
    then 0.5 * (CrossThis - CrossNext) * km2cm K
    else CrossThis * km2cm K.

(** *** calculate *)

(** [const int nMaxLayers = 8;] *)
Definition nMaxLayers : Z := 8.

(** The local arrays of [calculate] that survive from one layer to the
    next.  [ExpansionMatrix] and [arg] have [nMaxLayers] slots. *)
Record LayerState : Type := mkLayerState {
  TransitionMatrixCoreToMantle : cmatrix;
  finalTransitionMatrix : cmatrix;
  TransitionTemp : cmatrix;
  ExpansionMatrix : list (nat -> cmatrix);
  arg : list (nat -> R);
  darg0_ddistance : nat -> R
}.

(** The inline comparison of the two forms of the amplitude: some entry
    differs by more than 1e-9 in its real or imaginary part. *)
Definition amplitudes_differ (T A : cmatrix) : bool :=
  let differ i j :=
    fltb 1e-9 (fabs (re (T i j) - re (A i j))) ||
    fltb 1e-9 (fabs (im (T i j) - im (A i j))) in
  let row i := differ i 0%nat || differ i 1%nat || differ i 2%nat in
  row 0%nat || row 1%nat || row 2%nat.

(** [FLOAT_T phaseOffset = 0.;] *)
Definition phaseOffset : R := 0.

(** One turn of the loop over layers. *)
Definition layer_step (g : Globals) (type : NeutrinoType) (energy : R)
  (radii rhos : Z -> R) (MaxLayer : Z)
  (PathLength TotalEarthLength cosine_zenith : R)
  (product0 : nat -> nat -> nat -> ComplexNumber)
  (iLayer : nat) (st : LayerState) : outcome LayerState :=
  let distance :=
    getTraversedDistanceOfLayer radii (Z.of_nat iLayer) MaxLayer
      PathLength TotalEarthLength cosine_zenith in
  let density := getDensityOfLayer rhos (Z.of_nat iLayer) MaxLayer in
  let TransitionMatrix_getA :=
    get_transition_matrix g type energy density (distance / km2cm K)
      phaseOffset product0 in
  let '(Cout, Arg) :=
    get_transition_matrix_expansion g type energy density (distance / km2cm K)
      phaseOffset product0 in
  (* ExpansionMatrix[iLayer] and arg[iLayer] are written by the callee *)
  if negb (Z.of_nat iLayer <? nMaxLayers)%Z then Undefined
  else
    let Expansion' := <[iLayer := Cout]> (ExpansionMatrix st) in
    let arg' := <[iLayer := Arg]> (arg st) in
    let TransitionMatrix := recombine Cout Arg in
    if amplitudes_differ TransitionMatrix TransitionMatrix_getA then Exit (-1)
    else if Nat.eqb iLayer 0 then
      Done {| TransitionMatrixCoreToMantle := TransitionMatrixCoreToMantle st;
              finalTransitionMatrix :=
                math.copy_complex_matrix TransitionMatrix (finalTransitionMatrix st);
              TransitionTemp := TransitionTemp st;
              ExpansionMatrix := Expansion';
              arg := arg';
              darg0_ddistance :=
                if feqb distance 0 then fun _ => 0
                else fun iNuFlav => Arg iNuFlav / distance |}
    else if (Z.of_nat iLayer <? MaxLayer)%Z then
      let Temp1 :=
        math.multiply_complex_matrix TransitionMatrix (finalTransitionMatrix st)
          (math.clear_complex_matrix (TransitionTemp st)) in
      let final' := math.copy_complex_matrix Temp1 (finalTransitionMatrix st) in
      let Temp2 :=
        math.multiply_complex_matrix (TransitionMatrixCoreToMantle st) TransitionMatrix
          (math.clear_complex_matrix Temp1) in
      Done {| TransitionMatrixCoreToMantle :=
                math.copy_complex_matrix Temp2 (TransitionMatrixCoreToMantle st);
              finalTransitionMatrix := final';
              TransitionTemp := Temp2;
              ExpansionMatrix := Expansion';
              arg := arg';
              darg0_ddistance := darg0_ddistance st |}
    else
      let Temp1 :=
        math.multiply_complex_matrix TransitionMatrix (finalTransitionMatrix st)
          (math.clear_complex_matrix (TransitionTemp st)) in
      Done {| TransitionMatrixCoreToMantle := TransitionMatrixCoreToMantle st;
              finalTransitionMatrix :=
                math.copy_complex_matrix Temp1 (finalTransitionMatrix st);
              TransitionTemp := Temp1;
              ExpansionMatrix := Expansion';
              arg := arg';
              darg0_ddistance := darg0_ddistance st |}.

(** The unit matrix written before the loops. *)
Definition unit_matrix : cmatrix :=
  fun iNuFlav jNuFlav => mkComplex (if Nat.eqb iNuFlav jNuFlav then 1 else 0) 0.

(** The state at the start of an energy bin, after the resets. *)
Definition layer_state0 : LayerState :=
  {| TransitionMatrixCoreToMantle := unit_matrix;
     finalTransitionMatrix := fun _ _ => czero;
     TransitionTemp := fun _ _ => czero;
     ExpansionMatrix := replicate (Z.to_nat nMaxLayers) (fun _ _ _ => czero);
     arg := replicate (Z.to_nat nMaxLayers) (fun _ => 0);
     darg0_ddistance := fun _ => 0 |}.

(** [PathLength]: the distance from the production height to the
    detector. *)
Definition path_length (height cosine_zenith : R) : R :=
  sqrt ((REarthcm K + height) * (REarthcm K + height) -
        (REarthcm K * REarthcm K) * (1 - cosine_zenith * cosine_zenith))
  - REarthcm K * cosine_zenith.

(** [PathLengths[iProductionHeight]]. *)
Definition PathLengths (productionHeight_binedges_list : Z -> R)
  (cosine_zenith : R) (iProductionHeight : nat) : R :=
  let ProdHeightInCentimeter :=
    km2cm K * (productionHeight_binedges_list (Z.of_nat iProductionHeight) +
               productionHeight_binedges_list (Z.of_nat iProductionHeight + 1)%Z) / 2 in
  path_length ProdHeightInCentimeter cosine_zenith.

(** The unit tensor written into [totalLenShiftFactor] before the loop over
    layers. *)
Definition unit_tensor : nat -> nat -> nat -> ComplexNumber :=
  fun iNuFlav jNuFlav iExp => mkComplex (if Nat.eqb iNuFlav jNuFlav then 1 else 0) 0.

(** [T[a][b][c] = v]. *)
Definition upd3 (T : nat -> nat -> nat -> ComplexNumber) (a b c : nat)
  (v : ComplexNumber) : nat -> nat -> nat -> ComplexNumber :=
  fun i j k =>
    if (Nat.eqb i a && Nat.eqb j b && Nat.eqb k c)%bool then v else T i j k.

(** [ProbIndex]: the position of a weight in [productionHeight_prob_list]. *)
Definition ProbIndex (type : NeutrinoType) (n_cosines n_energies : Z)
  (index_cosine index_energy : Z) (iNuFlav iPathLength : nat) : Z :=
  (NeutrinoType_int K type * 3 * n_energies * n_cosines * NPRODHEIGHTBINS K
   + Z.of_nat iNuFlav * n_energies * n_cosines * NPRODHEIGHTBINS K
   + index_energy * n_cosines * NPRODHEIGHTBINS K
   + index_cosine * NPRODHEIGHTBINS K + Z.of_nat iPathLength)%Z.

(** The factor [sinc_exp_factor] of a pair of eigenstates and a pair of
    consecutive path lengths. *)
Definition sinc_exp_factor (darg0 : nat -> R) (h0 h1 : R) (ieig0 jeig0 : nat)
  : ComplexNumber :=
  let hm := (h1 + h0) / 2 in
  let hw := h1 - h0 in
  let darg_distance := darg0 ieig0 - darg0 jeig0 in
  let Sinc_Arg := 0.5 * darg_distance * hw in
  mkComplex (math.defined_sinc Sinc_Arg * cos (darg_distance * hm))
            (math.defined_sinc Sinc_Arg * sin (darg_distance * hm)).

(** The loop that accumulates [totalLenShiftFactor] over the first 19 pairs
    of path lengths. *)
Definition accumulate_totalLenShiftFactor (type : NeutrinoType)
  (n_cosines n_energies index_cosine index_energy : Z)
  (productionHeight_prob_list : Z -> R) (lengths : nat -> R) (darg0 : nat -> R)
  (T0 : nat -> nat -> nat -> ComplexNumber) : nat -> nat -> nat -> ComplexNumber :=
  for_range 0 (20 - 1)
    (fun iPathLength T =>
       let h0 := lengths iPathLength in
       let h1 := lengths (iPathLength + 1)%nat in
       for3 (fun ieig0 T =>
               for_range 0 ieig0
                 (fun jeig0 T =>
                    let f := sinc_exp_factor darg0 h0 h1 ieig0 jeig0 in
                    for3 (fun iNuFlav T =>
                            let p := productionHeight_prob_list
                                       (ProbIndex type n_cosines n_energies
                                          index_cosine index_energy iNuFlav iPathLength) in
                            let T1 :=
                              upd3 T ieig0 jeig0 iNuFlav
                                (mkComplex (re (T ieig0 jeig0 iNuFlav) + p * re f)
                                           (im (T ieig0 jeig0 iNuFlav) + p * im f)) in
                            upd3 T1 jeig0 ieig0 iNuFlav
                              (mkComplex (re (T1 jeig0 ieig0 iNuFlav) + p * re f)
                                         (im (T1 jeig0 ieig0 iNuFlav) + p * im f)))
                         T)
                 T)
            T)
    T0.

(** The probabilities [Prob[iNuFlav][jNuFlav]] (flavour after, flavour
    before) from the three products and the weighting tensor. *)
Definition probabilities (Product : nat -> cmatrix)
  (totalLenShiftFactor : nat -> nat -> nat -> ComplexNumber) : nat -> nat -> R :=
  for3 (fun iExp Prob =>
          let Prob1 := fun iNuFlav jNuFlav =>
            Prob iNuFlav jNuFlav +
            (re (Product iExp iNuFlav jNuFlav) * re (Product iExp iNuFlav jNuFlav) +
             im (Product iExp iNuFlav jNuFlav) * im (Product iExp iNuFlav jNuFlav)) in
          for_range 0 iExp
            (fun jExp Prob => fun iNuFlav jNuFlav =>
               Prob iNuFlav jNuFlav +
               (2 * re (Product jExp iNuFlav jNuFlav) * re (Product iExp iNuFlav jNuFlav)
                  * re (totalLenShiftFactor iExp jExp jNuFlav)
                + 2 * im (Product jExp iNuFlav jNuFlav) * im (Product iExp iNuFlav jNuFlav)
                  * re (totalLenShiftFactor iExp jExp jNuFlav)
                + 2 * im (Product jExp iNuFlav jNuFlav) * re (Product iExp iNuFlav jNuFlav)
                  * im (totalLenShiftFactor iExp jExp jNuFlav)
                - 2 * re (Product jExp iNuFlav jNuFlav) * im (Product iExp iNuFlav jNuFlav)
                  * im (totalLenShiftFactor iExp jExp jNuFlav)))
            Prob1)
       (fun _ _ => 0).

(** What one (cosine, energy) bin computes before it is written. *)
Record Bin : Type := mkBin {
  bin_final : cmatrix;                                   (* finalTransitionMatrix *)
  bin_Expansion0 : nat -> cmatrix;                       (* ExpansionMatrix[iLayerAtm] *)
  bin_totalLenShiftFactor : nat -> nat -> nat -> ComplexNumber;
  bin_Product : nat -> cmatrix;
  bin_Prob : nat -> nat -> R
}.

(** The body of the loop over energies up to the filling of the result. *)
Definition calculate_bin (g : Globals) (type : NeutrinoType)
  (cosinelist : Z -> R) (n_cosines : Z) (energylist : Z -> R) (n_energies : Z)
  (radii rhos : Z -> R) (MaxLayer : Z) (ProductionHeightinCentimeter : R)
  (productionHeight_prob_list productionHeight_binedges_list : Z -> R)
  (product0 : nat -> nat -> nat -> ComplexNumber)
  (index_cosine index_energy : Z) : outcome Bin :=
  let cosine_zenith := cosinelist index_cosine in
  let TotalEarthLength := -2 * cosine_zenith * REarthcm K in
  let energy := energylist index_energy in
  let PathLength := path_length ProductionHeightinCentimeter cosine_zenith in
  let lengths := PathLengths productionHeight_binedges_list cosine_zenith in
  bind (for_range_o 0 (Z.to_nat (MaxLayer + 1))
          (layer_step g type energy radii rhos MaxLayer
             PathLength TotalEarthLength cosine_zenith product0)
          layer_state0)
    (fun st =>
       (* without a first layer finalTransitionMatrix is read before it is
          written *)
       if (MaxLayer <? 0)%Z then Undefined
       (* the loop over path lengths reads PathLengths[0..19], an array of
          NPRODHEIGHTBINS numbers *)
       else if (NPRODHEIGHTBINS K <? 20)%Z then Undefined
       else
         let Temp :=
           math.multiply_complex_matrix (TransitionMatrixCoreToMantle st)
             (finalTransitionMatrix st) (math.clear_complex_matrix (TransitionTemp st)) in
         let final := math.copy_complex_matrix Temp (finalTransitionMatrix st) in
         match ExpansionMatrix st !! 0%nat with
         | None => Undefined
         | Some Expansion0 =>
           let T :=
             accumulate_totalLenShiftFactor type n_cosines n_energies
               index_cosine index_energy productionHeight_prob_list lengths
               (darg0_ddistance st) unit_tensor in
           let Product := fun iExp =>
             math.multiply_complex_matrix final (Expansion0 iExp)
               (math.clear_complex_matrix (fun _ _ => czero)) in
           Done {| bin_final := final;
                   bin_Expansion0 := Expansion0;
                   bin_totalLenShiftFactor := T;
                   bin_Product := Product;
                   bin_Prob := probabilities Product T |}
         end).

(** [resultIndex] of the host branch. *)
Definition resultIndex (n_energies index_cosine index_energy : Z) : Z :=
  u64 (u64 (u64 (u64 index_cosine * u64 n_energies) * u64 9)
       + u64 (u64 index_energy * u64 9)).

(** The filling of the nine entries of a bin. *)
Definition fill_result (n_energies index_cosine index_energy : Z)
  (Prob : nat -> nat -> R) (result : list R) : outcome (list R) :=
  for_range_o 0 3
    (fun iNuFlav result =>
       for_range_o 0 3
         (fun jNuFlav result =>
            store result
              (u64 (resultIndex n_energies index_cosine index_energy
                    + u64 (Z.of_nat iNuFlav * 3 + Z.of_nat jNuFlav)))
              (Prob jNuFlav iNuFlav))
         result)
    result.

(** The body of the loop over cosines. *)
Definition calculate_cosine (g : Globals) (type : NeutrinoType)
  (cosinelist : Z -> R) (n_cosines : Z) (energylist : Z -> R) (n_energies : Z)
  (radii rhos : Z -> R) (maxlayers : Z -> Z) (ProductionHeightinCentimeter : R)
  (productionHeight_prob_list productionHeight_binedges_list : Z -> R)
  (product0 : nat -> nat -> nat -> ComplexNumber)
  (index_cosine : nat) (result : list R) : outcome (list R) :=
  let MaxLayer := maxlayers (Z.of_nat index_cosine) in
  if (MaxLayer >? nMaxLayers)%Z then Exit (-1)
  else
    for_range_o 0 (Z.to_nat n_energies)
      (fun index_energy result =>
         bind (calculate_bin g type cosinelist n_cosines energylist n_energies
                 radii rhos MaxLayer ProductionHeightinCentimeter
                 productionHeight_prob_list productionHeight_binedges_list product0
                 (Z.of_nat index_cosine) (Z.of_nat index_energy))
           (fun b =>
              fill_result n_energies (Z.of_nat index_cosine) (Z.of_nat index_energy)
                (bin_Prob b) result))
      result.

(** [calculate] on the host: the vacuum order is prepared, then the cosine
    bins are visited (here one after the other) and each visits its energy
    bins. *)
Definition calculate (g : Globals) (type : NeutrinoType)
  (cosinelist : Z -> R) (n_cosines : Z) (energylist : Z -> R) (n_energies : Z)
  (radii rhos : Z -> R) (maxlayers : Z -> Z) (ProductionHeightinCentimeter : R)
  (productionHeight_prob_list productionHeight_binedges_list : Z -> R)
  (product0 : nat -> nat -> nat -> ComplexNumber)
  (result : list R) : outcome (list R) :=
  let g' := prepare_getMfast type g in
  for_range_o 0 (Z.to_nat n_cosines)
    (calculate_cosine g' type cosinelist n_cosines energylist n_energies
       radii rhos maxlayers ProductionHeightinCentimeter
       productionHeight_prob_list productionHeight_binedges_list product0)
    result.

End WithConstants.

End physics.

(** ** propagator.hpp *)
Module propagator.

(** The data members of [Propagator<FLOAT_T>]. *)
Record Propagator : Type := mkPropagator {
  energyList : list R;
  cosineList : list R;
  maxlayers : list Z;
  productionHeightList_prob : list R;
  productionHeightList_bins : list R;
  radii : list R;
  rhos : list R;
  as_ : list R;
  bs : list R;
  cs : list R;
  yps : list R;
  coslimit : list R;
  Mix_U : nat -> ComplexNumber;
  dm : nat -> R;
  ProductionHeightinCentimeter : R;
  useProductionHeightAveraging : bool;
  nProductionHeightBins : Z;
  isSetProductionHeightArray : bool;
  isSetProductionHeight : bool;
  isSetCosine : bool;
  isInit : bool;
  n_cosines : Z;
  n_energies : Z;
  n_layers : Z;
  UsePolyDensity : bool
}.

(** Assignment to one data member. *)
Definition set_energyList (v : list R) (p : Propagator) : Propagator :=
  {| energyList := v;
     cosineList := cosineList p;
     maxlayers := maxlayers p;
     productionHeightList_prob := productionHeightList_prob p;
     productionHeightList_bins := productionHeightList_bins p;
     radii := radii p;
     rhos := rhos p;
     as_ := as_ p;
     bs := bs p;
     cs := cs p;
     yps := yps p;
     coslimit := coslimit p;
     Mix_U := Mix_U p;
     dm := dm p;
     ProductionHeightinCentimeter := ProductionHeightinCentimeter p;
     useProductionHeightAveraging := useProductionHeightAveraging p;
     nProductionHeightBins := nProductionHeightBins p;
     isSetProductionHeightArray := isSetProductionHeightArray p;
     isSetProductionHeight := isSetProductionHeight p;
     isSetCosine := isSetCosine p;
     isInit := isInit p;
     n_cosines := n_cosines p;
     n_energies := n_energies p;
     n_layers := n_layers p;
     UsePolyDensity := UsePolyDensity p |}.

Definition set_cosineList (v : list R) (p : Propagator) : Propagator :=
  {| energyList := energyList p;
     cosineList := v;
     maxlayers := maxlayers p;
     productionHeightList_prob := productionHeightList_prob p;
     productionHeightList_bins := productionHeightList_bins p;
     radii := radii p;
     rhos := rhos p;
     as_ := as_ p;
     bs := bs p;
     cs := cs p;
     yps := yps p;
     coslimit := coslimit p;
     Mix_U := Mix_U p;
     dm := dm p;
     ProductionHeightinCentimeter := ProductionHeightinCentimeter p;
     useProductionHeightAveraging := useProductionHeightAveraging p;
     nProductionHeightBins := nProductionHeightBins p;
     isSetProductionHeightArray := isSetProductionHeightArray p;
     isSetProductionHeight := isSetProductionHeight p;
     isSetCosine := isSetCosine p;
     isInit := isInit p;
     n_cosines := n_cosines p;
     n_energies := n_energies p;
     n_layers := n_layers p;
     UsePolyDensity := UsePolyDensity p |}.

Definition set_maxlayers (v : list Z) (p : Propagator) : Propagator :=
  {| energyList := energyList p;
     cosineList := cosineList p;
     maxlayers := v;
     productionHeightList_prob := productionHeightList_prob p;
     productionHeightList_bins := productionHeightList_bins p;
     radii := radii p;
     rhos := rhos p;
     as_ := as_ p;
     bs := bs p;
     cs := cs p;
     yps := yps p;
     coslimit := coslimit p;
     Mix_U := Mix_U p;
     dm := dm p;
     ProductionHeightinCentimeter := ProductionHeightinCentimeter p;
     useProductionHeightAveraging := useProductionHeightAveraging p;
     nProductionHeightBins := nProductionHeightBins p;
     isSetProductionHeightArray := isSetProductionHeightArray p;
     isSetProductionHeight := isSetProductionHeight p;
     isSetCosine := isSetCosine p;
     isInit := isInit p;
     n_cosines := n_cosines p;
     n_energies := n_energies p;
     n_layers := n_layers p;
     UsePolyDensity := UsePolyDensity p |}.

Definition set_radii (v : list R) (p : Propagator) : Propagator :=
  {| energyList := energyList p;
     cosineList := cosineList p;
     maxlayers := maxlayers p;
     productionHeightList_prob := productionHeightList_prob p;
     productionHeightList_bins := productionHeightList_bins p;
     radii := v;
     rhos := rhos p;
     as_ := as_ p;
     bs := bs p;
     cs := cs p;
     yps := yps p;
     coslimit := coslimit p;
     Mix_U := Mix_U p;
     dm := dm p;
     ProductionHeightinCentimeter := ProductionHeightinCentimeter p;
     useProductionHeightAveraging := useProductionHeightAveraging p;
     nProductionHeightBins := nProductionHeightBins p;
     isSetProductionHeightArray := isSetProductionHeightArray p;
     isSetProductionHeight := isSetProductionHeight p;
     isSetCosine := isSetCosine p;
     isInit := isInit p;
     n_cosines := n_cosines p;
     n_energies := n_energies p;
     n_layers := n_layers p;
     UsePolyDensity := UsePolyDensity p |}.

Definition set_rhos (v : list R) (p : Propagator) : Propagator :=
  {| energyList := energyList p;
     cosineList := cosineList p;
     maxlayers := maxlayers p;
     productionHeightList_prob := productionHeightList_prob p;
     productionHeightList_bins := productionHeightList_bins p;
     radii := radii p;
     rhos := v;
     as_ := as_ p;
     bs := bs p;
     cs := cs p;
     yps := yps p;
     coslimit := coslimit p;
     Mix_U := Mix_U p;
     dm := dm p;
     ProductionHeightinCentimeter := ProductionHeightinCentimeter p;
     useProductionHeightAveraging := useProductionHeightAveraging p;
     nProductionHeightBins := nProductionHeightBins p;
     isSetProductionHeightArray := isSetProductionHeightArray p;
     isSetProductionHeight := isSetProductionHeight p;
     isSetCosine := isSetCosine p;
     isInit := isInit p;
     n_cosines := n_cosines p;
     n_energies := n_energies p;
     n_layers := n_layers p;
     UsePolyDensity := UsePolyDensity p |}.

Definition set_yps (v : list R) (p : Propagator) : Propagator :=
  {| energyList := energyList p;
     cosineList := cosineList p;
     maxlayers := maxlayers p;
     productionHeightList_prob := productionHeightList_prob p;
     productionHeightList_bins := productionHeightList_bins p;
     radii := radii p;
     rhos := rhos p;
     as_ := as_ p;
     bs := bs p;
     cs := cs p;
     yps := v;
     coslimit := coslimit p;
     Mix_U := Mix_U p;
     dm := dm p;
     ProductionHeightinCentimeter := ProductionHeightinCentimeter p;
     useProductionHeightAveraging := useProductionHeightAveraging p;
     nProductionHeightBins := nProductionHeightBins p;
     isSetProductionHeightArray := isSetProductionHeightArray p;
     isSetProductionHeight := isSetProductionHeight p;
     isSetCosine := isSetCosine p;
     isInit := isInit p;
     n_cosines := n_cosines p;
     n_energies := n_energies p;
     n_layers := n_layers p;
     UsePolyDensity := UsePolyDensity p |}.

Definition set_coslimit (v : list R) (p : Propagator) : Propagator :=
  {| energyList := energyList p;
     cosineList := cosineList p;
     maxlayers := maxlayers p;
     productionHeightList_prob := productionHeightList_prob p;
     productionHeightList_bins := productionHeightList_bins p;
     radii := radii p;
     rhos := rhos p;
     as_ := as_ p;
     bs := bs p;
     cs := cs p;
     yps := yps p;
     coslimit := v;
     Mix_U := Mix_U p;
     dm := dm p;
     ProductionHeightinCentimeter := ProductionHeightinCentimeter p;
     useProductionHeightAveraging := useProductionHeightAveraging p;
     nProductionHeightBins := nProductionHeightBins p;
     isSetProductionHeightArray := isSetProductionHeightArray p;
     isSetProductionHeight := isSetProductionHeight p;
     isSetCosine := isSetCosine p;
     isInit := isInit p;
     n_cosines := n_cosines p;
     n_energies := n_energies p;
     n_layers := n_layers p;
     UsePolyDensity := UsePolyDensity p |}.

Definition set_Mix_U (v : nat -> ComplexNumber) (p : Propagator) : Propagator :=
  {| energyList := energyList p;
     cosineList := cosineList p;
     maxlayers := maxlayers p;
     productionHeightList_prob := productionHeightList_prob p;
     productionHeightList_bins := productionHeightList_bins p;
     radii := radii p;
     rhos := rhos p;
     as_ := as_ p;
     bs := bs p;
     cs := cs p;
     yps := yps p;
     coslimit := coslimit p;
     Mix_U := v;
     dm := dm p;
     ProductionHeightinCentimeter := ProductionHeightinCentimeter p;
     useProductionHeightAveraging := useProductionHeightAveraging p;
     nProductionHeightBins := nProductionHeightBins p;
     isSetProductionHeightArray := isSetProductionHeightArray p;
     isSetProductionHeight := isSetProductionHeight p;
     isSetCosine := isSetCosine p;
     isInit := isInit p;
     n_cosines := n_cosines p;
     n_energies := n_energies p;
     n_layers := n_layers p;
     UsePolyDensity := UsePolyDensity p |}.

Definition set_dm (v : nat -> R) (p : Propagator) : Propagator :=
  {| energyList := energyList p;
     cosineList := cosineList p;
     maxlayers := maxlayers p;
     productionHeightList_prob := productionHeightList_prob p;
     productionHeightList_bins := productionHeightList_bins p;
     radii := radii p;
     rhos := rhos p;
     as_ := as_ p;
     bs := bs p;
     cs := cs p;
     yps := yps p;
     coslimit := coslimit p;
     Mix_U := Mix_U p;
     dm := v;
     ProductionHeightinCentimeter := ProductionHeightinCentimeter p;
     useProductionHeightAveraging := useProductionHeightAveraging p;
     nProductionHeightBins := nProductionHeightBins p;
     isSetProductionHeightArray := isSetProductionHeightArray p;
     isSetProductionHeight := isSetProductionHeight p;
     isSetCosine := isSetCosine p;
     isInit := isInit p;
     n_cosines := n_cosines p;
     n_energies := n_energies p;
     n_layers := n_layers p;
     UsePolyDensity := UsePolyDensity p |}.

Definition set_ProductionHeightinCentimeter (v : R) (p : Propagator) : Propagator :=
  {| energyList := energyList p;
     cosineList := cosineList p;
     maxlayers := maxlayers p;
     productionHeightList_prob := productionHeightList_prob p;
     productionHeightList_bins := productionHeightList_bins p;
     radii := radii p;
     rhos := rhos p;
     as_ := as_ p;
     bs := bs p;
     cs := cs p;
     yps := yps p;
     coslimit := coslimit p;
     Mix_U := Mix_U p;
     dm := dm p;
     ProductionHeightinCentimeter := v;
     useProductionHeightAveraging := useProductionHeightAveraging p;
     nProductionHeightBins := nProductionHeightBins p;
     isSetProductionHeightArray := isSetProductionHeightArray p;
     isSetProductionHeight := isSetProductionHeight p;
     isSetCosine := isSetCosine p;
     isInit := isInit p;
     n_cosines := n_cosines p;
     n_energies := n_energies p;
     n_layers := n_layers p;
     UsePolyDensity := UsePolyDensity p |}.

Definition set_isSetProductionHeight (v : bool) (p : Propagator) : Propagator :=
  {| energyList := energyList p;
     cosineList := cosineList p;
     maxlayers := maxlayers p;
     productionHeightList_prob := productionHeightList_prob p;
     productionHeightList_bins := productionHeightList_bins p;
     radii := radii p;
     rhos := rhos p;
     as_ := as_ p;
     bs := bs p;
     cs := cs p;
     yps := yps p;
     coslimit := coslimit p;
     Mix_U := Mix_U p;
     dm := dm p;
     ProductionHeightinCentimeter := ProductionHeightinCentimeter p;
     useProductionHeightAveraging := useProductionHeightAveraging p;
     nProductionHeightBins := nProductionHeightBins p;
     isSetProductionHeightArray := isSetProductionHeightArray p;
     isSetProductionHeight := v;
     isSetCosine := isSetCosine p;
     isInit := isInit p;
     n_cosines := n_cosines p;
     n_energies := n_energies p;
     n_layers := n_layers p;
     UsePolyDensity := UsePolyDensity p |}.

Definition set_isSetCosine (v : bool) (p : Propagator) : Propagator :=
  {| energyList := energyList p;
     cosineList := cosineList p;
     maxlayers := maxlayers p;
     productionHeightList_prob := productionHeightList_prob p;
     productionHeightList_bins := productionHeightList_bins p;
     radii := radii p;
     rhos := rhos p;
     as_ := as_ p;
     bs := bs p;
     cs := cs p;
     yps := yps p;
     coslimit := coslimit p;
     Mix_U := Mix_U p;
     dm := dm p;
     ProductionHeightinCentimeter := ProductionHeightinCentimeter p;
     useProductionHeightAveraging := useProductionHeightAveraging p;
     nProductionHeightBins := nProductionHeightBins p;
     isSetProductionHeightArray := isSetProductionHeightArray p;
     isSetProductionHeight := isSetProductionHeight p;
     isSetCosine := v;
     isInit := isInit p;
     n_cosines := n_cosines p;
     n_energies := n_energies p;
     n_layers := n_layers p;
     UsePolyDensity := UsePolyDensity p |}.

Definition set_UsePolyDensity (v : bool) (p : Propagator) : Propagator :=
  {| energyList := energyList p;
     cosineList := cosineList p;
     maxlayers := maxlayers p;
     productionHeightList_prob := productionHeightList_prob p;
     productionHeightList_bins := productionHeightList_bins p;
     radii := radii p;
     rhos := rhos p;
     as_ := as_ p;
     bs := bs p;
     cs := cs p;
     yps := yps p;
     coslimit := coslimit p;
     Mix_U := Mix_U p;
     dm := dm p;
     ProductionHeightinCentimeter := ProductionHeightinCentimeter p;
     useProductionHeightAveraging := useProductionHeightAveraging p;
     nProductionHeightBins := nProductionHeightBins p;
     isSetProductionHeightArray := isSetProductionHeightArray p;
     isSetProductionHeight := isSetProductionHeight p;
     isSetCosine := isSetCosine p;
     isInit := isInit p;
     n_cosines := n_cosines p;
     n_energies := n_energies p;
     n_layers := n_layers p;
     UsePolyDensity := v |}.

(** [f[k] = v] on a [std::array]. *)
Definition upd {A : Type} (f : nat -> A) (k : nat) (v : A) : nat -> A :=
  fun x => if Nat.eqb x k then v else f x.

(** The accessors [U(i,j)] and [DM(i,j)] into [Mix_U] and [dm]. *)
Definition U (p : Propagator) (i j : nat) : ComplexNumber := Mix_U p (i * 3 + j)%nat.
Definition DM (p : Propagator) (i j : nat) : R := dm p (i * 3 + j)%nat.
Definition set_U (i j : nat) (v : ComplexNumber) (p : Propagator) : Propagator :=
  set_Mix_U (upd (Mix_U p) (i * 3 + j)%nat v) p.
Definition set_DM (i j : nat) (v : R) (p : Propagator) : Propagator :=
  set_dm (upd (dm p) (i * 3 + j)%nat v) p.

(** The constructor: the three vectors sized by the grid take their length
    (a negative [int] converts to a [size_t] beyond the largest vector, and
    [resize] throws), the members with an initialiser take it, and the
    others keep whatever the storage held ([uninit]). *)
Definition Propagator_new (n_cosines_ n_energies_ : Z) (uninit : Propagator)
  : outcome Propagator :=
  if ((n_energies_ <? 0) || (n_cosines_ <? 0))%Z
  then Throw "std::length_error"
  else
  Done
  {| energyList := replicate (Z.to_nat n_energies_) 0;
     cosineList := replicate (Z.to_nat n_cosines_) 0;
     maxlayers := replicate (Z.to_nat n_cosines_) 0%Z;
     productionHeightList_prob := [];
     productionHeightList_bins := [];
     radii := []; rhos := []; as_ := []; bs := []; cs := []; yps := [];
     coslimit := [];
     Mix_U := Mix_U uninit;
     dm := dm uninit;
     ProductionHeightinCentimeter := ProductionHeightinCentimeter uninit;
     useProductionHeightAveraging := false;
     nProductionHeightBins := 0;
     isSetProductionHeightArray := false;
     isSetProductionHeight := false;
     isSetCosine := false;
     isInit := true;
     n_cosines := n_cosines_;
     n_energies := n_energies_;
     n_layers := n_layers uninit;
     UsePolyDensity := UsePolyDensity uninit |}.

Section WithConstants.
Context (K : Constants).

(** [setMaxlayers]: for each cosine bin, the number of layers crossed by the
    path, the atmosphere excluded. *)
Definition setMaxlayers (p : Propagator) : outcome Propagator :=
  for_range_o 0 (Z.to_nat (n_cosines p))
    (fun index_cosine p =>
       match cosineList p !! index_cosine with
       | None => Undefined
       | Some c =>
         let maxLayer :=
           Z.of_nat (length (filter (fun limit => fltb c limit = true) (coslimit p))) in
         if (maxLayer >? MaxNLayers K)%Z
         then Throw "setMaxlayers : invalid number of maxLayer"
         else if (index_cosine <? length (maxlayers p))%nat
         then Done (set_maxlayers (<[index_cosine := maxLayer]> (maxlayers p)) p)
         else Undefined
       end)
    p.

(** The loop of [setDensity] over consecutive radii: some step goes against
    [sign]. *)
Fixpoint order_messed_up (sign : Z) (prev : R) (rest : list R) : bool :=
  match rest with
  | [] => false
  | x :: rest' =>
    if fltb ((x - prev) * IZR sign) 0 then true
    else order_messed_up sign x rest'
  end.

(** The cosine thresholds of the stored radii. *)
Definition cosine_limits (radii : list R) : list R :=
  imap (fun i r =>
          let x := -1 * sqrt (1 - (r * r / (REarth K * REarth K))) in
          if Nat.eqb i 0 then 0 else x)
       radii.

(** [setDensity(radii_, rhos_, yps_)]: constant density in each layer. *)
Definition setDensity (radii_ rhos_ yps_ : list R) (p : Propagator)
  : outcome Propagator :=
  let p := set_UsePolyDensity false p in
  if negb (length rhos_ =? length radii_)%nat
  then Throw "setDensity : rhos.size() != radii.size()"
  else if negb (length rhos_ =? length yps_)%nat
  then Throw "setDensity : rhos.size() != yps.size()"
  else if ((length rhos_ =? 0)%nat || (length radii_ =? 0)%nat || (length yps_ =? 0)%nat)%bool
  then Throw "setDensity : vectors must not be empty"
  else
    let check :=
      match radii_ with
      | r0 :: r1 :: rest =>
        let sign := if fltb 0 (r1 - r0) then 1%Z else (-1)%Z in
        if order_messed_up sign r0 (r1 :: rest)
        then None
        else Some (sign =? 1)%Z
      | _ => Some false
      end in
    match check with
    | None => Throw "radii order messed up"
    | Some needFlip =>
      let p := set_radii radii_ p in
      let p := set_rhos rhos_ p in
      let p := set_yps yps_ p in
      let p :=
        if needFlip
        then set_yps (reverse (yps p)) (set_rhos (reverse (rhos p))
               (set_radii (reverse (radii p)) p))
        else p in
      let p := set_coslimit (cosine_limits (radii p)) p in
      setMaxlayers p
    end.

End WithConstants.

(** [setMNSMatrix]: mixing angles and CP phase in radians. *)
Definition setMNSMatrix (theta12 theta13 theta23 dCP : R) (p : Propagator)
  : Propagator :=
  let s12 := sin theta12 in
  let s13 := sin theta13 in
  let s23 := sin theta23 in
  let c12 := cos theta12 in
  let c13 := cos theta13 in
  let c23 := cos theta23 in
  let sd := sin dCP in
  let cd := cos dCP in
  let p := set_U 0 0 (mkComplex (c12 * c13) 0) p in
  let p := set_U 0 1 (mkComplex (s12 * c13) 0) p in
  let p := set_U 0 2 (mkComplex (s13 * cd) (- s13 * sd)) p in
  let p := set_U 1 0 (mkComplex (- s12 * c23 - c12 * s23 * s13 * cd)
                                (- c12 * s23 * s13 * sd)) p in
  let p := set_U 1 1 (mkComplex (c12 * c23 - s12 * s23 * s13 * cd)
                                (- s12 * s23 * s13 * sd)) p in
  let p := set_U 1 2 (mkComplex (s23 * c13) 0) p in
  let p := set_U 2 0 (mkComplex (s12 * s23 - c12 * c23 * s13 * cd)
                                (- c12 * c23 * s13 * sd)) p in
  let p := set_U 2 1 (mkComplex (- c12 * s23 - s12 * c23 * s13 * cd)
                                (- s12 * c23 * s13 * sd)) p in
  set_U 2 2 (mkComplex (c23 * c13) 0) p.

(** [const FLOAT_T delta = 5.0e-9;] *)
Definition delta : R := 5.0e-9.

(** The local [mVac] of [setNeutrinoMasses] after the degeneracies are
    broken. *)
Definition mVac (dm12sq dm23sq : R) (i : nat) : R :=
  match i with
  | 0%nat => if feqb dm12sq 0 then 0 - delta else 0
  | 1%nat => dm12sq
  | _ => if feqb dm23sq 0 then dm12sq + dm23sq + delta else dm12sq + dm23sq
  end.

(** [setNeutrinoMasses]: mass differences (m_i_j)^2 in (eV)^2. *)
Definition setNeutrinoMasses (dm12sq dm23sq : R) (p : Propagator) : Propagator :=
  let mVac := mVac dm12sq dm23sq in
  let p := set_DM 0 0 0 p in
  let p := set_DM 1 1 0 p in
  let p := set_DM 2 2 0 p in
  let p := set_DM 0 1 (mVac 0%nat - mVac 1%nat) p in
  let p := set_DM 1 0 (- DM p 0 1) p in
  let p := set_DM 0 2 (mVac 0%nat - mVac 2%nat) p in
  let p := set_DM 2 0 (- DM p 0 2) p in
  let p := set_DM 1 2 (mVac 1%nat - mVac 2%nat) p in
  set_DM 2 1 (- DM p 1 2) p.

(** [setEnergyList]. *)
Definition setEnergyList (list : list R) (p : Propagator) : outcome Propagator :=
  if negb (Z.of_nat (length list) =? u64 (n_energies p))%Z
  then Throw "Propagator::setEnergyList. Propagator was not created for this number of energy nodes"
  else Done (set_energyList list p).

(** [setProductionHeight]: production height in km. *)
Definition setProductionHeight (heightKM : R) (p : Propagator) : outcome Propagator :=
  if negb (isSetCosine p)
  then Throw "must set cosine list before production height"
  else Done (set_isSetProductionHeight true
               (set_ProductionHeightinCentimeter (heightKM * 100000.0) p)).

Section WithConstants.
Context (K : Constants).

(** [setCosineList]. *)
Definition setCosineList (list : list R) (p : Propagator) : outcome Propagator :=
  if negb (Z.of_nat (length list) =? u64 (n_cosines p))%Z
  then Throw "Propagator::setCosineList. Propagator was not created for this number of cosine nodes"
  else
    let p := set_cosineList list p in
    bind (if isSetProductionHeight p
          then setProductionHeight (ProductionHeightinCentimeter p / 100000.0) p
          else Done p)
      (fun p => bind (setMaxlayers K p) (fun p => Done (set_isSetCosine true p))).

End WithConstants.

(** Assignment to the remaining data members. *)
Definition set_as_ (v : list R) (p : Propagator) : Propagator :=
  {| energyList := energyList p;
     cosineList := cosineList p;
     maxlayers := maxlayers p;
     productionHeightList_prob := productionHeightList_prob p;
     productionHeightList_bins := productionHeightList_bins p;
     radii := radii p;
     rhos := rhos p;
     as_ := v;
     bs := bs p;
     cs := cs p;
     yps := yps p;
     coslimit := coslimit p;
     Mix_U := Mix_U p;
     dm := dm p;
     ProductionHeightinCentimeter := ProductionHeightinCentimeter p;
     useProductionHeightAveraging := useProductionHeightAveraging p;
     nProductionHeightBins := nProductionHeightBins p;
     isSetProductionHeightArray := isSetProductionHeightArray p;
     isSetProductionHeight := isSetProductionHeight p;
     isSetCosine := isSetCosine p;
     isInit := isInit p;
     n_cosines := n_cosines p;
     n_energies := n_energies p;
     n_layers := n_layers p;
     UsePolyDensity := UsePolyDensity p |}.

Definition set_bs (v : list R) (p : Propagator) : Propagator :=
  {| energyList := energyList p;
     cosineList := cosineList p;
     maxlayers := maxlayers p;
     productionHeightList_prob := productionHeightList_prob p;
     productionHeightList_bins := productionHeightList_bins p;
     radii := radii p;
     rhos := rhos p;
     as_ := as_ p;
     bs := v;
     cs := cs p;
     yps := yps p;
     coslimit := coslimit p;
     Mix_U := Mix_U p;
     dm := dm p;
     ProductionHeightinCentimeter := ProductionHeightinCentimeter p;
     useProductionHeightAveraging := useProductionHeightAveraging p;
     nProductionHeightBins := nProductionHeightBins p;
     isSetProductionHeightArray := isSetProductionHeightArray p;
     isSetProductionHeight := isSetProductionHeight p;
     isSetCosine := isSetCosine p;
     isInit := isInit p;
     n_cosines := n_cosines p;
     n_energies := n_energies p;
     n_layers := n_layers p;
     UsePolyDensity := UsePolyDensity p |}.

Definition set_cs (v : list R) (p : Propagator) : Propagator :=
  {| energyList := energyList p;
     cosineList := cosineList p;
     maxlayers := maxlayers p;
     productionHeightList_prob := productionHeightList_prob p;
     productionHeightList_bins := productionHeightList_bins p;
     radii := radii p;
     rhos := rhos p;
     as_ := as_ p;
     bs := bs p;
     cs := v;
     yps := yps p;
     coslimit := coslimit p;
     Mix_U := Mix_U p;
     dm := dm p;
     ProductionHeightinCentimeter := ProductionHeightinCentimeter p;
     useProductionHeightAveraging := useProductionHeightAveraging p;
     nProductionHeightBins := nProductionHeightBins p;
     isSetProductionHeightArray := isSetProductionHeightArray p;
     isSetProductionHeight := isSetProductionHeight p;
     isSetCosine := isSetCosine p;
     isInit := isInit p;
     n_cosines := n_cosines p;
     n_energies := n_energies p;
     n_layers := n_layers p;
     UsePolyDensity := UsePolyDensity p |}.

Definition set_productionHeightList_prob (v : list R) (p : Propagator) : Propagator :=
  {| energyList := energyList p;
     cosineList := cosineList p;
     maxlayers := maxlayers p;
     productionHeightList_prob := v;
     productionHeightList_bins := productionHeightList_bins p;
     radii := radii p;
     rhos := rhos p;
     as_ := as_ p;
     bs := bs p;
     cs := cs p;
     yps := yps p;
     coslimit := coslimit p;
     Mix_U := Mix_U p;
     dm := dm p;
     ProductionHeightinCentimeter := ProductionHeightinCentimeter p;
     useProductionHeightAveraging := useProductionHeightAveraging p;
     nProductionHeightBins := nProductionHeightBins p;
     isSetProductionHeightArray := isSetProductionHeightArray p;
     isSetProductionHeight := isSetProductionHeight p;
     isSetCosine := isSetCosine p;
     isInit := isInit p;
     n_cosines := n_cosines p;
     n_energies := n_energies p;
     n_layers := n_layers p;
     UsePolyDensity := UsePolyDensity p |}.

Definition set_productionHeightList_bins (v : list R) (p : Propagator) : Propagator :=
  {| energyList := energyList p;
     cosineList := cosineList p;
     maxlayers := maxlayers p;
     productionHeightList_prob := productionHeightList_prob p;
     productionHeightList_bins := v;
     radii := radii p;
     rhos := rhos p;
     as_ := as_ p;
     bs := bs p;
     cs := cs p;
     yps := yps p;
     coslimit := coslimit p;
     Mix_U := Mix_U p;
     dm := dm p;
     ProductionHeightinCentimeter := ProductionHeightinCentimeter p;
     useProductionHeightAveraging := useProductionHeightAveraging p;
     nProductionHeightBins := nProductionHeightBins p;
     isSetProductionHeightArray := isSetProductionHeightArray p;
     isSetProductionHeight := isSetProductionHeight p;
     isSetCosine := isSetCosine p;
     isInit := isInit p;
     n_cosines := n_cosines p;
     n_energies := n_energies p;
     n_layers := n_layers p;
     UsePolyDensity := UsePolyDensity p |}.

Definition set_useProductionHeightAveraging (v : bool) (p : Propagator) : Propagator :=
  {| energyList := energyList p;
     cosineList := cosineList p;
     maxlayers := maxlayers p;
     productionHeightList_prob := productionHeightList_prob p;
     productionHeightList_bins := productionHeightList_bins p;
     radii := radii p;
     rhos := rhos p;
     as_ := as_ p;
     bs := bs p;
     cs := cs p;
     yps := yps p;
     coslimit := coslimit p;
     Mix_U := Mix_U p;
     dm := dm p;
     ProductionHeightinCentimeter := ProductionHeightinCentimeter p;
     useProductionHeightAveraging := v;
     nProductionHeightBins := nProductionHeightBins p;
     isSetProductionHeightArray := isSetProductionHeightArray p;
     isSetProductionHeight := isSetProductionHeight p;
     isSetCosine := isSetCosine p;
     isInit := isInit p;
     n_cosines := n_cosines p;
     n_energies := n_energies p;
     n_layers := n_layers p;
     UsePolyDensity := UsePolyDensity p |}.

Definition set_nProductionHeightBins (v : Z) (p : Propagator) : Propagator :=
  {| energyList := energyList p;
     cosineList := cosineList p;
     maxlayers := maxlayers p;
     productionHeightList_prob := productionHeightList_prob p;
     productionHeightList_bins := productionHeightList_bins p;
     radii := radii p;
     rhos := rhos p;
     as_ := as_ p;
     bs := bs p;
     cs := cs p;
     yps := yps p;
     coslimit := coslimit p;
     Mix_U := Mix_U p;
     dm := dm p;
     ProductionHeightinCentimeter := ProductionHeightinCentimeter p;
     useProductionHeightAveraging := useProductionHeightAveraging p;
     nProductionHeightBins := v;
     isSetProductionHeightArray := isSetProductionHeightArray p;
     isSetProductionHeight := isSetProductionHeight p;
     isSetCosine := isSetCosine p;
     isInit := isInit p;
     n_cosines := n_cosines p;
     n_energies := n_energies p;
     n_layers := n_layers p;
     UsePolyDensity := UsePolyDensity p |}.

Definition set_isSetProductionHeightArray (v : bool) (p : Propagator) : Propagator :=
  {| energyList := energyList p;
     cosineList := cosineList p;
     maxlayers := maxlayers p;
     productionHeightList_prob := productionHeightList_prob p;
     productionHeightList_bins := productionHeightList_bins p;
     radii := radii p;
     rhos := rhos p;
     as_ := as_ p;
     bs := bs p;
     cs := cs p;
     yps := yps p;
     coslimit := coslimit p;
     Mix_U := Mix_U p;
     dm := dm p;
     ProductionHeightinCentimeter := ProductionHeightinCentimeter p;
     useProductionHeightAveraging := useProductionHeightAveraging p;
     nProductionHeightBins := nProductionHeightBins p;
     isSetProductionHeightArray := v;
     isSetProductionHeight := isSetProductionHeight p;
     isSetCosine := isSetCosine p;
     isInit := isInit p;
     n_cosines := n_cosines p;
     n_energies := n_energies p;
     n_layers := n_layers p;
     UsePolyDensity := UsePolyDensity p |}.

(** The copy assignment operator: it names every data member but
    [n_cosines], [n_energies], [n_layers] and [UsePolyDensity], which keep
    the value they have in the object assigned to. *)
Definition copy_assign (other this : Propagator) : Propagator :=
  {| energyList := energyList other;
     cosineList := cosineList other;
     maxlayers := maxlayers other;
     productionHeightList_prob := productionHeightList_prob other;
     productionHeightList_bins := productionHeightList_bins other;
     radii := radii other;
     rhos := rhos other;
     as_ := as_ other;
     bs := bs other;
     cs := cs other;
     yps := yps other;
     coslimit := coslimit other;
     Mix_U := Mix_U other;
     dm := dm other;
     ProductionHeightinCentimeter := ProductionHeightinCentimeter other;
     useProductionHeightAveraging := useProductionHeightAveraging other;
     nProductionHeightBins := nProductionHeightBins other;
     isSetProductionHeightArray := isSetProductionHeightArray other;
     isSetProductionHeight := isSetProductionHeight other;
     isSetCosine := isSetCosine other;
     isInit := isInit other;
     n_cosines := n_cosines this;
     n_energies := n_energies this;
     n_layers := n_layers this;
     UsePolyDensity := UsePolyDensity this |}.

(** The copy constructor: [*this = other] on storage whose members without
    an initialiser hold whatever was there ([uninit]); the members with an
    initialiser are all overwritten by the assignment. *)
Definition Propagator_copy (other uninit : Propagator) : Propagator :=
  copy_assign other uninit.

Section WithConstants.
Context (K : Constants).

(** [setDensity(radii_, a_, b_, c_, yps_)]: a polynomial density in each
    layer. *)
Definition setDensity_poly (radii_ a_ b_ c_ yps_ : list R) (p : Propagator)
  : outcome Propagator :=
  let p := set_UsePolyDensity true p in
  if negb (length a_ =? length radii_)%nat
  then Throw "setDensity : a.size() != radii.size()"
  else if negb (length a_ =? length yps_)%nat
  then Throw "setDensity : a.size() != yps.size()"
  else if ((length a_ =? 0)%nat || (length b_ =? 0)%nat || (length c_ =? 0)%nat
           || (length radii_ =? 0)%nat || (length yps_ =? 0)%nat)%bool
  then Throw "setDensity : vectors must not be empty"
  else
    let check :=
      match radii_ with
      | r0 :: r1 :: rest =>
        let sign := if fltb 0 (r1 - r0) then 1%Z else (-1)%Z in
        if order_messed_up sign r0 (r1 :: rest)
        then None
        else Some (sign =? 1)%Z
      | _ => Some false
      end in
    match check with
    | None => Throw "radii order messed up"
    | Some needFlip =>
      let p := set_radii radii_ p in
      let p := set_as_ a_ p in
      let p := set_bs b_ p in
      let p := set_cs c_ p in
      let p := set_yps yps_ p in
      let p :=
        if needFlip
        then set_cs (reverse (cs p)) (set_bs (reverse (bs p)) (set_as_ (reverse (as_ p))
               (set_yps (reverse (yps p)) (set_radii (reverse (radii p)) p))))
        else p in
      let p := set_coslimit (cosine_limits K (radii p)) p in
      setMaxlayers K p
    end.

End WithConstants.

Section WithProductionHeightBins.
(** [Constants<FLOAT_T>::MaxProdHeightBins()] of constants.hpp, which is not
    part of the source tree; it is read as an [int]. *)
Context (MaxProdHeightBins : Z).

(** [SetNumberOfProductionHeightBinsForAveraging]. *)
Definition SetNumberOfProductionHeightBinsForAveraging (nProductionHeightBins_ : Z)
  (p : Propagator) : outcome Propagator :=
  if (nProductionHeightBins_ >? MaxProdHeightBins)%Z
  then Throw "SetNumberOfProductionHeightBinsForAveraging : invalid number of production height bins"
  else
    let p := set_nProductionHeightBins nProductionHeightBins_ p in
    Done (if (nProductionHeightBins p >=? 1)%Z
          then set_useProductionHeightAveraging true p
          else p).

(** The range of an [int]: arithmetic that leaves it is not defined. *)
Definition in_int (z : Z) : bool := ((- 2 ^ 31 <=? z) && (z <? 2 ^ 31))%Z.

(** [for (unsigned int i = 0; i < src.size(); i++) dst[i] = src[i];] *)
Definition copy_prefix (src dst : list R) : outcome (list R) :=
  for_range_o 0 (length src)
    (fun i dst =>
       match src !! i with
       | Some x => store dst (Z.of_nat i) x
       | None => Undefined
       end)
    dst.

(** [setProductionHeightList]: the weights and the bin edges of the
    production heights, each copied into a zeroed vector of the largest size
    that [calculate] reads. *)
Definition setProductionHeightList (list_prob list_bins : list R) (p : Propagator)
  : outcome Propagator :=
  if negb (useProductionHeightAveraging p)
  then Throw "Propagator::setProductionHeightList. Trying to set Production Height information but propagator is not expecting to use it"
  else
    let expected := (nProductionHeightBins p * 2 * 3 * n_energies p * n_cosines p)%Z in
    if negb (in_int (nProductionHeightBins p * 2) && in_int (nProductionHeightBins p * 2 * 3)
             && in_int (nProductionHeightBins p * 2 * 3 * n_energies p)
             && in_int expected)
    then Undefined
    else if negb (Z.of_nat (length list_prob) =? u64 expected)%Z
    then Throw "Propagator::setProductionHeightList. Prob array is not the expected size"
    else if negb (u64 (Z.of_nat (length list_bins) - 1) =? u64 (nProductionHeightBins p))%Z
    then Throw "Propagator::setProductionHeightList. ProductionHeightBins array is not expected size"
    else
      let MaxSize := (MaxProdHeightBins * 2 * 3 * n_energies p * n_cosines p)%Z in
      if negb (in_int (MaxProdHeightBins * 2) && in_int (MaxProdHeightBins * 2 * 3)
               && in_int (MaxProdHeightBins * 2 * 3 * n_energies p)
               && in_int MaxSize && in_int (MaxProdHeightBins + 1))
      then Undefined
      else if (MaxSize <? 0)%Z then Throw "std::length_error"
      else
        bind (copy_prefix list_prob (replicate (Z.to_nat MaxSize) 0))
          (fun prob =>
             if (MaxProdHeightBins + 1 <? 0)%Z then Throw "std::length_error"
             (* the unsigned counter of the zeroing loop runs past the vector *)
             else if (MaxProdHeightBins <? 0)%Z then Undefined
             else
               bind (copy_prefix list_bins
                       (replicate (Z.to_nat (MaxProdHeightBins + 1)) 0))
                 (fun bins =>
                    Done (set_isSetProductionHeightArray true
                            (set_productionHeightList_bins bins
                               (set_productionHeightList_prob prob p))))).

End WithProductionHeightBins.

End propagator.

(** ** cpupropagator.hpp *)
Module cpupropagator.

(** [CpuPropagator<FLOAT_T>]: a [Propagator] and the result buffer. *)
Record CpuPropagator : Type := mkCpuPropagator {
  base : propagator.Propagator;
  resultList : list R
}.

(** The constructor: the result buffer takes nine numbers per bin. *)
Definition CpuPropagator_new (n_cosines n_energies threads : Z)
  (uninit : propagator.Propagator) : outcome CpuPropagator :=
  bind (propagator.Propagator_new n_cosines n_energies uninit)
    (fun b =>
       Done {| base := b;
               resultList :=
                 replicate (Z.to_nat (u64 (u64 (u64 n_cosines * u64 n_energies) * u64 9))) 0 |}).

Section WithProbType.
(** [enum ProbType] of types.hpp, which is not part of the source tree, and
    the conversion [int(t)]. *)
Context {ProbType : Type} (ProbType_int : ProbType -> Z).

(** [resultList[i]], an unchecked access. *)
Definition load (v : list R) (i : Z) : outcome R :=
  if (i <? 0)%Z then Undefined
  else match v !! Z.to_nat i with
       | Some x => Done x
       | None => Undefined
       end.

(** [getProbability]: the oscillation weight of one bin. *)
Definition getProbability (p : CpuPropagator) (index_cosine index_energy : Z)
  (t : ProbType) : outcome R :=
  if ((index_cosine >=? propagator.n_cosines (base p)) ||
      (index_energy >=? propagator.n_energies (base p)))%Z
  then Throw "CpuPropagator::getProbability. Invalid indices"
  else
    let index :=
      u64 (u64 (u64 (u64 index_cosine * u64 (propagator.n_energies (base p))) * u64 9)
           + u64 (u64 index_energy * u64 9)) in
    load (resultList p) (u64 (index + u64 (ProbType_int t))).

(** [getProbabilityArr]: the weights of all bins for one probability type,
    written to [probArr] in the order of the two loops. *)
Definition getProbabilityArr (p : CpuPropagator) (probArr : Z -> R) (t : ProbType)
  : outcome (Z -> R) :=
  let n_e := Z.to_nat (u64 (propagator.n_energies (base p))) in
  let n_c := Z.to_nat (u64 (propagator.n_cosines (base p))) in
  bind
    (for_range_o 0 n_e
       (fun index_energy (st : Z * (Z -> R)) =>
          for_range_o 0 n_c
            (fun index_cosine (st : Z * (Z -> R)) =>
               let '(iter, probArr) := st in
               let index :=
                 u64 (u64 (u64 (u64 (Z.of_nat index_cosine) *
                                u64 (propagator.n_energies (base p))) * u64 9)
                      + u64 (u64 (Z.of_nat index_energy) * u64 9)) in
               bind (load (resultList p) (u64 (index + u64 (ProbType_int t))))
                 (fun x =>
                    Done (u64 (iter + 1),
                          fun i => if (i =? iter)%Z then x else probArr i)))
            st)
       (0%Z, probArr))
    (fun st => Done (snd st)).

End WithProbType.

(** The copy assignment operator. *)
Definition copy_assign (other this : CpuPropagator) : CpuPropagator :=
  {| base := propagator.copy_assign (base other) (base this);
     resultList := resultList other |}.

(** The copy constructor: the base is copy-constructed, then [*this = other]. *)
Definition CpuPropagator_copy (other : CpuPropagator) (uninit : propagator.Propagator)
  : CpuPropagator :=
  copy_assign other
    {| base := propagator.Propagator_copy (base other) uninit; resultList := [] |}.

(** [setChemicalComposition]: the electron fractions of the layers, copied
    entry by entry; the counter is an [int]. *)
Definition setChemicalComposition (list : list R) (p : CpuPropagator)
  : outcome CpuPropagator :=
  if negb (length list =? length (propagator.yps (base p)))%nat
  then Throw "CpuPropagator::setChemicalComposition. Size of input list not equal to expectation."
  else
    bind (for_range_o 0 (length list)
            (fun iyp b =>
               if (2 ^ 31 <=? Z.of_nat iyp)%Z then Undefined
               else
                 match list !! iyp with
                 | Some x =>
                   if (iyp <? length (propagator.yps b))%nat
                   then Done (propagator.set_yps (<[iyp := x]> (propagator.yps b)) b)
                   else Undefined
                 | None => Undefined
                 end)
            (base p))
      (fun b => Done {| base := b; resultList := resultList p |}).

End cpupropagator.

(** ** Vocabulary of the statements *)

(** Radii listed from the centre outwards, and from the surface inwards. *)
Definition ascending (l : list R) : Prop := Sorted Rle l.
Definition descending (l : list R) : Prop := Sorted (flip Rle) l.

(** The first step of the list goes up: the test [sign == 1] of
    [setDensity]. *)
Definition first_step_ascends (l : list R) : bool :=
  match l with
  | r0 :: r1 :: _ => fltb 0 (r1 - r0)
  | _ => false
  end.

(** The mass difference matrix of a [Propagator] as [setMassDifferences_host]
    receives it from [dm.data()], and its mixing matrix as
    [setMixMatrix_host] receives it from [Mix_U.data()]. *)
Definition mass_differences (p : propagator.Propagator) : nat -> nat -> R :=
  fun i j => propagator.DM p i j.
Definition mixing_matrix (p : propagator.Propagator) : nat -> nat -> ComplexNumber :=
  fun i j => propagator.U p i j.

(** The globals with which the layers of [calculate] run for a
    [Propagator]: parameters copied by the host, vacuum order prepared. *)
Definition globals_of (p : propagator.Propagator) (type : NeutrinoType)
  (g0 : physics.Globals) : physics.Globals :=
  physics.prepare_getMfast type
    (physics.set_parameters (mixing_matrix p) (mass_differences p) g0).

(** The rows of a mixing matrix are orthonormal: [U U^dagger = 1], entry by
    entry in real and imaginary part. *)
Definition rows_orthonormal (Umat : nat -> nat -> ComplexNumber) : Prop :=
  forall n m : nat, (n < 3)%nat -> (m < 3)%nat ->
    re (Umat n 0%nat) * re (Umat m 0%nat) + im (Umat n 0%nat) * im (Umat m 0%nat)
    + (re (Umat n 1%nat) * re (Umat m 1%nat) + im (Umat n 1%nat) * im (Umat m 1%nat))
    + (re (Umat n 2%nat) * re (Umat m 2%nat) + im (Umat n 2%nat) * im (Umat m 2%nat))
    = (if Nat.eqb n m then 1 else 0)
    /\ im (Umat n 0%nat) * re (Umat m 0%nat) - re (Umat n 0%nat) * im (Umat m 0%nat)
       + (im (Umat n 1%nat) * re (Umat m 1%nat) - re (Umat n 1%nat) * im (Umat m 1%nat))
       + (im (Umat n 2%nat) * re (Umat m 2%nat) - re (Umat n 2%nat) * im (Umat m 2%nat))
       = 0.

(** The conjugate transpose of a 3x3 matrix. *)
Definition adjoint (Umat : nat -> nat -> ComplexNumber) : nat -> nat -> ComplexNumber :=
  fun i j => mkComplex (re (Umat j i)) (- im (Umat j i)).

(** The three divisors of [get_product] for a neutrino of energy [Enu] in
    matter of density [rho]. *)
Definition divisors (K : Constants) (g : physics.Globals) (Enu rho : R)
  (type : NeutrinoType) (k : nat) : R :=
  physics.product_divisor (fst (physics.getMfast K g Enu rho type)) k.

(** The number of cosine thresholds above a cosine: the [count_if] of
    [setMaxlayers]. *)
Definition crossed_layers (coslimit : list R) (c : R) : Z :=
  Z.of_nat (length (filter (fun limit => fltb c limit = true) coslimit)).

(** The sum of [f lo], ..., [f (lo + n - 1)]. *)
Definition sum_from (f : nat -> R) (lo n : nat) : R :=
  for_range lo n (fun l acc => acc + f l) 0.

(** The entry [[i][j][e]] of [totalLenShiftFactor] after [n] turns of the
    loop over path lengths, written as a sum: off the diagonal, the weights
    of the flavour [e] times the factors of the pair of eigenstates; on the
    diagonal, the unit tensor. *)
Definition shift_factor_sum (K : Constants) (type : NeutrinoType)
  (n_cosines n_energies index_cosine index_energy : Z)
  (productionHeight_prob_list : Z -> R) (lengths : nat -> R) (darg0 : nat -> R)
  (n : nat) (i j e : nat) : ComplexNumber :=
  let weight h :=
    productionHeight_prob_list
      (physics.ProbIndex K type n_cosines n_energies index_cosine index_energy e h) in
  let factor h :=
    physics.sinc_exp_factor darg0 (lengths h) (lengths (h + 1)%nat)
      (Nat.max i j) (Nat.min i j) in
  if ((i <? 3)%nat && (j <? 3)%nat && (e <? 3)%nat && negb (i =? j)%nat)%bool
  then mkComplex (sum_from (fun h => weight h * re (factor h)) 0 n)
                 (sum_from (fun h => weight h * im (factor h)) 0 n)
  else physics.unit_tensor i j e.

(** The length of the path that the loop over layers of [calculate]
    composes for a bin that crosses [MaxLayer] layers: the atmosphere once,
    every layer above the innermost one twice (its amplitude enters
    [finalTransitionMatrix] and [TransitionMatrixCoreToMantle]), and the
    innermost layer once; the atmosphere alone when no layer is crossed. *)
Definition composed_distance (K : Constants) (radii : Z -> R) (MaxLayer : nat)
  (PathLength TotalEarthLength cosine_zenith : R) : R :=
  let d layer :=
    physics.getTraversedDistanceOfLayer K radii (Z.of_nat layer) (Z.of_nat MaxLayer)
      PathLength TotalEarthLength cosine_zenith in
  match MaxLayer with
  | O => d 0%nat
  | S n => d 0%nat + 2 * sum_from d 1 n + d MaxLayer
  end.

(** ** Sample values

    Values for the parameters of constants.hpp and for the storage that the
    constructors leave uninitialised, used where a statement is evaluated on
    a concrete input. *)
Module sample.

Definition constants : Constants :=
  {| REarth := 6371; REarthcm := 6.371e8; tworttwoGf := 1.52588e-4; km2cm := 1.0e5;
     MaxNLayers := 8; NPRODHEIGHTBINS := 20;
     NeutrinoType_int := fun t => match t with Neutrino => 0%Z | Antineutrino => 1%Z end |}.

Definition globals : physics.Globals :=
  {| physics.U := fun _ _ => czero; physics.DM := fun _ _ => 0;
     physics.AXFAC := fun _ _ _ _ _ => 0; physics.ORDER := fun _ => 0%nat |}.

Definition storage : propagator.Propagator :=
  {| propagator.energyList := []; propagator.cosineList := [];
     propagator.maxlayers := [];
     propagator.productionHeightList_prob := [];
     propagator.productionHeightList_bins := [];
     propagator.radii := []; propagator.rhos := []; propagator.as_ := [];
     propagator.bs := []; propagator.cs := []; propagator.yps := [];
     propagator.coslimit := [];
     propagator.Mix_U := fun _ => czero; propagator.dm := fun _ => 0;
     propagator.ProductionHeightinCentimeter := 0;
     propagator.useProductionHeightAveraging := false;
     propagator.nProductionHeightBins := 0;
     propagator.isSetProductionHeightArray := false;
     propagator.isSetProductionHeight := false;
     propagator.isSetCosine := false; propagator.isInit := true;
     propagator.n_cosines := 0; propagator.n_energies := 0;
     propagator.n_layers := 0; propagator.UsePolyDensity := false |}.

Definition product0 : nat -> nat -> nat -> ComplexNumber := fun _ _ _ => czero.

(** A propagator of two cosine and two energy bins whose result buffer
    holds the numbers 0 to 35, each at its own offset. *)
Definition grid : cpupropagator.CpuPropagator :=
  {| cpupropagator.base :=
       {| propagator.energyList := [1; 2]; propagator.cosineList := [-1; 0];
          propagator.maxlayers := [0%Z; 0%Z];
          propagator.productionHeightList_prob := [];
          propagator.productionHeightList_bins := [];
          propagator.radii := []; propagator.rhos := []; propagator.as_ := [];
          propagator.bs := []; propagator.cs := []; propagator.yps := [];
          propagator.coslimit := [];
          propagator.Mix_U := fun _ => czero; propagator.dm := fun _ => 0;
          propagator.ProductionHeightinCentimeter := 0;
          propagator.useProductionHeightAveraging := false;
          propagator.nProductionHeightBins := 0;
          propagator.isSetProductionHeightArray := false;
          propagator.isSetProductionHeight := false;
          propagator.isSetCosine := true; propagator.isInit := true;
          propagator.n_cosines := 2; propagator.n_energies := 2;
          propagator.n_layers := 0; propagator.UsePolyDensity := false |};
     cpupropagator.resultList := map INR (seq 0 36) |}.

(** A propagator with the mixing angles of the spec's scenario and two mass
    splittings. *)
Definition oscillating : propagator.Propagator :=
  propagator.setNeutrinoMasses 7.9e-5 2.5e-3
    (propagator.setMNSMatrix 0.5843 0.1485 0.7854 0 storage).


(** No mixing, and vacuum masses 0, 1 and 2. *)
Definition equidistant : propagator.Propagator :=
  propagator.setNeutrinoMasses 1 1
    (propagator.setMNSMatrix 0 0 0 0 storage).



End sample.

(** * Properties *)

(** ** Comparisons *)

Lemma fltb_true a b : fltb a b = true <-> a < b.
Proof. unfold fltb. destruct (Rlt_dec a b); split; intros; auto; discriminate. Qed.

Lemma fltb_false a b : fltb a b = false <-> ~ a < b.
Proof. unfold fltb. destruct (Rlt_dec a b); split; intros; auto; try discriminate; tauto. Qed.

Lemma feqb_true a b : feqb a b = true <-> a = b.
Proof. unfold feqb. destruct (Req_dec_T a b); split; intros; auto; discriminate. Qed.

Lemma feqb_false a b : feqb a b = false <-> a <> b.
Proof. unfold feqb. destruct (Req_dec_T a b); split; intros; auto; try discriminate; tauto. Qed.

Lemma feqb_refl a : feqb a a = true.
Proof. apply feqb_true. reflexivity. Qed.

Lemma complex_eq (a b : ComplexNumber) : re a = re b -> im a = im b -> a = b.
Proof. destruct a, b; simpl; intros; subst; reflexivity. Qed.

(** ** Loops *)

Lemma for_range_o_inv {A : Type} (P : nat -> A -> Prop)
  (body : nat -> A -> outcome A) (n lo : nat) (a : A) :
  P lo a ->
  (forall i x, (lo <= i < lo + n)%nat -> P i x ->
               exists x', body i x = Done x' /\ P (S i) x') ->
  exists a', for_range_o lo n body a = Done a' /\ P (lo + n)%nat a'.
Proof.
  revert lo a. induction n as [|n IH]; intros lo a H0 Hstep; simpl.
  - exists a. split; [reflexivity|]. replace (lo + 0)%nat with lo by lia. exact H0.
  - destruct (Hstep lo a) as (x' & Hb & HP); [lia|exact H0|].
    rewrite Hb. simpl.
    destruct (IH (S lo) x') as (a' & Hr & HP'); [exact HP| |].
    + intros i x Hi. apply Hstep. lia.
    + exists a'. split; [exact Hr|]. replace (lo + S n)%nat with (S lo + n)%nat by lia.
      exact HP'.
Qed.

Lemma for_range_o_snoc {A : Type} (body : nat -> A -> outcome A) (n lo : nat) (a : A) :
  for_range_o lo (S n) body a = bind (for_range_o lo n body a) (body (lo + n)%nat).
Proof.
  revert lo a. induction n as [|n IH]; intros lo a.
  - simpl. replace (lo + 0)%nat with lo by lia. destruct (body lo a); reflexivity.
  - change (for_range_o lo (S (S n)) body a)
      with (bind (body lo a) (for_range_o (S lo) (S n) body)).
    change (for_range_o lo (S n) body a)
      with (bind (body lo a) (for_range_o (S lo) n body)).
    destruct (body lo a) as [x| | |]; cbn [bind]; try reflexivity.
    rewrite IH. replace (S lo + n)%nat with (lo + S n)%nat by lia. reflexivity.
Qed.

Lemma for_range_o_stops {A : Type} (body : nat -> A -> outcome A) (n lo k : nat)
  (a x : A) (bad : outcome A) :
  (k < n)%nat ->
  for_range_o lo k body a = Done x ->
  body (lo + k)%nat x = bad ->
  (forall y, bad <> Done y) ->
  for_range_o lo n body a = bad.
Proof.
  revert lo k a. induction n as [|n IH]; intros lo k a Hk Hpre Hbad Hnd; [lia|].
  destruct k as [|k].
  - simpl in Hpre. inversion Hpre; subst. simpl.
    replace (lo + 0)%nat with lo in Hnd |- * by lia.
    destruct (body lo x) eqn:E; simpl; try reflexivity.
    exfalso. eapply Hnd. reflexivity.
  - simpl in Hpre. simpl.
    destruct (body lo a) as [y| | |] eqn:E; simpl in Hpre; try discriminate.
    simpl. eapply (IH (S lo) k y); [lia|exact Hpre| |exact Hnd].
    replace (S lo + k)%nat with (lo + S k)%nat by lia. exact Hbad.
Qed.

(** ** The two forms of the single-layer amplitude *)

Section Expansion.
Context (K : Constants).

(** The globals as the layers of [calculate] find them on the host: mixing
    matrix and mass differences set, vacuum order prepared. *)
Local Abbreviation configured Umat dm type g0 :=
  (physics.prepare_getMfast type (physics.set_parameters Umat dm g0)).

(** With the factors [AXFAC] precomputed from [U], the amplitude of [getA] is
    the sum of the coefficient matrices of [getC], each rotated by its phase
    of [getArg]. *)
Lemma recombine_getC_getA Umat dm type0 g0 L E rho dVac dMat type p0 n m :
  let g := configured Umat dm type0 g0 in
  physics.recombine
    (physics.getC K g E rho dVac dMat type 0 p0)
    (physics.getArg L E dVac 0) n m
  = physics.getA K g L E rho dVac dMat type 0 p0 n m.
Proof.
  intros g.
  unfold physics.recombine, physics.getC, physics.getA, physics.getA_X, physics.getArg.
  rewrite feqb_refl.
  generalize (physics.get_product K g E rho dVac dMat type).
  intros P.
  unfold g, physics.prepare_getMfast, physics.set_parameters, physics.setMassDifferences_host,
    physics.setMixMatrix_host, math.multiply_phase_matrix, math.clear_complex_matrix,
    for3, czero; simpl.
  rewrite !Rplus_0_r.
  apply complex_eq; simpl; ring.
Qed.

(** The amplitude of [getA] and the recombined expansion of [getC] and
    [getArg] agree at the mass differences of [getMfast]: what the check in
    the loop over layers compares. *)
Lemma amplitude_expansion_eq
  Umat dm type0 g0 (nutype : NeutrinoType) (Enu rho Len : R) p0 (i j : nat) :
  let g := configured Umat dm type0 g0 in
  physics.get_transition_matrix K g nutype Enu rho Len 0 p0 i j
  = physics.recombine
      (fst (physics.get_transition_matrix_expansion K g nutype Enu rho Len 0 p0))
      (snd (physics.get_transition_matrix_expansion K g nutype Enu rho Len 0 p0))
      i j.
Proof.
  intros g.
  unfold physics.get_transition_matrix, physics.get_transition_matrix_expansion.
  destruct (physics.getMfast K g Enu rho nutype) as [dMat dVac]. simpl fst; simpl snd.
  symmetry. apply recombine_getC_getA.
Qed.

(** C1. For every neutrino type, energy, density and path length, and zero
    phase offset, the amplitude of [get_transition_matrix] is, entry by
    entry, the sum over [k] of [Cout[k]] times [exp(i Arg[k])] of the pair
    returned by [get_transition_matrix_expansion], as [calculate] recombines
    it. *)
Theorem get_transition_matrix_is_expansion_sum
  Umat dm type0 g0 (nutype : NeutrinoType) (Enu rho Len : R) p0 (i j : nat) :
  let g := configured Umat dm type0 g0 in
  physics.get_transition_matrix K g nutype Enu rho Len 0 p0 i j
  = physics.recombine
      (fst (physics.get_transition_matrix_expansion K g nutype Enu rho Len 0 p0))
      (snd (physics.get_transition_matrix_expansion K g nutype Enu rho Len 0 p0))
      i j.
Proof.
  intros g.
  unfold physics.get_transition_matrix, physics.get_transition_matrix_expansion.
  destruct (physics.getMfast K g Enu rho nutype) as [dMat dVac].
  cbn [fst snd]. symmetry. apply recombine_getC_getA.
Qed.

Lemma Rabs_self_minus x : fabs (x - x) = 0.
Proof. unfold fabs. replace (x - x) with 0 by ring. apply Rabs_R0. Qed.

Lemma amplitudes_differ_refl T A :
  (forall i j, T i j = A i j) -> physics.amplitudes_differ T A = false.
Proof.
  intros H. unfold physics.amplitudes_differ.
  assert (D : forall i j,
             fltb 1e-9 (fabs (re (T i j) - re (A i j))) ||
             fltb 1e-9 (fabs (im (T i j) - im (A i j))) = false).
  { intros i j. rewrite H, !Rabs_self_minus.
    assert (F : fltb 1e-9 0 = false) by (apply fltb_false; lra).
    rewrite F. reflexivity. }
  rewrite !D. reflexivity.
Qed.

(** The inline comparison of [calculate] never ends the run. *)
Lemma layer_check_passes Umat dm type0 g0 nutype Enu rho Len p0 :
  let g := configured Umat dm type0 g0 in
  physics.amplitudes_differ
    (physics.recombine
       (fst (physics.get_transition_matrix_expansion K g nutype Enu rho Len 0 p0))
       (snd (physics.get_transition_matrix_expansion K g nutype Enu rho Len 0 p0)))
    (physics.get_transition_matrix K g nutype Enu rho Len 0 p0) = false.
Proof.
  intros g. apply amplitudes_differ_refl. intros i j. symmetry.
  apply amplitude_expansion_eq.
Qed.

End Expansion.

(** ** The loop over layers *)

Section Layers.
Context (K : Constants).

Local Abbreviation configured Umat dm type g0 :=
  (physics.prepare_getMfast type (physics.set_parameters Umat dm g0)).

(** A layer below the capacity of the local arrays is computed, and the
    arrays keep their length. *)
Lemma layer_step_done Umat dm type0 g0 type energy radii rhos MaxLayer
  PathLength TotalEarthLength cosine_zenith p0 (iLayer : nat) st :
  (Z.of_nat iLayer < physics.nMaxLayers)%Z ->
  exists st',
    physics.layer_step K (configured Umat dm type0 g0) type energy radii rhos MaxLayer
      PathLength TotalEarthLength cosine_zenith p0 iLayer st = Done st'
    /\ length (physics.ExpansionMatrix st') = length (physics.ExpansionMatrix st)
    /\ length (physics.arg st') = length (physics.arg st).
Proof.
  intros Hlt. unfold physics.layer_step.
  pose proof (layer_check_passes K Umat dm type0 g0 type energy
                (physics.getDensityOfLayer rhos (Z.of_nat iLayer) MaxLayer)
                (physics.getTraversedDistanceOfLayer K radii (Z.of_nat iLayer) MaxLayer
                   PathLength TotalEarthLength cosine_zenith / km2cm K) p0) as Hchk.
  cbv zeta in Hchk. unfold physics.phaseOffset.
  destruct (physics.get_transition_matrix_expansion K _ type energy _ _ 0 p0)
    as [Cout Arg] eqn:E.
  simpl fst in Hchk; simpl snd in Hchk.
  assert (Hb : (Z.of_nat iLayer <? physics.nMaxLayers)%Z = true)
    by (apply Z.ltb_lt; exact Hlt).
  rewrite Hb. cbn [negb]. rewrite Hchk.
  destruct (Nat.eqb iLayer 0); [|destruct (Z.of_nat iLayer <? MaxLayer)%Z];
    eexists; (split; [reflexivity|]); cbn; rewrite !length_insert; split; reflexivity.
Qed.

(** A layer at or beyond the capacity writes outside of [ExpansionMatrix]
    and [arg]. *)
Lemma layer_step_out_of_bounds g type energy radii rhos MaxLayer
  PathLength TotalEarthLength cosine_zenith p0 (iLayer : nat) st :
  (physics.nMaxLayers <= Z.of_nat iLayer)%Z ->
  physics.layer_step K g type energy radii rhos MaxLayer
    PathLength TotalEarthLength cosine_zenith p0 iLayer st = Undefined.
Proof.
  intros Hge. unfold physics.layer_step.
  destruct (physics.get_transition_matrix_expansion K g type energy _ _ _ p0)
    as [Cout Arg].
  assert (Hb : (Z.of_nat iLayer <? physics.nMaxLayers)%Z = false)
    by (apply Z.ltb_ge; exact Hge).
  rewrite Hb. reflexivity.
Qed.

(** The first [n] layers, [n] at most the capacity, are all computed. *)
Lemma layers_done Umat dm type0 g0 type energy radii rhos MaxLayer
  PathLength TotalEarthLength cosine_zenith p0 (n : nat) :
  (Z.of_nat n <= physics.nMaxLayers)%Z ->
  exists st,
    for_range_o 0 n
      (physics.layer_step K (configured Umat dm type0 g0) type energy radii rhos MaxLayer
         PathLength TotalEarthLength cosine_zenith p0)
      physics.layer_state0 = Done st
    /\ length (physics.ExpansionMatrix st) = Z.to_nat physics.nMaxLayers.
Proof.
  intros Hn.
  destruct (for_range_o_inv
              (fun _ st => length (physics.ExpansionMatrix st) = Z.to_nat physics.nMaxLayers)
              (physics.layer_step K (configured Umat dm type0 g0) type energy radii rhos
                 MaxLayer PathLength TotalEarthLength cosine_zenith p0)
              n 0 physics.layer_state0) as (st & Hst & Hlen).
  - reflexivity.
  - intros i x Hi Hx.
    destruct (layer_step_done Umat dm type0 g0 type energy radii rhos MaxLayer
                PathLength TotalEarthLength cosine_zenith p0 i x) as (x' & Hx' & Hl & _).
    { lia. }
    exists x'. split; [exact Hx'|]. rewrite Hl. exact Hx.
  - exists st. split; [exact Hst|exact Hlen].
Qed.

(** A bin whose number of crossed layers is within the capacity of the
    local arrays is computed. *)
Lemma calculate_bin_done Umat dm type0 g0 type cosinelist n_cosines energylist
  n_energies radii rhos MaxLayer height prob edges p0 index_cosine index_energy :
  (0 <= MaxLayer < physics.nMaxLayers)%Z ->
  (20 <= NPRODHEIGHTBINS K)%Z ->
  exists b,
    physics.calculate_bin K (configured Umat dm type0 g0) type cosinelist n_cosines
      energylist n_energies radii rhos MaxLayer height prob edges p0
      index_cosine index_energy = Done b.
Proof.
  intros HM HN. unfold physics.calculate_bin.
  destruct (layers_done Umat dm type0 g0 type (energylist index_energy) radii rhos MaxLayer
              (physics.path_length K height (cosinelist index_cosine))
              (-2 * cosinelist index_cosine * REarthcm K) (cosinelist index_cosine) p0
              (Z.to_nat (MaxLayer + 1))) as (st & Hst & Hlen).
  { lia. }
  rewrite Hst. cbn [bind].
  assert (H1 : (MaxLayer <? 0)%Z = false) by (apply Z.ltb_ge; lia).
  assert (H2 : (NPRODHEIGHTBINS K <? 20)%Z = false) by (apply Z.ltb_ge; lia).
  rewrite H1, H2.
  destruct (physics.ExpansionMatrix st !! 0%nat) as [E0|] eqn:E.
  - eexists. reflexivity.
  - apply lookup_ge_None in E. rewrite Hlen in E. unfold physics.nMaxLayers in E. simpl in E. lia.
Qed.

(** A bin that crosses exactly [nMaxLayers] layers visits layer number
    [nMaxLayers], whose slot does not exist. *)
Lemma calculate_bin_capacity Umat dm type0 g0 type cosinelist n_cosines energylist
  n_energies radii rhos height prob edges p0 index_cosine index_energy :
  physics.calculate_bin K (configured Umat dm type0 g0) type cosinelist n_cosines
    energylist n_energies radii rhos physics.nMaxLayers height prob edges p0
    index_cosine index_energy = Undefined.
Proof.
  unfold physics.calculate_bin.
  destruct (layers_done Umat dm type0 g0 type (energylist index_energy) radii rhos
              physics.nMaxLayers
              (physics.path_length K height (cosinelist index_cosine))
              (-2 * cosinelist index_cosine * REarthcm K) (cosinelist index_cosine) p0
              8%nat) as (st & Hst & _).
  { unfold physics.nMaxLayers. lia. }
  erewrite (for_range_o_stops _ (Z.to_nat (physics.nMaxLayers + 1)) 0 8
              physics.layer_state0 st Undefined).
  - reflexivity.
  - unfold physics.nMaxLayers. simpl. lia.
  - exact Hst.
  - apply layer_step_out_of_bounds. unfold physics.nMaxLayers. simpl. lia.
  - intros y. discriminate.
Qed.

End Layers.

(** ** The result buffer *)

Lemma u64_small z : (0 <= z < 2 ^ 64)%Z -> u64 z = z.
Proof. intros H. unfold u64. apply Z.mod_small. exact H. Qed.

Lemma store_done (v : list R) (i : Z) (x : R) :
  (0 <= i < Z.of_nat (length v))%Z ->
  store v i x = Done (<[Z.to_nat i := x]> v).
Proof.
  intros H. unfold store.
  assert (H1 : (0 <=? i)%Z = true) by (apply Z.leb_le; lia).
  assert (H2 : (i <? Z.of_nat (length v))%Z = true) by (apply Z.ltb_lt; lia).
  rewrite H1, H2. reflexivity.
Qed.

(** The offset of a bin in the buffer does not wrap when the buffer fits in
    the 64-bit index space. *)
Lemma resultIndex_small n_energies index_cosine index_energy :
  (0 <= index_cosine)%Z -> (0 <= index_energy < n_energies)%Z ->
  ((index_cosine * n_energies + index_energy) * 9 + 9 <= 2 ^ 64)%Z ->
  physics.resultIndex n_energies index_cosine index_energy
  = (index_cosine * n_energies * 9 + index_energy * 9)%Z.
Proof.
  intros Hc He Hb. unfold physics.resultIndex.
  assert (H9 : u64 9 = 9%Z) by reflexivity. rewrite H9.
  assert (Hie : u64 index_energy = index_energy) by (apply u64_small; nia).
  rewrite Hie.
  assert (Hie9 : u64 (index_energy * 9) = (index_energy * 9)%Z) by (apply u64_small; nia).
  rewrite Hie9.
  destruct (Z.eq_dec index_cosine 0%Z) as [-> | Hnz].
  - assert (H0 : u64 0%Z = 0%Z) by reflexivity.
    rewrite H0. rewrite (Z.mul_0_l (u64 n_energies)). rewrite H0.
    rewrite !Z.mul_0_l. rewrite H0. rewrite Z.add_0_l. apply u64_small. nia.
  - assert (Hic : u64 index_cosine = index_cosine) by (apply u64_small; nia).
    assert (Hne : u64 n_energies = n_energies) by (apply u64_small; nia).
    rewrite Hic, Hne.
    assert (H1 : u64 (index_cosine * n_energies) = (index_cosine * n_energies)%Z)
      by (apply u64_small; nia).
    rewrite H1.
    assert (H2 : u64 (index_cosine * n_energies * 9) = (index_cosine * n_energies * 9)%Z)
      by (apply u64_small; nia).
    rewrite H2. apply u64_small. nia.
Qed.

(** The nine entries of a bin land at its offset, flavour before times three
    plus flavour after, and nothing else changes. *)
Lemma fill_result_spec n_energies index_cosine index_energy Prob (result : list R) :
  (0 <= index_cosine)%Z -> (0 <= index_energy < n_energies)%Z ->
  ((index_cosine * n_energies + index_energy) * 9 + 9 <= Z.of_nat (length result))%Z ->
  (Z.of_nat (length result) < 2 ^ 64)%Z ->
  exists result',
    physics.fill_result n_energies index_cosine index_energy Prob result = Done result'
    /\ length result' = length result
    /\ (forall before after : nat, (before < 3)%nat -> (after < 3)%nat ->
          result' !! Z.to_nat (index_cosine * n_energies * 9 + index_energy * 9
                               + (Z.of_nat before * 3 + Z.of_nat after))
          = Some (Prob after before))
    /\ (forall k : nat,
          (Z.of_nat k < (index_cosine * n_energies + index_energy) * 9 \/
           (index_cosine * n_energies + index_energy) * 9 + 9 <= Z.of_nat k)%Z ->
          result' !! k = result !! k).
Proof.
  intros Hc He Hlen H64.
  unfold physics.fill_result.
  rewrite resultIndex_small by lia.
  set (r := (index_cosine * n_energies * 9 + index_energy * 9)%Z).
  assert (Hr : (0 <= r /\ r + 9 <= Z.of_nat (length result))%Z) by (unfold r; nia).
  assert (Hidx : forall i j : nat, (i < 3)%nat -> (j < 3)%nat ->
            u64 (r + u64 (Z.of_nat i * 3 + Z.of_nat j))
            = (r + (Z.of_nat i * 3 + Z.of_nat j))%Z).
  { intros i j Hi Hj. rewrite (u64_small (Z.of_nat i * 3 + Z.of_nat j)) by lia.
    apply u64_small. lia. }
  cbn [for_range_o bind].
  repeat (rewrite Hidx by lia;
          rewrite store_done by (rewrite ?length_insert; lia); cbn [bind]).
  eexists. split; [reflexivity|].
  split; [rewrite !length_insert; reflexivity|].
  split.
  - intros before after Hb Ha.
    assert (Hcases : (before = 0 \/ before = 1 \/ before = 2)%nat) by lia.
    assert (Hcases' : (after = 0 \/ after = 1 \/ after = 2)%nat) by lia.
    destruct Hcases as [-> | [-> | ->]]; destruct Hcases' as [-> | [-> | ->]];
      repeat (rewrite list_lookup_insert_ne by lia);
      (rewrite list_lookup_insert_eq by (rewrite ?length_insert; lia));
      reflexivity.
  - intros k Hk. unfold r.
    repeat (rewrite list_lookup_insert_ne by lia). reflexivity.
Qed.

(** ** The loops over cosines and energies *)

Lemma flat_index_inj (a b c d n : Z) :
  (0 <= b < n)%Z -> (0 <= d < n)%Z -> (a * n + b = c * n + d)%Z ->
  a = c /\ b = d.
Proof.
  intros Hb Hd H.
  destruct (Z.lt_trichotomy a c) as [Hlt | [Heq | Hgt]].
  - assert ((a + 1) * n <= c * n)%Z by (apply Z.mul_le_mono_nonneg_r; lia). lia.
  - subst. split; lia.
  - assert ((c + 1) * n <= a * n)%Z by (apply Z.mul_le_mono_nonneg_r; lia). lia.
Qed.

Section Run.
Context (K : Constants).
Context (Umat : nat -> nat -> ComplexNumber) (dm : nat -> nat -> R)
        (g0 : physics.Globals) (type : NeutrinoType)
        (cosinelist : Z -> R) (n_cosines : Z) (energylist : Z -> R) (n_energies : Z)
        (radii rhos : Z -> R) (maxlayers : Z -> Z) (height : R)
        (prob edges : Z -> R) (p0 : nat -> nat -> nat -> ComplexNumber).

(** The globals and the bin computation of this run. *)
Local Abbreviation g' :=
  (physics.prepare_getMfast type (physics.set_parameters Umat dm g0)).
Local Abbreviation bin ic ie :=
  (physics.calculate_bin K g' type cosinelist n_cosines energylist n_energies
     radii rhos (maxlayers (Z.of_nat ic)) height prob edges p0
     (Z.of_nat ic) (Z.of_nat ie)).

(** Every bin numbered below [n], counting cosine-major, has its nine
    probabilities in the buffer. *)
Local Abbreviation filled_below n result :=
  (forall (ic ie : nat) (b : physics.Bin) (before after : nat),
    (Z.of_nat ie < n_energies)%Z ->
    (Z.of_nat ic * n_energies + Z.of_nat ie < n)%Z ->
    bin ic ie = Done b ->
    (before < 3)%nat -> (after < 3)%nat ->
    (result : list R) !! Z.to_nat (Z.of_nat ic * n_energies * 9 + Z.of_nat ie * 9
                        + (Z.of_nat before * 3 + Z.of_nat after))
    = Some (physics.bin_Prob b after before)).

Hypothesis n_cosines_nonneg : (0 <= n_cosines)%Z.
Hypothesis n_energies_nonneg : (0 <= n_energies)%Z.
Hypothesis bins_fit : (n_cosines * n_energies * 9 < 2 ^ 64)%Z.
Hypothesis production_bins : (20 <= NPRODHEIGHTBINS K)%Z.

Lemma calculate_cosine_spec (index_cosine : nat) (result : list R) :
  (Z.of_nat index_cosine < n_cosines)%Z ->
  (0 <= maxlayers (Z.of_nat index_cosine) < physics.nMaxLayers)%Z ->
  Z.of_nat (length result) = (n_cosines * n_energies * 9)%Z ->
  filled_below (Z.of_nat index_cosine * n_energies) result ->
  exists result',
    physics.calculate_cosine K g' type cosinelist n_cosines energylist n_energies
      radii rhos maxlayers height prob edges p0 index_cosine result = Done result'
    /\ length result' = length result
    /\ filled_below (Z.of_nat (S index_cosine) * n_energies) result'.
Proof.
  intros Hic HM Hlen Hfilled.
  unfold physics.calculate_cosine.
  assert (Hgt : (maxlayers (Z.of_nat index_cosine) >? physics.nMaxLayers)%Z = false).
  { rewrite Z.gtb_ltb. apply Z.ltb_ge. lia. }
  rewrite Hgt.
  destruct (for_range_o_inv
    (fun ie res => length res = length result /\
                   filled_below (Z.of_nat index_cosine * n_energies + Z.of_nat ie) res)
    (fun index_energy result0 =>
       bind (bin index_cosine index_energy)
         (fun b => physics.fill_result n_energies (Z.of_nat index_cosine)
                     (Z.of_nat index_energy) (physics.bin_Prob b) result0))
    (Z.to_nat n_energies) 0 result) as (res' & Hres & Hl & Hf).
  - split; [reflexivity|]. rewrite Z.add_0_r. exact Hfilled.
  - intros ie res Hie [Hl Hf].
    destruct (calculate_bin_done K Umat dm type g0 type cosinelist n_cosines energylist
                n_energies radii rhos (maxlayers (Z.of_nat index_cosine)) height prob edges
                p0 (Z.of_nat index_cosine) (Z.of_nat ie)) as (b & Hb); [lia|exact production_bins|].
    rewrite Hb. cbn [bind].
    destruct (fill_result_spec n_energies (Z.of_nat index_cosine) (Z.of_nat ie)
                (physics.bin_Prob b) res) as (res1 & Hfill & Hl1 & Hnew & Hold).
    { lia. } { lia. } { rewrite Hl. nia. } { rewrite Hl. lia. }
    exists res1. split; [exact Hfill|]. split; [lia|].
    intros ic' ie' b' before after Hie' Hflat Hb' Hbe Haf.
    destruct (Z.eq_dec (Z.of_nat ic' * n_energies + Z.of_nat ie')%Z
                       (Z.of_nat index_cosine * n_energies + Z.of_nat ie)%Z) as [Heq|Hne].
    + assert (Hsame : ic' = index_cosine /\ ie' = ie).
      { destruct (flat_index_inj (Z.of_nat ic') (Z.of_nat ie') (Z.of_nat index_cosine)
                    (Z.of_nat ie) n_energies); [lia|lia|exact Heq|]. split; lia. }
      destruct Hsame as [-> ->]. rewrite Hb in Hb'. inversion Hb'; subst b'.
      apply Hnew; assumption.
    + rewrite Hold by (left; rewrite Z2Nat.id by nia; nia).
      apply Hf; try assumption. lia.
  - exists res'. split; [exact Hres|]. split; [exact Hl|].
    intros ic' ie' b' before after Hie' Hflat Hb' Hbe Haf.
    apply Hf; try assumption. simpl in Hflat |- *. rewrite Z2Nat.id by lia. lia.
Qed.

(** The first [k] cosine bins, each crossing fewer than [nMaxLayers] layers,
    are all computed and written. *)
Lemma calculate_prefix (k : nat) (result : list R) :
  (Z.of_nat k <= n_cosines)%Z ->
  (forall ic : Z, (0 <= ic < Z.of_nat k)%Z ->
                  (0 <= maxlayers ic < physics.nMaxLayers)%Z) ->
  Z.of_nat (length result) = (n_cosines * n_energies * 9)%Z ->
  exists result',
    for_range_o 0 k
      (physics.calculate_cosine K g' type cosinelist n_cosines energylist n_energies
         radii rhos maxlayers height prob edges p0) result
    = Done result'
    /\ length result' = length result
    /\ filled_below (Z.of_nat k * n_energies) result'.
Proof.
  intros Hk HM Hlen.
  destruct (for_range_o_inv
    (fun ic res => length res = length result /\
                   filled_below (Z.of_nat ic * n_energies) res)
    (physics.calculate_cosine K g' type cosinelist n_cosines energylist n_energies
       radii rhos maxlayers height prob edges p0)
    k 0 result) as (res' & Hres & Hl & Hf).
  - split; [reflexivity|]. intros ic ie b before after Hie Hflat. simpl in Hflat. lia.
  - intros ic res Hic [Hl Hf].
    destruct (calculate_cosine_spec ic res) as (res1 & H1 & H2 & H3);
      [lia|apply HM; lia|rewrite Hl; exact Hlen|exact Hf|].
    exists res1. split; [exact H1|]. split; [lia|exact H3].
  - exists res'. split; [exact Hres|]. split; [exact Hl|]. exact Hf.
Qed.



(** The first cosine bin that crosses exactly [nMaxLayers] layers passes the
    guard and then writes outside of the local arrays. *)
Lemma calculate_at_capacity (k : nat) (result : list R) :
  (Z.of_nat k < n_cosines)%Z ->
  (0 < n_energies)%Z ->
  (forall ic : Z, (0 <= ic < Z.of_nat k)%Z ->
                  (0 <= maxlayers ic < physics.nMaxLayers)%Z) ->
  maxlayers (Z.of_nat k) = physics.nMaxLayers ->
  Z.of_nat (length result) = (n_cosines * n_energies * 9)%Z ->
  physics.calculate K (physics.set_parameters Umat dm g0) type cosinelist n_cosines
    energylist n_energies radii rhos maxlayers height prob edges p0 result
  = Undefined.
Proof.
  intros Hk Hne HM Hcap Hlen. unfold physics.calculate.
  destruct (calculate_prefix k result) as (res' & Hres & _); [lia|exact HM|exact Hlen|].
  eapply (for_range_o_stops _ (Z.to_nat n_cosines) 0 k result res' Undefined);
    [lia|exact Hres| |intros y; discriminate].
  simpl. unfold physics.calculate_cosine. rewrite Hcap.
  assert (Hgt : (physics.nMaxLayers >? physics.nMaxLayers)%Z = false) by reflexivity.
  rewrite Hgt.
  destruct (Z.to_nat n_energies) as [|n] eqn:En; [lia|].
  cbn [for_range_o]. rewrite calculate_bin_capacity. reflexivity.
Qed.

End Run.

(** ** Reading the result buffer *)

Section CpuResults.
Context {ProbType : Type} (ProbType_int : ProbType -> Z).

Local Abbreviation n_c p := (propagator.n_cosines (cpupropagator.base p)).
Local Abbreviation n_e p := (propagator.n_energies (cpupropagator.base p)).

(** For a bin of the grid, [getProbability] is the unchecked read at the
    offset of the bin plus the integer value of the probability type. *)
Lemma getProbability_unfold (p : cpupropagator.CpuPropagator) (ic ie : Z) (t : ProbType) :
  (ic < n_c p)%Z -> (ie < n_e p)%Z ->
  cpupropagator.getProbability ProbType_int p ic ie t
  = cpupropagator.load (cpupropagator.resultList p)
      (u64 (physics.resultIndex (n_e p) ic ie + u64 (ProbType_int t))).
Proof.
  intros Hc He. unfold cpupropagator.getProbability, physics.resultIndex.
  assert (H1 : (ic >=? n_c p)%Z = false) by (rewrite Z.geb_leb; apply Z.leb_gt; lia).
  assert (H2 : (ie >=? n_e p)%Z = false) by (rewrite Z.geb_leb; apply Z.leb_gt; lia).
  rewrite H1, H2. reflexivity.
Qed.

Lemma load_lookup (v : list R) (i : Z) :
  (0 <= i < Z.of_nat (length v))%Z ->
  exists x, cpupropagator.load v i = Done x /\ v !! Z.to_nat i = Some x.
Proof.
  intros H. unfold cpupropagator.load.
  assert (H1 : (i <? 0)%Z = false) by (apply Z.ltb_ge; lia). rewrite H1.
  destruct (v !! Z.to_nat i) as [x|] eqn:E.
  - exists x. split; reflexivity.
  - apply lookup_ge_None in E. lia.
Qed.

Lemma getProbability_in_range (p : cpupropagator.CpuPropagator) (ic ie : Z) (t : ProbType) :
  (0 <= ic < n_c p)%Z -> (0 <= ie < n_e p)%Z ->
  (0 <= ProbType_int t < 9)%Z ->
  Z.of_nat (length (cpupropagator.resultList p)) = (n_c p * n_e p * 9)%Z ->
  (n_c p * n_e p * 9 < 2 ^ 64)%Z ->
  exists x,
    cpupropagator.getProbability ProbType_int p ic ie t = Done x
    /\ cpupropagator.resultList p !! Z.to_nat (ic * n_e p * 9 + ie * 9 + ProbType_int t)
       = Some x.
Proof.
  intros Hc He Ht Hlen H64.
  rewrite getProbability_unfold by lia.
  assert (Hbins : ((ic * n_e p + ie) * 9 + 9 <= n_c p * n_e p * 9)%Z).
  { assert ((ic + 1) * n_e p <= n_c p * n_e p)%Z
      by (apply Z.mul_le_mono_nonneg_r; lia). lia. }
  assert (Hnn : (0 <= ic * n_e p)%Z) by (apply Z.mul_nonneg_nonneg; lia).
  rewrite resultIndex_small by lia.
  rewrite (u64_small (ProbType_int t)) by lia.
  rewrite u64_small by lia.
  apply load_lookup. lia.
Qed.

(** C10. For every probability type, [getProbabilityArr] fills the output
    with the cosine index running fastest: the entry at
    [index_energy * n_cosines + index_cosine] is the value of
    [getProbability(index_cosine, index_energy, t)], for every pair of
    indices of the grid; the buffer itself is laid out with the energy
    index running faster. *)
Theorem getProbabilityArr_energy_major
  (p : cpupropagator.CpuPropagator) (probArr : Z -> R) (t : ProbType) :
  (0 <= n_c p < 2 ^ 31)%Z -> (0 <= n_e p < 2 ^ 31)%Z ->
  (n_c p * n_e p * 9 < 2 ^ 64)%Z ->
  Z.of_nat (length (cpupropagator.resultList p)) = (n_c p * n_e p * 9)%Z ->
  (0 <= ProbType_int t < 9)%Z ->
  exists out,
    cpupropagator.getProbabilityArr ProbType_int p probArr t = Done out
    /\ forall index_cosine index_energy : Z,
         (0 <= index_cosine < n_c p)%Z -> (0 <= index_energy < n_e p)%Z ->
         cpupropagator.getProbability ProbType_int p index_cosine index_energy t
         = Done (out (index_energy * n_c p + index_cosine)%Z)
         /\ cpupropagator.resultList p
              !! Z.to_nat (index_cosine * n_e p * 9 + index_energy * 9 + ProbType_int t)
            = Some (out (index_energy * n_c p + index_cosine)%Z).
Proof.
  intros Hnc Hne H64 Hlen Ht.
  unfold cpupropagator.getProbabilityArr.
  rewrite (u64_small (n_e p)) by lia. rewrite (u64_small (n_c p)) by lia.
  set (Q := fun (m : Z) (st : Z * (Z -> R)) =>
              fst st = m /\
              forall ic ie : Z,
                (0 <= ic < n_c p)%Z -> (0 <= ie < n_e p)%Z ->
                (ie * n_c p + ic < m)%Z ->
                cpupropagator.getProbability ProbType_int p ic ie t
                = Done (snd st (ie * n_c p + ic)%Z)
                /\ cpupropagator.resultList p
                     !! Z.to_nat (ic * n_e p * 9 + ie * 9 + ProbType_int t)
                   = Some (snd st (ie * n_c p + ic)%Z)).
  match goal with
  | |- exists out, bind (for_range_o 0 ?n ?body ?a) _ = _ /\ _ =>
      destruct (for_range_o_inv (fun ie st => Q (Z.of_nat ie * n_c p)%Z st) body n 0 a)
        as (st & Hst & HQ)
  end.
  - split; [reflexivity|]. intros ic ie Hic Hie Hlt. simpl in Hlt. lia.
  - intros ie st Hie HQst.
    match goal with
    | |- exists x', for_range_o 0 ?n ?body ?a = _ /\ _ =>
        destruct (for_range_o_inv
                    (fun ic st => Q (Z.of_nat ie * n_c p + Z.of_nat ic)%Z st) body n 0 a)
          as (st' & Hst' & HQ')
    end.
    + rewrite Z.add_0_r. exact HQst.
    + intros ic [iter arr] Hic [Hiter HQs]. simpl in Hiter. subst iter.
      destruct (getProbability_in_range p (Z.of_nat ic) (Z.of_nat ie) t)
        as (x & Hx & Hlk); try lia.
      rewrite getProbability_unfold in Hx by lia.
      unfold physics.resultIndex in Hx. rewrite (u64_small (n_e p)) in Hx by lia.
      rewrite Hx. cbn [bind].
      eexists. split; [reflexivity|].
      assert (Hflat : (Z.of_nat ie * n_c p + Z.of_nat ic + 1 <= n_e p * n_c p)%Z).
      { assert ((Z.of_nat ie + 1) * n_c p <= n_e p * n_c p)%Z
          by (apply Z.mul_le_mono_nonneg_r; lia). lia. }
      split.
      * simpl. rewrite u64_small by nia. lia.
      * intros ic' ie' Hic' Hie' Hlt. cbn [snd].
        destruct (Z.eqb_spec (ie' * n_c p + ic') (Z.of_nat ie * n_c p + Z.of_nat ic)) as [Heq|Hneq].
        -- destruct (flat_index_inj ie' ic' (Z.of_nat ie) (Z.of_nat ic) (n_c p));
             [lia|lia|exact Heq|]. subst ie' ic'.
           split; [|exact Hlk].
           rewrite getProbability_unfold by lia. unfold physics.resultIndex.
           rewrite (u64_small (n_e p)) by lia. exact Hx.
        -- apply HQs; try assumption. lia.
    + exists st'. split; [exact Hst'|].
      destruct HQ' as [Hi HQ']. split.
      * rewrite Hi. simpl. rewrite Z2Nat.id by lia. lia.
      * intros ic' ie' Hic' Hie' Hlt. apply HQ'; try assumption.
        simpl. rewrite Z2Nat.id by lia. lia.
  - rewrite Hst. cbn [bind]. exists (snd st). split; [reflexivity|].
    intros ic ie Hic Hie. destruct HQ as [_ HQ]. apply HQ; try assumption.
    simpl. rewrite Z2Nat.id by lia.
    assert ((ie + 1) * n_c p <= n_e p * n_c p)%Z
      by (apply Z.mul_le_mono_nonneg_r; lia). lia.
Qed.

End CpuResults.

(** ** The layout of the result of the host run *)


(** ** The capacity of the local arrays of [calculate] *)

(** C5, where the run misses it: a cosine bin that crosses exactly
    [nMaxLayers = 8] layers is within the limit of the guard
    ([MaxLayer > nMaxLayers] is false), yet the loop over layers then visits
    the layers 0 to 8 and writes [ExpansionMatrix[8]] and [arg[8]], which lie
    outside of the arrays of [nMaxLayers] slots: the bin is not computed. *)
Theorem calculate_capacity_bin_out_of_bounds
  (K : Constants) Umat dm g0 type cosinelist n_cosines energylist n_energies
  radii rhos maxlayers height prob edges p0 (result : list R) (k : nat) :
  (0 <= n_cosines)%Z -> (0 < n_energies)%Z ->
  (n_cosines * n_energies * 9 < 2 ^ 64)%Z ->
  (20 <= NPRODHEIGHTBINS K)%Z ->
  Z.of_nat (length result) = (n_cosines * n_energies * 9)%Z ->
  (Z.of_nat k < n_cosines)%Z ->
  (forall ic : Z, (0 <= ic < Z.of_nat k)%Z ->
                  (0 <= maxlayers ic < physics.nMaxLayers)%Z) ->
  maxlayers (Z.of_nat k) = 8%Z ->
  physics.calculate K (physics.set_parameters Umat dm g0) type cosinelist n_cosines
    energylist n_energies radii rhos maxlayers height prob edges p0 result
  = Undefined.
Proof.
  intros Hnc Hne H64 HN Hlen Hk HM Hcap.
  apply (calculate_at_capacity K Umat dm g0 type cosinelist n_cosines energylist
           n_energies radii rhos maxlayers height prob edges p0 Hnc ltac:(lia) H64 HN k);
    assumption.
Qed.


(** ** setDensity : the order of the radii *)

Lemma order_messed_up_false_ascending prev rest :
  propagator.order_messed_up 1 prev rest = false -> ascending (prev :: rest).
Proof.
  revert prev. induction rest as [|x rest IH]; intros prev H.
  - repeat constructor.
  - simpl in H. destruct (fltb ((x - prev) * 1) 0) eqn:E; [discriminate|].
    apply fltb_false in E. constructor; [apply IH; exact H|].
    constructor. lra.
Qed.

Lemma order_messed_up_false_descending prev rest :
  propagator.order_messed_up (-1) prev rest = false -> descending (prev :: rest).
Proof.
  revert prev. induction rest as [|x rest IH]; intros prev H.
  - repeat constructor.
  - simpl in H. destruct (fltb ((x - prev) * -1) 0) eqn:E; [discriminate|].
    apply fltb_false in E. constructor; [apply IH; exact H|].
    constructor. unfold flip. lra.
Qed.




Ltac simpl_fields :=
  cbn [propagator.radii propagator.rhos propagator.yps propagator.coslimit
       propagator.set_coslimit propagator.set_yps propagator.set_rhos
       propagator.set_radii propagator.set_UsePolyDensity] in *.

(** The order check of [setDensity]: what it lets through is monotonic, and
    the flip is decided by the first step. *)
Lemma setDensity_check radii_ :
  match radii_ with
  | r0 :: r1 :: rest =>
      let sign := if fltb 0 (r1 - r0) then 1%Z else (-1)%Z in
      if propagator.order_messed_up sign r0 (r1 :: rest)
      then True
      else (sign =? 1)%Z = first_step_ascends radii_
           /\ (first_step_ascends radii_ = true -> ascending radii_)
           /\ (first_step_ascends radii_ = false -> descending radii_)
  | _ => first_step_ascends radii_ = false /\ descending radii_
  end.
Proof.
  destruct radii_ as [|r0 [|r1 rest]].
  - split; [reflexivity|constructor].
  - split; [reflexivity|repeat constructor].
  - cbv zeta. unfold first_step_ascends.
    destruct (fltb 0 (r1 - r0)) eqn:Es.
    + destruct (propagator.order_messed_up 1 r0 (r1 :: rest)) eqn:Eo; [exact I|].
      split; [reflexivity|]. split; [|discriminate].
      intros _. apply order_messed_up_false_ascending. exact Eo.
    + destruct (propagator.order_messed_up (-1) r0 (r1 :: rest)) eqn:Eo; [exact I|].
      split; [reflexivity|]. split; [discriminate|].
      intros _. apply order_messed_up_false_descending. exact Eo.
Qed.



(** ** setNeutrinoMasses : the mass difference matrix *)

Lemma delta_pos : 0 < propagator.delta.
Proof. unfold propagator.delta. lra. Qed.

Lemma setNeutrinoMasses_DM dm12sq dm23sq p :
  let p' := propagator.setNeutrinoMasses dm12sq dm23sq p in
  let m := propagator.mVac dm12sq dm23sq in
  propagator.DM p' 0 0 = 0 /\ propagator.DM p' 1 1 = 0 /\ propagator.DM p' 2 2 = 0
  /\ propagator.DM p' 0 1 = m 0%nat - m 1%nat
  /\ propagator.DM p' 1 0 = - (m 0%nat - m 1%nat)
  /\ propagator.DM p' 0 2 = m 0%nat - m 2%nat
  /\ propagator.DM p' 2 0 = - (m 0%nat - m 2%nat)
  /\ propagator.DM p' 1 2 = m 1%nat - m 2%nat
  /\ propagator.DM p' 2 1 = - (m 1%nat - m 2%nat).
Proof. cbv zeta. repeat split; reflexivity. Qed.




(** ** The weighting tensor of the production heights *)

Lemma for_range_inv {A : Type} (P : nat -> A -> Prop)
  (body : nat -> A -> A) (n lo : nat) (a : A) :
  P lo a ->
  (forall i x, (lo <= i < lo + n)%nat -> P i x -> P (S i) (body i x)) ->
  P (lo + n)%nat (for_range lo n body a).
Proof.
  revert lo a. induction n as [|n IH]; intros lo a H0 Hstep; simpl.
  - replace (lo + 0)%nat with lo by lia. exact H0.
  - replace (lo + S n)%nat with (S lo + n)%nat by lia. apply IH.
    + apply Hstep; [lia|exact H0].
    + intros i x Hi. apply Hstep. lia.
Qed.

Section Tensor.
Context (K : Constants).
Context (type : NeutrinoType) (n_cosines n_energies index_cosine index_energy : Z)
        (prob : Z -> R) (lengths : nat -> R) (darg0 : nat -> R).

(** One turn of the loop over path lengths, for the pair [h] and [h + 1]. *)
Local Abbreviation weight iNuFlav h :=
  (prob (physics.ProbIndex K type n_cosines n_energies index_cosine index_energy
           iNuFlav h)).
Local Abbreviation factor h ieig0 jeig0 :=
  (physics.sinc_exp_factor darg0 (lengths h) (lengths (h + 1)%nat) ieig0 jeig0).

(** The accumulation seen from one entry of the tensor: every turn of the
    loop over path lengths adds the weight of the flavour times the factor of
    the pair of eigenstates to an entry off the diagonal, and leaves the
    diagonal alone. *)
Lemma accumulate_invariant
  (P : nat -> (nat -> nat -> nat -> ComplexNumber) -> Prop) T0 :
  P 0%nat T0 ->
  (forall h T, (h < 19)%nat -> P h T ->
     P (S h)
       (fun i j e =>
          if (i <? 3)%nat && (j <? 3)%nat && (e <? 3)%nat && negb (i =? j)%nat
          then mkComplex
                 (re (T i j e) + weight e h * re (factor h (Nat.max i j) (Nat.min i j)))
                 (im (T i j e) + weight e h * im (factor h (Nat.max i j) (Nat.min i j)))
          else T i j e)) ->
  (forall h T T', (forall i j e, T i j e = T' i j e) -> P h T -> P h T') ->
  P 19%nat
    (physics.accumulate_totalLenShiftFactor K type n_cosines n_energies
       index_cosine index_energy prob lengths darg0 T0).
Proof.
  intros H0 Hstep Hext. unfold physics.accumulate_totalLenShiftFactor.
  refine (for_range_inv P _ 19 0 T0 H0 _).
  intros h T Hh HP.
  eapply Hext; [|apply Hstep; [lia|exact HP]].
  intros i j e.
  destruct i as [|[|[|i]]]; destruct j as [|[|[|j]]]; destruct e as [|[|[|e]]];
    reflexivity.
Qed.

End Tensor.

Section BinTensor.
Context (K : Constants).
Context (Umat : nat -> nat -> ComplexNumber) (dm : nat -> nat -> R)
        (type0 : NeutrinoType) (g0 : physics.Globals) (type : NeutrinoType)
        (cosinelist : Z -> R) (n_cosines : Z) (energylist : Z -> R) (n_energies : Z)
        (radii rhos : Z -> R) (MaxLayer : Z) (height : R)
        (prob edges : Z -> R) (p0 : nat -> nat -> nat -> ComplexNumber)
        (index_cosine index_energy : Z).

Local Abbreviation g' :=
  (physics.prepare_getMfast type0 (physics.set_parameters Umat dm g0)).

(** The distance travelled in the atmosphere and the rate of change of the
    three phases along it, as the first layer leaves them. *)
Local Abbreviation distance0 :=
  (physics.getTraversedDistanceOfLayer K radii 0 MaxLayer
     (physics.path_length K height (cosinelist index_cosine))
     (-2 * cosinelist index_cosine * REarthcm K) (cosinelist index_cosine)).
Local Abbreviation darg0 :=
  (if feqb distance0 0 then fun _ : nat => 0
   else fun iNuFlav : nat =>
          snd (physics.get_transition_matrix_expansion K g' type
                 (energylist index_energy) (physics.getDensityOfLayer rhos 0 MaxLayer)
                 (distance0 / km2cm K) physics.phaseOffset p0) iNuFlav / distance0).




End BinTensor.




Lemma fgeb_true a b : fgeb a b = true <-> a >= b.
Proof. unfold fgeb. destruct (Rge_dec a b); split; intros; auto; discriminate. Qed.




(** ** A layer of length zero *)

(** The mixing matrix of [setMNSMatrix], entry by entry. *)
Lemma setMNSMatrix_U theta12 theta13 theta23 dCP p :
  let s12 := sin theta12 in let s13 := sin theta13 in let s23 := sin theta23 in
  let c12 := cos theta12 in let c13 := cos theta13 in let c23 := cos theta23 in
  let sd := sin dCP in let cd := cos dCP in
  let q := propagator.setMNSMatrix theta12 theta13 theta23 dCP p in
  propagator.U q 0 0 = mkComplex (c12 * c13) 0
  /\ propagator.U q 0 1 = mkComplex (s12 * c13) 0
  /\ propagator.U q 0 2 = mkComplex (s13 * cd) (- s13 * sd)
  /\ propagator.U q 1 0 = mkComplex (- s12 * c23 - c12 * s23 * s13 * cd) (- c12 * s23 * s13 * sd)
  /\ propagator.U q 1 1 = mkComplex (c12 * c23 - s12 * s23 * s13 * cd) (- s12 * s23 * s13 * sd)
  /\ propagator.U q 1 2 = mkComplex (s23 * c13) 0
  /\ propagator.U q 2 0 = mkComplex (s12 * s23 - c12 * c23 * s13 * cd) (- c12 * c23 * s13 * sd)
  /\ propagator.U q 2 1 = mkComplex (- c12 * s23 - s12 * c23 * s13 * cd) (- s12 * c23 * s13 * sd)
  /\ propagator.U q 2 2 = mkComplex (c23 * c13) 0.
Proof. cbv zeta. repeat split; reflexivity. Qed.

(** [setNeutrinoMasses] leaves the mixing matrix alone. *)
Lemma setNeutrinoMasses_U dm12sq dm23sq p i j :
  propagator.U (propagator.setNeutrinoMasses dm12sq dm23sq p) i j = propagator.U p i j.
Proof. reflexivity. Qed.

Lemma sin2_cos2' x : sin x * sin x + cos x * cos x = 1.
Proof. pose proof (sin2_cos2 x) as H. unfold Rsqr in H. exact H. Qed.

(** The mixing matrix of [setMNSMatrix] has orthonormal rows, for all
    angles. *)
Lemma setMNSMatrix_rows_orthonormal theta12 theta13 theta23 dCP p :
  rows_orthonormal
    (mixing_matrix (propagator.setMNSMatrix theta12 theta13 theta23 dCP p)).
Proof.
  destruct (setMNSMatrix_U theta12 theta13 theta23 dCP p)
    as (H00 & H01 & H02 & H10 & H11 & H12 & H20 & H21 & H22).
  pose proof (sin2_cos2' theta12) as E12. pose proof (sin2_cos2' theta13) as E13.
  pose proof (sin2_cos2' theta23) as E23. pose proof (sin2_cos2' dCP) as Ed.
  revert H00 H01 H02 H10 H11 H12 H20 H21 H22 E12 E13 E23 Ed.
  generalize (sin theta12) (cos theta12) (sin theta13) (cos theta13)
             (sin theta23) (cos theta23) (sin dCP) (cos dCP).
  intros s12 c12 s13 c13 s23 c23 sd cd H00 H01 H02 H10 H11 H12 H20 H21 H22 E12 E13 E23 Ed.
  intros n m Hn Hm. unfold mixing_matrix.
  assert (Hcn : (n = 0 \/ n = 1 \/ n = 2)%nat) by lia.
  assert (Hcm : (m = 0 \/ m = 1 \/ m = 2)%nat) by lia.
  destruct Hcn as [-> | [-> | ->]]; destruct Hcm as [-> | [-> | ->]];
    rewrite ?H00, ?H01, ?H02, ?H10, ?H11, ?H12, ?H20, ?H21, ?H22;
    cbn [re im Nat.eqb]; split; nsatz.
Qed.

Section ZeroLength.
Context (K : Constants).



(** The three products of [get_product] add up to the unit matrix when no
    divisor is zero: the interpolation identity behind Equation (11). *)
Lemma get_product_sum g Enu rho type i j :
  (i < 3)%nat -> (j < 3)%nat ->
  (forall k, (k < 3)%nat -> divisors K g Enu rho type k <> 0) ->
  let P := physics.get_product K g Enu rho
             (snd (physics.getMfast K g Enu rho type))
             (fst (physics.getMfast K g Enu rho type)) type in
  re (P i j 0%nat) + re (P i j 1%nat) + re (P i j 2%nat) = (if Nat.eqb i j then 1 else 0)
  /\ im (P i j 0%nat) + im (P i j 1%nat) + im (P i j 2%nat) = 0.
Proof.
  intros Hi Hj Hd P.
  pose proof (Hd 0%nat ltac:(lia)) as H0.
  pose proof (Hd 1%nat ltac:(lia)) as H1.
  pose proof (Hd 2%nat ltac:(lia)) as H2.
  unfold divisors, physics.product_divisor, physics.getMfast in H0, H1, H2.
  cbn [fst] in H0, H1, H2.
  subst P. unfold physics.get_product, physics.product_divisor, physics.product_factors,
    physics.twoEHmM, physics.getMfast, for3, czero.
  cbn [fst snd re im].
  revert H0 H1 H2.
  generalize (physics.getMfast_mMat K g Enu rho type 0) as m0.
  generalize (physics.getMfast_mMat K g Enu rho type 1) as m1.
  generalize (physics.getMfast_mMat K g Enu rho type 2) as m2.
  generalize (physics.matter_fac K type Enu rho) as fac.
  intros fac m2 m1 m0 H0 H1 H2.
  assert (D01 : m0 - m1 <> 0) by (intros E; apply H0; rewrite E; ring).
  assert (D02 : m0 - m2 <> 0) by (intros E; apply H0; rewrite E; ring).
  assert (D12 : m1 - m2 <> 0) by (intros E; apply H1; rewrite E; ring).
  assert (D10 : m1 - m0 <> 0) by lra.
  assert (D20 : m2 - m0 <> 0) by lra.
  assert (D21 : m2 - m1 <> 0) by lra.
  assert (Hci : (i = 0 \/ i = 1 \/ i = 2)%nat) by lia.
  assert (Hcj : (j = 0 \/ j = 1 \/ j = 2)%nat) by lia.
  destruct Hci as [-> | [-> | ->]]; destruct Hcj as [-> | [-> | ->]];
    cbn [Nat.eqb]; split; field; repeat split; assumption.
Qed.


End ZeroLength.


(** ** The cubic at zero density *)

Lemma fabs_le_1_not_gt x : -1 <= x <= 1 -> fltb 1 (fabs x) = false.
Proof.
  intros H. apply fltb_false. unfold fabs. intros Hlt.
  apply Rabs_le in H. lra.
Qed.

Lemma acos_m1 : acos (-1) = PI.
Proof. replace (-1) with (- (1)) by lra. rewrite acos_opp, acos_1. ring. Qed.

Lemma cos_PI3_minus : cos (PI / 3 - 2 * PI / 3) = 1 / 2.
Proof.
  replace (PI / 3 - 2 * PI / 3) with (- (PI / 3)) by field.
  rewrite cos_neg. apply cos_PI3.
Qed.


Lemma cos_PI6' : cos (PI / 2 / 3) = sqrt 3 / 2.
Proof. replace (PI / 2 / 3) with (PI / 6) by field. apply cos_PI6. Qed.

Lemma cos_PI6_minus : cos (PI / 2 / 3 - 2 * PI / 3) = 0.
Proof.
  replace (PI / 2 / 3 - 2 * PI / 3) with (- (PI / 2)) by field.
  rewrite cos_neg. apply cos_PI2.
Qed.

Lemma cos_PI6_plus : cos (PI / 2 / 3 + 2 * PI / 3) = - (sqrt 3 / 2).
Proof.
  replace (PI / 2 / 3 + 2 * PI / 3) with (- (PI / 6) + PI) by field.
  rewrite neg_cos, cos_neg, cos_PI6. reflexivity.
Qed.

Section Vacuum.
Context (K : Constants).

Lemma matter_fac_vacuum type Enu : physics.matter_fac K type Enu 0 = 0.
Proof. unfold physics.matter_fac. destruct (NeutrinoType_eqb type Antineutrino); ring. Qed.

(** At zero density [getMfast] solves the cubic that [prepare_getMfast]
    solves. *)
Lemma getMfast_mMatU_vacuum g Enu type k :
  0 <= physics.prepare_tmpV g ->
  physics.getMfast_mMatU K g Enu 0 type k = physics.prepare_mMatV g k.
Proof.
  intros Hpos.
  assert (Ha : physics.getMfast_alpha K g Enu 0 type = physics.DM g 0 1 + physics.DM g 0 2).
  { unfold physics.getMfast_alpha. rewrite matter_fac_vacuum. ring. }
  assert (Hb : physics.getMfast_beta K g Enu 0 type = physics.DM g 0 1 * physics.DM g 0 2).
  { unfold physics.getMfast_beta. rewrite matter_fac_vacuum. ring. }
  assert (Hg : physics.getMfast_gamma K g Enu 0 type = 0).
  { unfold physics.getMfast_gamma. rewrite matter_fac_vacuum. ring. }
  assert (Ht : physics.getMfast_tmp K g Enu 0 type = physics.prepare_tmpV g).
  { unfold physics.getMfast_tmp. rewrite Ha, Hb. cbv zeta.
    fold (physics.prepare_tmpV g).
    assert (E : fltb (physics.prepare_tmpV g) 0 = false) by (apply fltb_false; lra).
    unfold physics.prepare_tmpV in E |- *. cbv zeta in E. rewrite E. reflexivity. }
  assert (Hr : physics.getMfast_argtmp K g Enu 0 type = physics.prepare_argV_raw g).
  { unfold physics.getMfast_argtmp, physics.getMfast_divisor, physics.prepare_argV_raw.
    cbv zeta. rewrite Ha, Hb, Hg, Ht. reflexivity. }
  assert (Hc : physics.getMfast_arg K g Enu 0 type = physics.prepare_argV g).
  { unfold physics.getMfast_arg, physics.prepare_argV. cbv zeta. rewrite Hr. reflexivity. }
  unfold physics.getMfast_mMatU, physics.prepare_mMatV. cbv zeta.
  rewrite Ha, Ht, Hc.
  destruct k as [|[|k]]; reflexivity.
Qed.


(** Vacuum masses 0, 1 and 2: the roots are 0, 1 and 2. *)
Lemma prepare_mMatV_equidistant g :
  physics.DM g 0 0 = 0 -> physics.DM g 0 1 = - 1 -> physics.DM g 0 2 = - 2 ->
  physics.prepare_tmpV g = 3
  /\ physics.prepare_mMatV g 0 = 0
  /\ physics.prepare_mMatV g 1 = 1
  /\ physics.prepare_mMatV g 2 = 2.
Proof.
  intros H00 H01 H02.
  assert (Ht : physics.prepare_tmpV g = 3).
  { unfold physics.prepare_tmpV. rewrite H01, H02. ring. }
  assert (Hraw : physics.prepare_argV_raw g = 0).
  { unfold physics.prepare_argV_raw. cbv zeta. rewrite Ht, H01, H02.
    unfold Rdiv. ring. }
  assert (Harg : physics.prepare_argV g = 0).
  { unfold physics.prepare_argV. cbv zeta. rewrite Hraw.
    rewrite fabs_le_1_not_gt by lra. reflexivity. }
  split; [exact Ht|].
  unfold physics.prepare_mMatV. cbv zeta.
  rewrite Harg, acos_0, Ht, H00, H01, H02.
  rewrite cos_PI6', cos_PI6_minus, cos_PI6_plus.
  assert (H3 : sqrt 3 * sqrt 3 = 3) by (apply sqrt_sqrt; lra).
  split; [|split].
  - transitivity (- (sqrt 3 * sqrt 3) / 3 + 1); [field|rewrite H3; lra].
  - field.
  - transitivity (sqrt 3 * sqrt 3 / 3 + 1); [field|rewrite H3; lra].
Qed.

End Vacuum.

Ltac decide_fltb :=
  unfold fabs, Rabs; repeat (destruct (Rcase_abs _)); lra.

(** The vacuum order, as a decision on the three distances. *)
Lemma prepare_order_spec g i :
  physics.prepare_order g i =
  let d0 := fabs (physics.DM g i 0 - physics.prepare_mMatV g 0) in
  let d1 := fabs (physics.DM g i 0 - physics.prepare_mMatV g 1) in
  let d2 := fabs (physics.DM g i 0 - physics.prepare_mMatV g 2) in
  if fltb d1 d0 then (if fltb d2 d1 then 2%nat else 1%nat)
  else (if fltb d2 d0 then 2%nat else 0%nat).
Proof.
  unfold physics.prepare_order. cbn [for_range]. cbv zeta.
  cbn [snd fst].
  destruct (fltb (fabs (physics.DM g i 0 - physics.prepare_mMatV g 1))
              (fabs (physics.DM g i 0 - physics.prepare_mMatV g 0)));
    cbn [snd fst];
    match goal with |- context [fltb ?a ?b] => destruct (fltb a b) end;
    reflexivity.
Qed.


Lemma equidistant_DM :
  let g := physics.set_parameters (mixing_matrix sample.equidistant)
             (mass_differences sample.equidistant) sample.globals in
  physics.DM g 0 0 = 0 /\ physics.DM g 0 1 = - 1 /\ physics.DM g 0 2 = - 2
  /\ physics.DM g 1 0 = 1 /\ physics.DM g 2 0 = 2.
Proof.
  cbv zeta. unfold physics.set_parameters, physics.setMassDifferences_host,
    mass_differences, sample.equidistant. cbn [physics.DM].
  destruct (setNeutrinoMasses_DM 1 1
              (propagator.setMNSMatrix 0 0 0 0 sample.storage))
    as (H00 & _ & _ & H01 & H10 & H02 & H20 & _).
  cbv zeta in H00, H01, H10, H02, H20.
  rewrite H00, H01, H10, H02, H20.
  assert (E : feqb 1 0 = false) by (apply feqb_false; lra).
  assert (Hm0 : propagator.mVac 1 1 0 = 0).
  { unfold propagator.mVac. rewrite E. reflexivity. }
  assert (Hm1 : propagator.mVac 1 1 1 = 1) by reflexivity.
  assert (Hm2 : propagator.mVac 1 1 2 = 1 + 1).
  { unfold propagator.mVac. rewrite E. reflexivity. }
  rewrite Hm0, Hm1, Hm2. repeat split; lra.
Qed.


Lemma equidistant_mMat Enu type :
  let g := globals_of sample.equidistant Neutrino sample.globals in
  physics.getMfast_mMat sample.constants g Enu 0 type 0 = 0
  /\ physics.getMfast_mMat sample.constants g Enu 0 type 1 = 1
  /\ physics.getMfast_mMat sample.constants g Enu 0 type 2 = 2.
Proof.
  cbv zeta. unfold globals_of.
  set (g := physics.set_parameters _ _ _).
  destruct equidistant_DM as (H00 & H01 & H02 & H10 & H20). fold g in H00, H01, H02, H10, H20.
  destruct (prepare_mMatV_equidistant g H00 H01 H02) as (Ht & V0 & V1 & V2).
  assert (O0 : physics.prepare_order g 0 = 0%nat).
  { rewrite prepare_order_spec. cbv zeta. rewrite H00, V0, V1, V2.
    rewrite (proj2 (fltb_false (fabs (0 - 1)) (fabs (0 - 0)))) by decide_fltb.
    rewrite (proj2 (fltb_false (fabs (0 - 2)) (fabs (0 - 0)))) by decide_fltb.
    reflexivity. }
  assert (O1 : physics.prepare_order g 1 = 1%nat).
  { rewrite prepare_order_spec. cbv zeta. rewrite H10, V0, V1, V2.
    rewrite (proj2 (fltb_true (fabs (1 - 1)) (fabs (1 - 0)))) by decide_fltb.
    rewrite (proj2 (fltb_false (fabs (1 - 2)) (fabs (1 - 1)))) by decide_fltb.
    reflexivity. }
  assert (O2 : physics.prepare_order g 2 = 2%nat).
  { rewrite prepare_order_spec. cbv zeta. rewrite H20, V0, V1, V2.
    rewrite (proj2 (fltb_true (fabs (2 - 1)) (fabs (2 - 0)))) by decide_fltb.
    rewrite (proj2 (fltb_true (fabs (2 - 2)) (fabs (2 - 1)))) by decide_fltb.
    reflexivity. }
  assert (Hpos : 0 <= physics.prepare_tmpV (physics.prepare_getMfast Neutrino g)).
  { change (physics.prepare_tmpV (physics.prepare_getMfast Neutrino g))
      with (physics.prepare_tmpV g). rewrite Ht. lra. }
  unfold physics.getMfast_mMat. cbn [physics.ORDER physics.prepare_getMfast].
  rewrite O0, O1, O2.
  change (physics.getMfast_mMatU sample.constants
            {| physics.U := physics.U g; physics.DM := physics.DM g;
               physics.AXFAC := physics.AXFAC g; physics.ORDER := physics.prepare_order g |})
    with (physics.getMfast_mMatU sample.constants (physics.prepare_getMfast Neutrino g)).
  rewrite !getMfast_mMatU_vacuum by exact Hpos.
  change (physics.prepare_mMatV (physics.prepare_getMfast Neutrino g))
    with (physics.prepare_mMatV g).
  rewrite V0, V1, V2. repeat split; reflexivity.
Qed.

(** The three divisors at vacuum masses 0, 1 and 2. *)
Lemma equidistant_divisors :
  let g := globals_of sample.equidistant Neutrino sample.globals in
  divisors sample.constants g 1 0 Neutrino 0 = 2
  /\ divisors sample.constants g 1 0 Neutrino 1 = - 1
  /\ divisors sample.constants g 1 0 Neutrino 2 = 2.
Proof.
  intros g.
  destruct (equidistant_mMat 1 Neutrino) as (M0 & M1 & M2). fold g in M0, M1, M2.
  unfold divisors, physics.product_divisor, physics.getMfast. cbn [fst].
  rewrite M0, M1, M2. repeat split; ring.
Qed.

Lemma equidistant_divisors_nonzero k :
  divisors sample.constants (globals_of sample.equidistant Neutrino sample.globals)
    1 0 Neutrino k <> 0.
Proof.
  destruct equidistant_divisors as (H0 & H1 & H2).
  destruct k as [|[|k]].
  - rewrite H0. lra.
  - rewrite H1. lra.
  - change (divisors sample.constants
              (globals_of sample.equidistant Neutrino sample.globals) 1 0 Neutrino
              (S (S k)))
      with (divisors sample.constants
              (globals_of sample.equidistant Neutrino sample.globals) 1 0 Neutrino 2).
    rewrite H2. lra.
Qed.

(** ** The argument of the arc cosine *)

(** [if (fabs(x)>1.0) x = x/fabs(x);] leaves a value of [-1,1]: the sign of
    [x] when its magnitude exceeds 1, [x] itself otherwise. *)
Lemma clamp_range x :
  let y := if fltb 1 (fabs x) then x / fabs x else x in
  -1 <= y <= 1
  /\ (1 < x -> y = 1) /\ (x < -1 -> y = -1) /\ (-1 <= x <= 1 -> y = x).
Proof.
  cbv zeta. unfold fabs.
  destruct (fltb 1 (Rabs x)) eqn:E.
  - apply fltb_true in E.
    destruct (Rcase_abs x) as [Hneg | Hpos].
    + rewrite (Rabs_left x Hneg) in *.
      assert (Hq : x / - x = -1) by (field; lra).
      rewrite Hq. repeat split; intros; lra.
    + rewrite (Rabs_right x Hpos) in *.
      assert (Hq : x / x = 1) by (field; lra).
      rewrite Hq. repeat split; intros; lra.
  - apply fltb_false in E.
    assert (H : -1 <= x <= 1).
    { unfold Rabs in E. destruct (Rcase_abs x); lra. }
    repeat split; intros; lra.
Qed.

(** The first vacuum difference that [setNeutrinoMasses] stores is never
    zero. *)
Lemma setNeutrinoMasses_DM01_nonzero dm12sq dm23sq p :
  propagator.DM (propagator.setNeutrinoMasses dm12sq dm23sq p) 0 1 <> 0.
Proof.
  destruct (setNeutrinoMasses_DM dm12sq dm23sq p) as (_ & _ & _ & H01 & _).
  cbv zeta in H01. rewrite H01.
  change (propagator.mVac dm12sq dm23sq 1) with dm12sq.
  change (propagator.mVac dm12sq dm23sq 0)
    with (if feqb dm12sq 0 then 0 - propagator.delta else 0).
  pose proof delta_pos as Hd.
  destruct (feqb dm12sq 0) eqn:E.
  - apply feqb_true in E. lra.
  - apply feqb_false in E. lra.
Qed.



(** ** The statements at sample inputs *)

(** C10 on a grid of two by two bins: entry 1 of the output is the weight of
    the cosine bin 1 and the energy bin 0, stored at offset 22 of the
    buffer. *)
Lemma getProbabilityArr_energy_major_witness :
  exists out,
    cpupropagator.getProbabilityArr (fun t : Z => t) sample.grid (fun _ => 0) 4%Z
    = Done out
    /\ cpupropagator.getProbability (fun t : Z => t) sample.grid 1 0 4%Z
       = Done (out 1%Z)
    /\ cpupropagator.resultList sample.grid !! 22%nat = Some (out 1%Z).
Proof.
  destruct (getProbabilityArr_energy_major (fun t : Z => t) sample.grid (fun _ => 0) 4%Z)
    as (out & Hrun & Hall).
  - simpl. lia.
  - simpl. lia.
  - simpl. lia.
  - reflexivity.
  - lia.
  - exists out. split; [exact Hrun|].
    exact (Hall 1%Z 0%Z ltac:(simpl; lia) ltac:(simpl; lia)).
Defined.


(** C5 on a grid of one bin that crosses eight layers. *)
Lemma calculate_capacity_bin_out_of_bounds_witness :
  physics.calculate sample.constants
    (physics.set_parameters (mixing_matrix sample.oscillating)
       (mass_differences sample.oscillating) sample.globals)
    Neutrino (fun _ => 0) 1 (fun _ => 1) 1 (fun _ => 6371) (fun _ => 0)
    (fun _ => 8%Z) 0 (fun _ => 0.05) (fun _ => 0) sample.product0
    (replicate 9 0)
  = Undefined.
Proof.
  apply (calculate_capacity_bin_out_of_bounds sample.constants
           (mixing_matrix sample.oscillating) (mass_differences sample.oscillating)
           sample.globals Neutrino (fun _ => 0) 1 (fun _ => 1) 1 (fun _ => 6371)
           (fun _ => 0) (fun _ => 8%Z) 0 (fun _ => 0.05) (fun _ => 0) sample.product0
           (replicate 9 0) 0%nat).
  - lia.
  - lia.
  - lia.
  - simpl. lia.
  - reflexivity.
  - simpl. lia.
  - intros ic Hic. simpl in Hic. lia.
  - reflexivity.
Defined.

(** * Further properties of the code *)

(** ** The mixing matrix *)

(** For all angles and every CP phase the matrix that [setMNSMatrix] stores
    is unitary: its rows are orthonormal, and so are its columns. *)
Theorem setMNSMatrix_unitary (theta12 theta13 theta23 dCP : R)
  (p : propagator.Propagator) :
  let Umat := mixing_matrix (propagator.setMNSMatrix theta12 theta13 theta23 dCP p) in
  rows_orthonormal Umat /\ rows_orthonormal (adjoint Umat).
Proof.
  intros Umat. split; [apply setMNSMatrix_rows_orthonormal|].
  destruct (setMNSMatrix_U theta12 theta13 theta23 dCP p)
    as (H00 & H01 & H02 & H10 & H11 & H12 & H20 & H21 & H22).
  pose proof (sin2_cos2' theta12) as E12. pose proof (sin2_cos2' theta13) as E13.
  pose proof (sin2_cos2' theta23) as E23. pose proof (sin2_cos2' dCP) as Ed.
  cbv zeta in H00, H01, H02, H10, H11, H12, H20, H21, H22.
  revert H00 H01 H02 H10 H11 H12 H20 H21 H22 E12 E13 E23 Ed.
  generalize (sin theta12) (cos theta12) (sin theta13) (cos theta13)
             (sin theta23) (cos theta23) (sin dCP) (cos dCP).
  intros s12 c12 s13 c13 s23 c23 sd cd H00 H01 H02 H10 H11 H12 H20 H21 H22 E12 E13 E23 Ed.
  intros n m Hn Hm. unfold adjoint, Umat, mixing_matrix. cbn [re im].
  assert (Hcn : (n = 0 \/ n = 1 \/ n = 2)%nat) by lia.
  assert (Hcm : (m = 0 \/ m = 1 \/ m = 2)%nat) by lia.
  destruct Hcn as [-> | [-> | ->]]; destruct Hcm as [-> | [-> | ->]];
    rewrite ?H00, ?H01, ?H02, ?H10, ?H11, ?H12, ?H20, ?H21, ?H22;
    cbn [re im Nat.eqb]; split; nsatz.
Qed.

(** ** The roots of the cubic in [getMfast] *)

Lemma cos_2PI3' : cos (2 * PI / 3) = - (1 / 2).
Proof.
  replace (2 * PI / 3) with (2 * (PI / 3)) by field.
  rewrite cos_2PI3. field.
Qed.

Lemma sin_2PI3_sqr : sin (2 * PI / 3) * sin (2 * PI / 3) = 3 / 4.
Proof.
  pose proof (sin2_cos2' (2 * PI / 3)) as H. rewrite cos_2PI3' in H. lra.
Qed.

Lemma cos_3a x : cos (3 * x) = 4 * (cos x * cos x * cos x) - 3 * cos x.
Proof.
  replace (3 * x) with (2 * x + x) by ring.
  rewrite cos_plus, cos_2a_cos, sin_2a.
  pose proof (sin2_cos2' x) as H.
  assert (Hs : sin x * sin x = 1 - cos x * cos x) by lra.
  transitivity ((2 * cos x * cos x - 1) * cos x - 2 * cos x * (sin x * sin x)); [ring|].
  rewrite Hs. ring.
Qed.

(** The three cosines of the trigonometric solution: their sum, the sum of
    their products in pairs and their product. *)
Lemma three_cosines t :
  let c0 := cos t in
  let c1 := cos (t - 2 * PI / 3) in
  let c2 := cos (t + 2 * PI / 3) in
  c0 + c1 + c2 = 0
  /\ c0 * c1 + c0 * c2 + c1 * c2 = - (3 / 4)
  /\ c0 * c1 * c2 = cos (3 * t) / 4.
Proof.
  cbv zeta. rewrite cos_minus, cos_plus, cos_3a, cos_2PI3'.
  pose proof sin_2PI3_sqr as Hb. pose proof (sin2_cos2' t) as Ht.
  assert (Hs : sin t * sin t = 1 - cos t * cos t) by lra.
  generalize dependent (sin (2 * PI / 3)). intros b Hb.
  generalize dependent (sin t). generalize (cos t). intros c s _ Hs.
  split; [field|]. split.
  - transitivity (- (3 / 4) * (c * c) - (s * s) * (b * b)); [field|].
    rewrite Hb, Hs. field.
  - transitivity (c * (c * c) / 4 - c * (s * s) * (b * b)); [field|].
    rewrite Hb, Hs. field.
Qed.

Section Cubic.
Context (K : Constants).

Lemma getMfast_tmp_nonneg g Enu rho type : 0 <= physics.getMfast_tmp K g Enu rho type.
Proof.
  unfold physics.getMfast_tmp.
  destruct (fltb _ 0) eqn:E; [lra|]. apply fltb_false in E. lra.
Qed.

(** The sum, the sum of products in pairs and the product of the three
    numbers [mMatU[k] - DM(0,0) + alpha/3]. *)
Lemma getMfast_mMatU_symmetric g Enu rho type :
  let alpha := physics.getMfast_alpha K g Enu rho type in
  let tmp := physics.getMfast_tmp K g Enu rho type in
  let arg := physics.getMfast_arg K g Enu rho type in
  let y k := physics.getMfast_mMatU K g Enu rho type k - (physics.DM g 0 0 - alpha / 3) in
  y 0%nat + y 1%nat + y 2%nat = 0
  /\ y 0%nat * y 1%nat + y 0%nat * y 2%nat + y 1%nat * y 2%nat = - tmp / 3
  /\ (-1 <= arg <= 1 ->
      y 0%nat * y 1%nat * y 2%nat = - (2 / 27) * (tmp * sqrt tmp) * arg).
Proof.
  intros alpha tmp arg y.
  pose proof (getMfast_tmp_nonneg g Enu rho type) as Hnn. fold tmp in Hnn.
  pose proof (sqrt_sqrt tmp Hnn) as Hsq.
  destruct (three_cosines (acos arg / 3)) as (H1 & H2 & H3). cbv zeta in H1, H2, H3.
  assert (Y0 : y 0%nat = - (2 / 3) * sqrt tmp * cos (acos arg / 3)).
  { unfold y, physics.getMfast_mMatU. fold alpha tmp arg. field. }
  assert (Y1 : y 1%nat = - (2 / 3) * sqrt tmp * cos (acos arg / 3 - 2 * PI / 3)).
  { unfold y, physics.getMfast_mMatU. fold alpha tmp arg. field. }
  assert (Y2 : y 2%nat = - (2 / 3) * sqrt tmp * cos (acos arg / 3 + 2 * PI / 3)).
  { unfold y, physics.getMfast_mMatU. fold alpha tmp arg. field. }
  rewrite Y0, Y1, Y2. clear Y0 Y1 Y2.
  set (c0 := cos (acos arg / 3)) in *.
  set (c1 := cos (acos arg / 3 - 2 * PI / 3)) in *.
  set (c2 := cos (acos arg / 3 + 2 * PI / 3)) in *.
  set (r := sqrt tmp) in *.
  clearbody c0 c1 c2 r.
  split; [|split].
  - transitivity (- (2 / 3) * r * (c0 + c1 + c2)); [field|]. rewrite H1. field.
  - transitivity (4 / 9 * (r * r) * (c0 * c1 + c0 * c2 + c1 * c2)); [field|].
    rewrite H2, Hsq. field.
  - intros Harg.
    transitivity (- (8 / 27) * (r * r) * r * (c0 * c1 * c2)); [field|].
    rewrite H3, Hsq.
    replace (3 * (acos arg / 3)) with (acos arg) by field.
    rewrite cos_acos by exact Harg. field.
Qed.

End Cubic.

Lemma sqrt_cube t : 0 <= t -> sqrt (t * t * t) = t * sqrt t.
Proof.
  intros Ht. rewrite sqrt_mult by nra. rewrite sqrt_square by exact Ht. reflexivity.
Qed.

(** The relations between the coefficients of the cubic and the three
    numbers [mMatU[k] - DM(0,0)]: Vieta's formulas. *)
Lemma getMfast_vieta (K : Constants) (g : physics.Globals) (Enu rho : R)
  (type : NeutrinoType) :
  let alpha := physics.getMfast_alpha K g Enu rho type in
  let beta := physics.getMfast_beta K g Enu rho type in
  let gamma := physics.getMfast_gamma K g Enu rho type in
  let x k := physics.getMfast_mMatU K g Enu rho type k - physics.DM g 0 0 in
  0 < alpha * alpha - 3 * beta ->
  -1 <= physics.getMfast_argtmp K g Enu rho type <= 1 ->
  x 0%nat + x 1%nat + x 2%nat = - alpha
  /\ x 0%nat * x 1%nat + x 0%nat * x 2%nat + x 1%nat * x 2%nat = beta
  /\ x 0%nat * x 1%nat * x 2%nat = - gamma.
Proof.
  intros alpha beta gamma x Hpos Harg.
  destruct (getMfast_mMatU_symmetric K g Enu rho type) as (H1 & H2 & H3).
  cbv zeta in H1, H2, H3. fold alpha in H1, H2, H3.
  assert (Ht : physics.getMfast_tmp K g Enu rho type = alpha * alpha - 3 * beta).
  { unfold physics.getMfast_tmp. fold alpha beta.
    assert (E : fltb (alpha * alpha - 3 * beta) 0 = false) by (apply fltb_false; lra).
    rewrite E. reflexivity. }
  assert (Ha : physics.getMfast_arg K g Enu rho type
               = physics.getMfast_argtmp K g Enu rho type).
  { unfold physics.getMfast_arg.
    exact (proj2 (proj2 (proj2 (clamp_range (physics.getMfast_argtmp K g Enu rho type))))
             Harg). }
  rewrite Ha in H3. specialize (H3 Harg).
  set (t := alpha * alpha - 3 * beta) in *.
  assert (Hr : 0 < sqrt t) by (apply sqrt_lt_R0; exact Hpos).
  assert (Hq : physics.getMfast_argtmp K g Enu rho type
               = (2 * alpha * alpha * alpha - 9 * alpha * beta + 27 * gamma)
                 / (2 * (t * sqrt t))).
  { unfold physics.getMfast_argtmp, physics.getMfast_divisor.
    fold alpha beta gamma. rewrite Ht, sqrt_cube by lra. reflexivity. }
  rewrite Hq, Ht in H3. rewrite Ht in H2.
  assert (H3' : (physics.getMfast_mMatU K g Enu rho type 0 - (physics.DM g 0 0 - alpha / 3))
                * (physics.getMfast_mMatU K g Enu rho type 1 - (physics.DM g 0 0 - alpha / 3))
                * (physics.getMfast_mMatU K g Enu rho type 2 - (physics.DM g 0 0 - alpha / 3))
                = - (2 * alpha * alpha * alpha - 9 * alpha * beta + 27 * gamma) / 27).
  { rewrite H3. field. split; lra. }
  clear H3 Hq Ha Harg Hr.
  assert (E1 : x 0%nat + x 1%nat + x 2%nat = - alpha).
  { unfold x. lra. }
  assert (E2 : x 0%nat * x 1%nat + x 0%nat * x 2%nat + x 1%nat * x 2%nat = beta).
  { transitivity
      ((physics.getMfast_mMatU K g Enu rho type 0 - (physics.DM g 0 0 - alpha / 3))
       * (physics.getMfast_mMatU K g Enu rho type 1 - (physics.DM g 0 0 - alpha / 3))
       + (physics.getMfast_mMatU K g Enu rho type 0 - (physics.DM g 0 0 - alpha / 3))
         * (physics.getMfast_mMatU K g Enu rho type 2 - (physics.DM g 0 0 - alpha / 3))
       + (physics.getMfast_mMatU K g Enu rho type 1 - (physics.DM g 0 0 - alpha / 3))
         * (physics.getMfast_mMatU K g Enu rho type 2 - (physics.DM g 0 0 - alpha / 3))
       - 2 * (alpha / 3) * (x 0%nat + x 1%nat + x 2%nat) - 3 * (alpha / 3) * (alpha / 3)).
    - unfold x. field.
    - rewrite H2, E1. unfold t. field. }
  split; [exact E1|]. split; [exact E2|].
  transitivity
    ((physics.getMfast_mMatU K g Enu rho type 0 - (physics.DM g 0 0 - alpha / 3))
     * (physics.getMfast_mMatU K g Enu rho type 1 - (physics.DM g 0 0 - alpha / 3))
     * (physics.getMfast_mMatU K g Enu rho type 2 - (physics.DM g 0 0 - alpha / 3))
     - (alpha / 3) * (x 0%nat * x 1%nat + x 0%nat * x 2%nat + x 1%nat * x 2%nat)
     - (alpha / 3) * (alpha / 3) * (x 0%nat + x 1%nat + x 2%nat)
     - (alpha / 3) * (alpha / 3) * (alpha / 3)).
  - unfold x. field.
  - rewrite H3', E2, E1. field.
Qed.

(** [getMfast] solves the characteristic cubic: whenever
    [alpha*alpha-3.0*beta] is positive and the quotient of Equation (21) lies
    in [-1,1], each of the three numbers [mMatU[k] - DM(0,0)] is a root of
    [z^3 + alpha z^2 + beta z + gamma], and the cubic is the product of the
    three factors [z - (mMatU[k] - DM(0,0))]. *)
Theorem getMfast_solves_cubic (K : Constants) (g : physics.Globals) (Enu rho : R)
  (type : NeutrinoType) :
  let alpha := physics.getMfast_alpha K g Enu rho type in
  let beta := physics.getMfast_beta K g Enu rho type in
  let gamma := physics.getMfast_gamma K g Enu rho type in
  let x k := physics.getMfast_mMatU K g Enu rho type k - physics.DM g 0 0 in
  0 < alpha * alpha - 3 * beta ->
  -1 <= physics.getMfast_argtmp K g Enu rho type <= 1 ->
  (forall z, z * z * z + alpha * (z * z) + beta * z + gamma
             = (z - x 0%nat) * (z - x 1%nat) * (z - x 2%nat))
  /\ (forall k, x k * x k * x k + alpha * (x k * x k) + beta * x k + gamma = 0).
Proof.
  intros alpha beta gamma x Hpos Harg.
  destruct (getMfast_vieta K g Enu rho type Hpos Harg) as (E1 & E2 & E3).
  change (x 0%nat + x 1%nat + x 2%nat = - alpha) in E1.
  change (x 0%nat * x 1%nat + x 0%nat * x 2%nat + x 1%nat * x 2%nat = beta) in E2.
  change (x 0%nat * x 1%nat * x 2%nat = - gamma) in E3.
  assert (Hf : forall z, z * z * z + alpha * (z * z) + beta * z + gamma
                         = (z - x 0%nat) * (z - x 1%nat) * (z - x 2%nat)).
  { intros z.
    transitivity (z * z * z - (x 0%nat + x 1%nat + x 2%nat) * (z * z)
                  + (x 0%nat * x 1%nat + x 0%nat * x 2%nat + x 1%nat * x 2%nat) * z
                  - x 0%nat * x 1%nat * x 2%nat); [|ring].
    rewrite E1, E2, E3. ring. }
  split; [exact Hf|].
  intros k. rewrite Hf.
  assert (Hk : x k = x 0%nat \/ x k = x 1%nat \/ x k = x 2%nat).
  { unfold x. destruct k as [|[|k]]; [left|right; left|right; right]; reflexivity. }
  destruct Hk as [-> | [-> | ->]]; ring.
Qed.

(** The coefficients of the cubic at vacuum masses 0, 1 and 2 and zero
    density. *)
Lemma equidistant_cubic :
  let g := globals_of sample.equidistant Neutrino sample.globals in
  physics.getMfast_alpha sample.constants g 1 0 Neutrino = -3
  /\ physics.getMfast_beta sample.constants g 1 0 Neutrino = 2
  /\ physics.getMfast_gamma sample.constants g 1 0 Neutrino = 0.
Proof.
  intros g.
  destruct equidistant_DM as (_ & H01 & H02 & _).
  assert (D1 : physics.DM g 0 1 = -1) by exact H01.
  assert (D2 : physics.DM g 0 2 = -2) by exact H02.
  unfold physics.getMfast_gamma, physics.getMfast_alpha, physics.getMfast_beta.
  rewrite matter_fac_vacuum, D1, D2. repeat split; ring.
Qed.

(** The cubic at vacuum masses 0, 1 and 2 and zero density: the quotient of
    Equation (21) is 0 and the second root solves the cubic. *)
Lemma getMfast_solves_cubic_witness :
  let g := globals_of sample.equidistant Neutrino sample.globals in
  let z := physics.getMfast_mMatU sample.constants g 1 0 Neutrino 1 - physics.DM g 0 0 in
  z * z * z + physics.getMfast_alpha sample.constants g 1 0 Neutrino * (z * z)
  + physics.getMfast_beta sample.constants g 1 0 Neutrino * z
  + physics.getMfast_gamma sample.constants g 1 0 Neutrino = 0.
Proof.
  refine (proj2 (getMfast_solves_cubic sample.constants
                   (globals_of sample.equidistant Neutrino sample.globals) 1 0 Neutrino
                   _ _) 1%nat).
  - destruct equidistant_cubic as (Ha & Hb & _). cbv zeta in Ha, Hb.
    rewrite Ha, Hb. lra.
  - destruct equidistant_cubic as (Ha & Hb & Hc). cbv zeta in Ha, Hb, Hc.
    unfold physics.getMfast_argtmp. rewrite Ha, Hb, Hc.
    replace (2 * -3 * -3 * -3 - 9 * -3 * 2 + 27 * 0) with 0 by ring.
    unfold Rdiv. rewrite Rmult_0_l. lra.
Defined.

(** ** The vacuum order *)
(** The loop of [prepare_getMfast] over the roots keeps the first index of
    the least distance. *)
Lemma prepare_order_argmin (type : NeutrinoType) (g : physics.Globals) (i : nat) :
  let o := physics.ORDER (physics.prepare_getMfast type g) i in
  let dist j := fabs (physics.DM g i 0 - physics.prepare_mMatV g j) in
  (o < 3)%nat
  /\ (forall j, (j < 3)%nat -> dist o <= dist j)
  /\ (forall j, (j < o)%nat -> dist o < dist j).
Proof.
  cbv zeta. cbn [physics.ORDER physics.prepare_getMfast].
  rewrite prepare_order_spec. cbv zeta.
  set (d0 := fabs (physics.DM g i 0 - physics.prepare_mMatV g 0)).
  set (d1 := fabs (physics.DM g i 0 - physics.prepare_mMatV g 1)).
  set (d2 := fabs (physics.DM g i 0 - physics.prepare_mMatV g 2)).
  assert (Hj : forall (P : nat -> Prop), P 0%nat -> P 1%nat -> P 2%nat ->
                                         forall j, (j < 3)%nat -> P j).
  { intros P P0 P1 P2 j Hlt. destruct j as [|[|[|j]]]; try assumption. lia. }
  destruct (fltb d1 d0) eqn:E10; [apply fltb_true in E10|apply fltb_false in E10].
  - destruct (fltb d2 d1) eqn:E21; [apply fltb_true in E21|apply fltb_false in E21].
    + split; [lia|]. split.
      * apply Hj; fold d0 d1 d2; lra.
      * intros j Hlt. destruct j as [|[|j]]; fold d0 d1 d2; [lra|lra|lia].
    + split; [lia|]. split.
      * apply Hj; fold d0 d1 d2; lra.
      * intros j Hlt. destruct j as [|j]; fold d0 d1; [lra|lia].
  - destruct (fltb d2 d0) eqn:E20; [apply fltb_true in E20|apply fltb_false in E20].
    + split; [lia|]. split.
      * apply Hj; fold d0 d1 d2; lra.
      * intros j Hlt. destruct j as [|[|j]]; fold d0 d1 d2; [lra|lra|lia].
    + split; [lia|]. split.
      * apply Hj; fold d0 d1 d2; lra.
      * intros j Hlt. lia.
Qed.

(** [prepare_getMfast] assigns to each vacuum mass [DM(i,0)] the index of a
    root of the vacuum cubic that is nearest to it, and the first such index
    when several roots are equally near: [ORDER(i)] is one of 0, 1, 2, no
    root is nearer, and every root before it is strictly farther. *)
Theorem prepare_order_nearest_root (type : NeutrinoType) (g : physics.Globals) (i : nat) :
  let o := physics.ORDER (physics.prepare_getMfast type g) i in
  let dist j := fabs (physics.DM g i 0 - physics.prepare_mMatV g j) in
  (o < 3)%nat
  /\ (forall j, (j < 3)%nat -> dist o <= dist j)
  /\ (forall j, (j < o)%nat -> dist o < dist j).
Proof.
  cbv zeta. cbn [physics.ORDER physics.prepare_getMfast].
  rewrite prepare_order_spec. cbv zeta.
  set (d0 := fabs (physics.DM g i 0 - physics.prepare_mMatV g 0)).
  set (d1 := fabs (physics.DM g i 0 - physics.prepare_mMatV g 1)).
  set (d2 := fabs (physics.DM g i 0 - physics.prepare_mMatV g 2)).
  assert (Hj : forall (P : nat -> Prop), P 0%nat -> P 1%nat -> P 2%nat ->
                                         forall j, (j < 3)%nat -> P j).
  { intros P P0 P1 P2 j Hlt. destruct j as [|[|[|j]]]; try assumption. lia. }
  destruct (fltb d1 d0) eqn:E10; [apply fltb_true in E10|apply fltb_false in E10].
  - destruct (fltb d2 d1) eqn:E21; [apply fltb_true in E21|apply fltb_false in E21].
    + split; [lia|]. split.
      * apply Hj; fold d0 d1 d2; lra.
      * intros j Hlt. destruct j as [|[|j]]; fold d0 d1 d2; [lra|lra|lia].
    + split; [lia|]. split.
      * apply Hj; fold d0 d1 d2; lra.
      * intros j Hlt. destruct j as [|j]; fold d0 d1; [lra|lia].
  - destruct (fltb d2 d0) eqn:E20; [apply fltb_true in E20|apply fltb_false in E20].
    + split; [lia|]. split.
      * apply Hj; fold d0 d1 d2; lra.
      * intros j Hlt. destruct j as [|[|j]]; fold d0 d1 d2; [lra|lra|lia].
    + split; [lia|]. split.
      * apply Hj; fold d0 d1 d2; lra.
      * intros j Hlt. lia.
Qed.
(** ** Zero density *)

Lemma prepare_tmpV_pos g : physics.DM g 0 1 <> 0 -> 0 < physics.prepare_tmpV g.
Proof.
  intros Ha. unfold physics.prepare_tmpV.
  generalize dependent (physics.DM g 0 1). intros a Ha.
  generalize (physics.DM g 0 2). intros b.
  assert (H : (a + b) * (a + b) - 3 * (a * b)
              = (a - b / 2) * (a - b / 2) + 3 / 4 * (b * b)) by field.
  rewrite H.
  pose proof (Rle_0_sqr (a - b / 2)) as Hs. unfold Rsqr in Hs.
  destruct (Req_dec b 0) as [-> | Hb].
  - replace (a - 0 / 2) with a by field.
    assert (0 < a * a) by (destruct (Rdichotomy _ _ Ha); nra). lra.
  - assert (0 < b * b) by (destruct (Rdichotomy _ _ Hb); nra). lra.
Qed.

(** The quotient of Equation (21) for a cubic with the roots 0, [-a] and
    [-b] lies in [-1,1]: the discriminant is a square. *)
Lemma vacuum_quotient_in_range a b :
  0 < (a + b) * (a + b) - 3 * (a * b) ->
  -1 <= (2 * (a + b) * (a + b) * (a + b) - 9 * (a + b) * (a * b) + 27 * 0)
        / (2 * sqrt (((a + b) * (a + b) - 3 * (a * b))
                     * ((a + b) * (a + b) - 3 * (a * b))
                     * ((a + b) * (a + b) - 3 * (a * b)))) <= 1.
Proof.
  intros Hpos.
  set (t := (a + b) * (a + b) - 3 * (a * b)) in *.
  set (N := 2 * (a + b) * (a + b) * (a + b) - 9 * (a + b) * (a * b) + 27 * 0).
  rewrite sqrt_cube by lra.
  assert (Hr : 0 < sqrt t) by (apply sqrt_lt_R0; exact Hpos).
  pose proof (sqrt_sqrt t ltac:(lra)) as Hsq.
  set (D := 2 * (t * sqrt t)).
  assert (HD : 0 < D) by (unfold D; nra).
  assert (HDD : D * D = 4 * (t * t * t)).
  { unfold D. transitivity (4 * (t * t) * (sqrt t * sqrt t)); [ring|]. rewrite Hsq. ring. }
  assert (Hdisc : 4 * (t * t * t) - N * N
                  = 27 * ((a * b * (a - b)) * (a * b * (a - b)))).
  { unfold t, N. ring. }
  pose proof (Rle_0_sqr (a * b * (a - b))) as Hs. unfold Rsqr in Hs.
  assert (HNN : N * N <= D * D) by lra.
  assert (HN : - D <= N <= D).
  { split.
    - destruct (Rle_lt_dec (- D) N) as [H|H]; [exact H|]. exfalso. nra.
    - destruct (Rle_lt_dec N D) as [H|H]; [exact H|]. exfalso. nra. }
  split.
  - apply Rmult_le_reg_r with D; [exact HD|].
    unfold Rdiv. rewrite Rmult_assoc, Rinv_l by lra. lra.
  - apply Rmult_le_reg_r with D; [exact HD|].
    unfold Rdiv. rewrite Rmult_assoc, Rinv_l by lra. lra.
Qed.

(** With consistent vacuum mass differences the matter masses at zero
    density are the vacuum masses, in their order. *)
Lemma getMfast_mMat_vacuum (K : Constants) (g : physics.Globals)
  (type0 type : NeutrinoType) (Enu : R) (i : nat) :
  physics.DM g 0 0 = 0 ->
  physics.DM g 1 0 = - physics.DM g 0 1 ->
  physics.DM g 2 0 = - physics.DM g 0 2 ->
  physics.DM g 0 1 <> 0 ->
  (i < 3)%nat ->
  physics.getMfast_mMat K (physics.prepare_getMfast type0 g) Enu 0 type i
  = physics.DM g i 0.
Proof.
  intros H00 H10 H20 Hne Hi.
  set (g' := physics.prepare_getMfast type0 g).
  pose proof (prepare_tmpV_pos g Hne) as Htpos.
  assert (Ha : physics.getMfast_alpha K g' Enu 0 type = physics.DM g 0 1 + physics.DM g 0 2).
  { unfold physics.getMfast_alpha. rewrite matter_fac_vacuum. cbn [physics.DM g' physics.prepare_getMfast]. ring. }
  assert (Hb : physics.getMfast_beta K g' Enu 0 type = physics.DM g 0 1 * physics.DM g 0 2).
  { unfold physics.getMfast_beta. rewrite matter_fac_vacuum. cbn [physics.DM g' physics.prepare_getMfast]. ring. }
  assert (Hg : physics.getMfast_gamma K g' Enu 0 type = 0).
  { unfold physics.getMfast_gamma. rewrite matter_fac_vacuum. ring. }
  assert (Hpos : 0 < physics.getMfast_alpha K g' Enu 0 type
                     * physics.getMfast_alpha K g' Enu 0 type
                     - 3 * physics.getMfast_beta K g' Enu 0 type).
  { rewrite Ha, Hb. exact Htpos. }
  assert (Harg : -1 <= physics.getMfast_argtmp K g' Enu 0 type <= 1).
  { unfold physics.getMfast_argtmp, physics.getMfast_divisor, physics.getMfast_tmp.
    rewrite Hg, Ha, Hb.
    assert (E : fltb ((physics.DM g 0 1 + physics.DM g 0 2)
                      * (physics.DM g 0 1 + physics.DM g 0 2)
                      - 3 * (physics.DM g 0 1 * physics.DM g 0 2)) 0 = false).
    { apply fltb_false. unfold physics.prepare_tmpV in Htpos. lra. }
    rewrite E. apply vacuum_quotient_in_range. exact Htpos. }
  destruct (getMfast_vieta K g' Enu 0 type Hpos Harg) as (E1 & E2 & E3).
  rewrite Ha in E1. rewrite Hb in E2. rewrite Hg in E3.
  assert (HU : forall k, physics.getMfast_mMatU K g' Enu 0 type k = physics.prepare_mMatV g k).
  { intros k. apply (getMfast_mMatU_vacuum K g' Enu type k).
    change (physics.prepare_tmpV g') with (physics.prepare_tmpV g). lra. }
  change (physics.DM g' 0 0) with (physics.DM g 0 0) in E1, E2, E3.
  rewrite !HU, H00 in E1, E2, E3.
  set (m := physics.DM g i 0).
  assert (Hm : m * (m + physics.DM g 0 1) * (m + physics.DM g 0 2) = 0).
  { unfold m. destruct i as [|[|[|i]]]; [| | |lia].
    - rewrite H00. ring.
    - rewrite H10. ring.
    - rewrite H20. ring. }
  assert (Hprod : (m - physics.prepare_mMatV g 0) * (m - physics.prepare_mMatV g 1)
                  * (m - physics.prepare_mMatV g 2) = 0).
  { rewrite <- Hm.
    transitivity
      (m * m * m
       - (physics.prepare_mMatV g 0 - 0 + (physics.prepare_mMatV g 1 - 0)
          + (physics.prepare_mMatV g 2 - 0)) * (m * m)
       + ((physics.prepare_mMatV g 0 - 0) * (physics.prepare_mMatV g 1 - 0)
          + (physics.prepare_mMatV g 0 - 0) * (physics.prepare_mMatV g 2 - 0)
          + (physics.prepare_mMatV g 1 - 0) * (physics.prepare_mMatV g 2 - 0)) * m
       - (physics.prepare_mMatV g 0 - 0) * (physics.prepare_mMatV g 1 - 0)
         * (physics.prepare_mMatV g 2 - 0)); [ring|].
    rewrite E1, E2, E3. ring. }
  assert (Hex : exists k, (k < 3)%nat /\ physics.prepare_mMatV g k = m).
  { apply Rmult_integral in Hprod. destruct Hprod as [Hprod|H2].
    - apply Rmult_integral in Hprod. destruct Hprod as [H0|H1].
      + exists 0%nat. split; [lia|lra].
      + exists 1%nat. split; [lia|lra].
    - exists 2%nat. split; [lia|lra]. }
  destruct Hex as (k & Hk & Hkm).
  destruct (prepare_order_argmin type0 g i) as (_ & Hmin & _).
  cbv zeta in Hmin. specialize (Hmin k Hk).
  fold m in Hmin. rewrite Hkm in Hmin.
  unfold fabs in Hmin. replace (m - m) with 0 in Hmin by ring. rewrite Rabs_R0 in Hmin.
  pose proof (Rabs_pos (m - physics.prepare_mMatV g
                              (physics.ORDER (physics.prepare_getMfast type0 g) i))) as Hp.
  assert (Hz : Rabs (m - physics.prepare_mMatV g
                           (physics.ORDER (physics.prepare_getMfast type0 g) i)) = 0) by lra.
  destruct (Req_dec (m - physics.prepare_mMatV g
                           (physics.ORDER (physics.prepare_getMfast type0 g) i)) 0)
    as [Heq|Hneq].
  - unfold physics.getMfast_mMat. rewrite HU. fold g'. fold g' in Heq. lra.
  - apply Rabs_no_R0 in Hneq. contradiction.
Qed.

(** At zero density [getMfast] returns the vacuum mass differences that
    [setNeutrinoMasses] stored: [d_dmMatMat[i][j]] and [d_dmMatVac[i][j]] are
    both [DM(i,j)], for every pair of splittings, every energy and both
    neutrino types. *)
Theorem getMfast_vacuum_mass_differences (K : Constants) (dm12sq dm23sq : R)
  (p : propagator.Propagator) (g0 : physics.Globals) (type0 type : NeutrinoType)
  (Enu : R) (i j : nat) :
  let q := propagator.setNeutrinoMasses dm12sq dm23sq p in
  let g := globals_of q type0 g0 in
  (i < 3)%nat -> (j < 3)%nat ->
  fst (physics.getMfast K g Enu 0 type) i j = propagator.DM q i j
  /\ snd (physics.getMfast K g Enu 0 type) i j = propagator.DM q i j.
Proof.
  intros q g Hi Hj.
  destruct (setNeutrinoMasses_DM dm12sq dm23sq p)
    as (H00 & H11 & H22 & H01 & H10 & H02 & H20 & H12 & H21).
  fold q in H00, H11, H22, H01, H10, H02, H20, H12, H21.
  cbv zeta in H01, H10, H02, H20, H12, H21.
  set (g1 := physics.set_parameters (mixing_matrix q) (mass_differences q) g0).
  assert (HD : forall a b, physics.DM g1 a b = propagator.DM q a b) by reflexivity.
  assert (Hmat : forall a, (a < 3)%nat ->
             physics.getMfast_mMat K g Enu 0 type a = propagator.DM q a 0).
  { intros a Ha. unfold g, globals_of. fold g1. rewrite <- HD.
    apply getMfast_mMat_vacuum.
    - rewrite HD. exact H00.
    - rewrite !HD, H10, H01. reflexivity.
    - rewrite !HD, H20, H02. reflexivity.
    - rewrite HD. apply setNeutrinoMasses_DM01_nonzero.
    - exact Ha. }
  unfold physics.getMfast. cbn [fst snd].
  rewrite !Hmat by assumption.
  change (physics.DM g j 0) with (propagator.DM q j 0).
  assert (Hc : propagator.DM q i 0 - propagator.DM q j 0 = propagator.DM q i j).
  { destruct i as [|[|[|i]]]; [| | |lia]; destruct j as [|[|[|j]]]; try lia;
      rewrite ?H00, ?H11, ?H22, ?H01, ?H10, ?H02, ?H20, ?H12, ?H21; ring. }
  split; exact Hc.
Qed.

(** The vacuum differences of the sample with two splittings. *)
Lemma getMfast_vacuum_mass_differences_witness :
  fst (physics.getMfast sample.constants
         (globals_of sample.oscillating Neutrino sample.globals) 1 0 Neutrino) 1%nat 0%nat
  = propagator.DM sample.oscillating 1 0.
Proof.
  exact (proj1 (getMfast_vacuum_mass_differences sample.constants 7.9e-5 2.5e-3
                  (propagator.setMNSMatrix 0.5843 0.1485 0.7854 0 sample.storage)
                  sample.globals Neutrino Neutrino 1 1 0 ltac:(lia) ltac:(lia))).
Defined.

(** ** The layers along a path *)

(** [getDensityOfLayer]: the atmosphere has density zero, a layer on the way
    in has the density of its index, and the layers on the way out mirror
    the layers on the way in around the innermost one. *)
Theorem getDensityOfLayer_mirror (rhos : Z -> R) (layer max_layer : Z) :
  physics.getDensityOfLayer rhos 0 max_layer = 0
  /\ ((0 < layer <= max_layer)%Z ->
      physics.getDensityOfLayer rhos layer max_layer = rhos (layer - 1)%Z)
  /\ ((0 < layer < max_layer)%Z ->
      physics.getDensityOfLayer rhos (2 * max_layer - layer) max_layer
      = physics.getDensityOfLayer rhos layer max_layer).
Proof.
  unfold physics.getDensityOfLayer. split; [reflexivity|]. split.
  - intros H.
    destruct (Z.eqb_spec layer 0); [lia|].
    destruct (Z.leb_spec layer max_layer); [reflexivity|lia].
  - intros H.
    destruct (Z.eqb_spec (2 * max_layer - layer) 0); [lia|].
    destruct (Z.eqb_spec layer 0); [lia|].
    destruct (Z.leb_spec (2 * max_layer - layer) max_layer); [lia|].
    destruct (Z.leb_spec layer max_layer); [|lia].
    f_equal. lia.
Qed.

Section Distances.
Context (K : Constants).

Lemma fgeb_false a b : fgeb a b = false <-> ~ a >= b.
Proof. unfold fgeb. destruct (Rge_dec a b); split; intros; auto; try discriminate; tauto. Qed.

Lemma sum_from_snoc f lo n :
  sum_from f lo (S n) = sum_from f lo n + f (lo + n)%nat.
Proof.
  unfold sum_from. generalize 0 as a. revert lo.
  induction n as [|n IH]; intros lo a.
  - simpl. rewrite Nat.add_0_r. reflexivity.
  - change (for_range lo (S (S n)) (fun l acc => acc + f l) a)
      with (for_range (S lo) (S n) (fun l acc => acc + f l) (a + f lo)).
    rewrite IH. replace (S lo + n)%nat with (lo + S n)%nat by lia. reflexivity.
Qed.

(** The chord of the sphere of radius [radii[i]] along the path. *)
Local Abbreviation chord radii c i :=
  (2 * sqrt (radii i * radii i - REarth K * REarth K * (1 - c * c))).

Lemma distance_outer radii (layer max_layer : nat) P T c :
  c < 0 -> (0 < layer < max_layer)%nat ->
  physics.getTraversedDistanceOfLayer K radii (Z.of_nat layer) (Z.of_nat max_layer) P T c
  = 0.5 * (chord radii c (Z.of_nat layer - 1)%Z - chord radii c (Z.of_nat layer)) * km2cm K.
Proof.
  intros Hc Hl. unfold physics.getTraversedDistanceOfLayer.
  assert (E : fgeb c 0 = false) by (apply fgeb_false; lra). rewrite E.
  destruct (Z.eqb_spec (Z.of_nat layer) 0); [lia|].
  destruct (Z.geb_spec (Z.of_nat layer) (Z.of_nat max_layer)); [lia|].
  destruct (Z.ltb_spec (Z.of_nat layer - 1) (Z.of_nat max_layer - 1)); [|lia].
  replace (Z.of_nat layer - 1 + 1)%Z with (Z.of_nat layer) by lia.
  reflexivity.
Qed.

Lemma distance_innermost radii (max_layer : nat) P T c :
  c < 0 -> (0 < max_layer)%nat ->
  physics.getTraversedDistanceOfLayer K radii (Z.of_nat max_layer) (Z.of_nat max_layer) P T c
  = chord radii c (Z.of_nat max_layer - 1)%Z * km2cm K.
Proof.
  intros Hc Hl. unfold physics.getTraversedDistanceOfLayer.
  assert (E : fgeb c 0 = false) by (apply fgeb_false; lra). rewrite E.
  destruct (Z.eqb_spec (Z.of_nat max_layer) 0); [lia|].
  destruct (Z.geb_spec (Z.of_nat max_layer) (Z.of_nat max_layer)); [|lia].
  replace (- Z.of_nat max_layer - 1 + 2 * Z.of_nat max_layer)%Z
    with (Z.of_nat max_layer - 1)%Z by lia.
  destruct (Z.ltb_spec (Z.of_nat max_layer - 1) (Z.of_nat max_layer - 1)); [lia|].
  reflexivity.
Qed.

Lemma outer_distances_telescope radii (max_layer : nat) P T c (n : nat) :
  c < 0 -> (n < max_layer)%nat ->
  2 * sum_from (fun layer =>
                  physics.getTraversedDistanceOfLayer K radii (Z.of_nat layer)
                    (Z.of_nat max_layer) P T c) 1 n
  = (chord radii c 0%Z - chord radii c (Z.of_nat n)) * km2cm K.
Proof.
  intros Hc. induction n as [|n IH]; intros Hn.
  - unfold sum_from. cbn [for_range]. change (Z.of_nat 0) with 0%Z. ring.
  - rewrite sum_from_snoc, Rmult_plus_distr_l, IH by lia.
    rewrite distance_outer by (try assumption; lia).
    replace (Z.of_nat (1 + n) - 1)%Z with (Z.of_nat n) by lia.
    replace (Z.of_nat (1 + n)) with (Z.of_nat (S n)) by lia.
    lra.
Qed.

(** The distances that [getTraversedDistanceOfLayer] gives to the layers of
    a path add up to the length of the path: for a path from above the
    atmosphere is all there is, and for a path through the Earth the
    atmosphere, the layers above the innermost one counted on the way in and
    on the way out, and the innermost layer give the whole [PathLength],
    when the outermost radius is the radius of the Earth. *)
Theorem composed_distance_is_path_length (radii : Z -> R) (MaxLayer : nat)
  (PathLength cosine_zenith : R) :
  0 <= REarth K -> REarthcm K = REarth K * km2cm K -> radii 0%Z = REarth K ->
  (cosine_zenith >= 0 /\ MaxLayer = 0%nat) \/ (cosine_zenith < 0 /\ (0 < MaxLayer)%nat) ->
  composed_distance K radii MaxLayer PathLength (-2 * cosine_zenith * REarthcm K)
    cosine_zenith
  = PathLength.
Proof.
  intros HR Hcm Hr0 [[Hc ->] | [Hc Hl]].
  - unfold composed_distance, physics.getTraversedDistanceOfLayer.
    assert (E : fgeb cosine_zenith 0 = true) by (apply fgeb_true; exact Hc).
    rewrite E. reflexivity.
  - destruct MaxLayer as [|n]; [lia|].
    unfold composed_distance.
    rewrite outer_distances_telescope by (try assumption; lia).
    rewrite distance_innermost by (try assumption; lia).
    replace (Z.of_nat (S n) - 1)%Z with (Z.of_nat n) by lia.
    assert (D0 : physics.getTraversedDistanceOfLayer K radii (Z.of_nat 0)
                   (Z.of_nat (S n)) PathLength (-2 * cosine_zenith * REarthcm K)
                   cosine_zenith
                 = PathLength - -2 * cosine_zenith * REarthcm K).
    { unfold physics.getTraversedDistanceOfLayer.
      assert (E : fgeb cosine_zenith 0 = false) by (apply fgeb_false; lra).
      rewrite E. reflexivity. }
    rewrite D0, Hr0.
    assert (Hs : sqrt (REarth K * REarth K
                       - REarth K * REarth K * (1 - cosine_zenith * cosine_zenith))
                 = REarth K * - cosine_zenith).
    { replace (REarth K * REarth K
               - REarth K * REarth K * (1 - cosine_zenith * cosine_zenith))
        with ((REarth K * - cosine_zenith) * (REarth K * - cosine_zenith)) by ring.
      apply sqrt_square. apply Rmult_le_pos; lra. }
    rewrite Hs, Hcm. ring.
Qed.

End Distances.

(** The path through one layer of the sample Earth, vertically upwards. *)
Lemma composed_distance_is_path_length_witness :
  composed_distance sample.constants (fun _ => 6371) 1 1 (-2 * -1 * REarthcm sample.constants)
    (-1)
  = 1.
Proof.
  apply (composed_distance_is_path_length sample.constants (fun _ => 6371) 1 1 (-1)).
  - simpl. lra.
  - simpl. lra.
  - reflexivity.
  - right. split; [lra|lia].
Defined.

(** The distance travelled in the atmosphere, layer 0, is never shorter than
    the production height, and it is the production height on the two
    vertical paths. *)
Theorem atmosphere_distance_at_least_height (K : Constants) (radii : Z -> R)
  (MaxLayer : Z) (height cosine_zenith : R) :
  0 <= height -> 0 <= REarthcm K -> -1 <= cosine_zenith <= 1 ->
  let d := physics.getTraversedDistanceOfLayer K radii 0 MaxLayer
             (physics.path_length K height cosine_zenith)
             (-2 * cosine_zenith * REarthcm K) cosine_zenith in
  height <= d /\ (cosine_zenith = 1 \/ cosine_zenith = -1 -> d = height).
Proof.
  intros Hh HR Hc d.
  set (Rc := REarthcm K) in *.
  set (S := (Rc + height) * (Rc + height) - Rc * Rc * (1 - cosine_zenith * cosine_zenith)).
  assert (Hd : d = if fgeb cosine_zenith 0 then sqrt S - Rc * cosine_zenith
                   else sqrt S - Rc * cosine_zenith - -2 * cosine_zenith * Rc).
  { unfold d, physics.getTraversedDistanceOfLayer, physics.path_length. fold Rc. fold S.
    destruct (fgeb cosine_zenith 0); reflexivity. }
  assert (Hlow : forall x, 0 <= x -> x * x <= S -> x <= sqrt S).
  { intros x Hx Hxx. rewrite <- (sqrt_square x Hx). apply sqrt_le_1_alt. exact Hxx. }
  split.
  - rewrite Hd. destruct (fgeb cosine_zenith 0) eqn:E.
    + apply fgeb_true in E.
      assert (height + Rc * cosine_zenith <= sqrt S); [|lra].
      apply Hlow.
      * assert (0 <= Rc * cosine_zenith) by (apply Rmult_le_pos; lra). lra.
      * assert (H : 0 <= Rc * height * (1 - cosine_zenith))
          by (apply Rmult_le_pos; [apply Rmult_le_pos|]; lra).
        replace S with ((height + Rc * cosine_zenith) * (height + Rc * cosine_zenith)
                        + 2 * (Rc * height * (1 - cosine_zenith)))
          by (unfold S; ring).
        lra.
    + apply fgeb_false in E.
      assert (height - Rc * cosine_zenith <= sqrt S); [|lra].
      apply Hlow.
      * assert (0 <= Rc * - cosine_zenith) by (apply Rmult_le_pos; lra). lra.
      * assert (H : 0 <= Rc * height * (1 + cosine_zenith))
          by (apply Rmult_le_pos; [apply Rmult_le_pos|]; lra).
        replace S with ((height - Rc * cosine_zenith) * (height - Rc * cosine_zenith)
                        + 2 * (Rc * height * (1 + cosine_zenith)))
          by (unfold S; ring).
        lra.
  - intros Hv.
    assert (HS : sqrt S = Rc + height).
    { replace S with ((Rc + height) * (Rc + height)).
      - apply sqrt_square. lra.
      - unfold S. destruct Hv as [-> | ->]; ring. }
    rewrite Hd, HS. destruct Hv as [-> | ->].
    + assert (E : fgeb 1 0 = true) by (apply fgeb_true; lra). rewrite E. ring.
    + assert (E : fgeb (-1) 0 = false) by (apply fgeb_false; lra). rewrite E. ring.
Qed.

(** A horizontal path of the sample Earth from a height of 15 km. *)
Lemma atmosphere_distance_at_least_height_witness :
  1500000 <= physics.getTraversedDistanceOfLayer sample.constants (fun _ => 6371) 0 0
               (physics.path_length sample.constants 1500000 0)
               (-2 * 0 * REarthcm sample.constants) 0.
Proof.
  refine (proj1 (atmosphere_distance_at_least_height sample.constants (fun _ => 6371) 0
                   1500000 0 _ _ _)).
  - lra.
  - simpl. lra.
  - lra.
Defined.

(** ** The run as a whole *)





(** ** The result buffer of the CPU propagator *)

Section CpuBuffer.
Context {ProbType : Type} (ProbType_int : ProbType -> Z).

(** A propagator that was just constructed for a grid has a buffer of nine
    numbers for every bin and lists of the size of the grid, and
    [getProbability] returns 0 for every bin of the grid and every
    probability type. *)
Theorem fresh_CpuPropagator_reads_zero (n_cosines n_energies threads : Z)
  (uninit : propagator.Propagator) :
  (0 <= n_cosines < 2 ^ 31)%Z -> (0 <= n_energies < 2 ^ 31)%Z ->
  (n_cosines * n_energies * 9 < 2 ^ 64)%Z ->
  exists p,
    cpupropagator.CpuPropagator_new n_cosines n_energies threads uninit = Done p
    /\ Z.of_nat (length (cpupropagator.resultList p)) = (n_cosines * n_energies * 9)%Z
    /\ Z.of_nat (length (propagator.energyList (cpupropagator.base p))) = n_energies
    /\ Z.of_nat (length (propagator.cosineList (cpupropagator.base p))) = n_cosines
    /\ Z.of_nat (length (propagator.maxlayers (cpupropagator.base p))) = n_cosines
    /\ forall (index_cosine index_energy : Z) (t : ProbType),
         (0 <= index_cosine < n_cosines)%Z -> (0 <= index_energy < n_energies)%Z ->
         (0 <= ProbType_int t < 9)%Z ->
         cpupropagator.getProbability ProbType_int p index_cosine index_energy t = Done 0.
Proof.
  intros Hc He H64.
  unfold cpupropagator.CpuPropagator_new, propagator.Propagator_new.
  assert (E : ((n_energies <? 0) || (n_cosines <? 0))%Z = false).
  { apply orb_false_iff. split; apply Z.ltb_ge; lia. }
  rewrite E. cbn [bind].
  assert (Hnn : (0 <= n_cosines * n_energies)%Z) by (apply Z.mul_nonneg_nonneg; lia).
  assert (Hsz : u64 (u64 (u64 n_cosines * u64 n_energies) * u64 9)
                = (n_cosines * n_energies * 9)%Z).
  { rewrite (u64_small n_cosines), (u64_small n_energies), (u64_small 9) by lia.
    rewrite (u64_small (n_cosines * n_energies)) by lia.
    apply u64_small. lia. }
  rewrite Hsz.
  eexists. split; [reflexivity|]. cbn [cpupropagator.resultList cpupropagator.base
    propagator.energyList propagator.cosineList propagator.maxlayers].
  rewrite !length_replicate, !Z2Nat.id by lia.
  split; [reflexivity|]. split; [reflexivity|]. split; [reflexivity|]. split; [reflexivity|].
  intros ic ie t Hic Hie Ht.
  match goal with
  | |- cpupropagator.getProbability _ ?p _ _ _ = _ =>
      destruct (getProbability_in_range ProbType_int p ic ie t) as (x & Hx & Hlk)
  end.
  - cbn [cpupropagator.base propagator.n_cosines]. exact Hic.
  - cbn [cpupropagator.base propagator.n_energies]. exact Hie.
  - exact Ht.
  - cbn [cpupropagator.resultList cpupropagator.base propagator.n_cosines
         propagator.n_energies].
    rewrite length_replicate, Z2Nat.id by lia. reflexivity.
  - exact H64.
  - cbn [cpupropagator.resultList] in Hlk.
    apply lookup_replicate in Hlk. destruct Hlk as [-> _]. exact Hx.
Qed.

End CpuBuffer.

(** A propagator for two cosine bins and three energy bins. *)
Lemma fresh_CpuPropagator_reads_zero_witness :
  exists p,
    cpupropagator.CpuPropagator_new 2 3 1 sample.storage = Done p
    /\ cpupropagator.getProbability (fun t : Z => t) p 1 2 8%Z = Done 0.
Proof.
  destruct (fresh_CpuPropagator_reads_zero (fun t : Z => t) 2 3 1 sample.storage)
    as (p & Hp & _ & _ & _ & _ & Hall); [lia|lia|lia|].
  exists p. split; [exact Hp|].
  apply Hall; lia.
Defined.

(** The offset that the unsigned arithmetic of [getProbability] arrives at. *)
Lemma u64_offset (n_energies index_cosine index_energy t : Z) :
  u64 (physics.resultIndex n_energies index_cosine index_energy + u64 t)
  = ((index_cosine * n_energies * 9 + index_energy * 9 + t) mod 2 ^ 64)%Z.
Proof.
  unfold physics.resultIndex, u64.
  assert (HM : (2 ^ 64 <> 0)%Z) by lia.
  rewrite (Z.add_mod (index_cosine * n_energies * 9 + index_energy * 9) t) by exact HM.
  rewrite (Z.add_mod (index_cosine * n_energies * 9) (index_energy * 9)) by exact HM.
  rewrite (Z.mul_mod (index_cosine * n_energies) 9) by exact HM.
  rewrite (Z.mul_mod index_cosine n_energies) by exact HM.
  rewrite (Z.mul_mod index_energy 9) by exact HM.
  reflexivity.
Qed.

Section CpuGuard.
Context {ProbType : Type} (ProbType_int : ProbType -> Z).

(** [getProbability] rejects an index at or beyond the size of the grid
    with an exception, but it does not look at the sign: a negative cosine
    index passes the guard, the unsigned offset wraps around, and (as long
    as the buffer is not long enough to reach the wrapped offset) the read
    falls outside of the buffer. *)
Theorem getProbability_checks_upper_bound_only (p : cpupropagator.CpuPropagator)
  (index_cosine index_energy : Z) (t : ProbType) :
  (0 <= propagator.n_cosines (cpupropagator.base p))%Z ->
  (0 <= index_energy < propagator.n_energies (cpupropagator.base p))%Z ->
  (0 <= ProbType_int t < 9)%Z ->
  ((propagator.n_cosines (cpupropagator.base p) <= index_cosine)%Z ->
   cpupropagator.getProbability ProbType_int p index_cosine index_energy t
   = Throw "CpuPropagator::getProbability. Invalid indices")
  /\ ((index_cosine < 0)%Z ->
      (Z.of_nat (length (cpupropagator.resultList p))
       + 9 * propagator.n_energies (cpupropagator.base p) * (- index_cosine) <= 2 ^ 64)%Z ->
      cpupropagator.getProbability ProbType_int p index_cosine index_energy t
      = Undefined).
Proof.
  intros Hnc Hie Ht. split.
  - intros Hic. unfold cpupropagator.getProbability.
    assert (E : (index_cosine >=? propagator.n_cosines (cpupropagator.base p))%Z = true)
      by (rewrite Z.geb_leb; apply Z.leb_le; lia).
    rewrite E. reflexivity.
  - intros Hic Hlen.
    rewrite getProbability_unfold by lia.
    rewrite u64_offset.
    set (n_e := propagator.n_energies (cpupropagator.base p)) in *.
    set (len := length (cpupropagator.resultList p)) in *.
    assert (Hhi : (index_cosine * n_e <= - n_e)%Z).
    { assert (0 <= (- 1 - index_cosine) * n_e)%Z by (apply Z.mul_nonneg_nonneg; lia).
      lia. }
    set (v := (index_cosine * n_e * 9 + index_energy * 9 + ProbType_int t)%Z).
    assert (Hv1 : (v + 2 ^ 64 >= Z.of_nat len)%Z).
    { unfold v. replace (9 * n_e * - index_cosine)%Z with (- (index_cosine * n_e * 9))%Z
        in Hlen by ring. lia. }
    assert (Hv2 : (v < 0)%Z) by (unfold v; lia).
    assert (Hv : (v mod 2 ^ 64 = v + 2 ^ 64)%Z).
    { symmetry. apply (Z.mod_unique v (2 ^ 64) (-1) (v + 2 ^ 64)); [|ring].
      left. lia. }
    rewrite Hv. unfold cpupropagator.load.
    assert (E : (v + 2 ^ 64 <? 0)%Z = false) by (apply Z.ltb_ge; lia).
    rewrite E.
    rewrite lookup_ge_None_2; [reflexivity|]. fold len. lia.
Qed.

End CpuGuard.

(** The cosine index -1 on the grid of two by two bins. *)
Lemma getProbability_checks_upper_bound_only_witness :
  cpupropagator.getProbability (fun t : Z => t) sample.grid (-1) 0 4%Z = Undefined.
Proof.
  refine (proj2 (getProbability_checks_upper_bound_only (fun t : Z => t) sample.grid
                   (-1) 0 4%Z _ _ _) _ _).
  - simpl. lia.
  - simpl. lia.
  - lia.
  - lia.
  - simpl. lia.
Defined.

Section CpuArray.
Context {ProbType : Type} (ProbType_int : ProbType -> Z).

Local Abbreviation n_c p := (propagator.n_cosines (cpupropagator.base p)).
Local Abbreviation n_e p := (propagator.n_energies (cpupropagator.base p)).

(** [getProbabilityArr] writes one entry per bin and nothing else: the
    entries of the output array at and beyond the number of bins keep what
    they held. *)
Theorem getProbabilityArr_writes_bins_only
  (p : cpupropagator.CpuPropagator) (probArr : Z -> R) (t : ProbType) :
  (0 <= n_c p < 2 ^ 31)%Z -> (0 <= n_e p < 2 ^ 31)%Z ->
  (n_c p * n_e p * 9 < 2 ^ 64)%Z ->
  Z.of_nat (length (cpupropagator.resultList p)) = (n_c p * n_e p * 9)%Z ->
  (0 <= ProbType_int t < 9)%Z ->
  exists out,
    cpupropagator.getProbabilityArr ProbType_int p probArr t = Done out
    /\ forall i : Z, (i < 0 \/ n_c p * n_e p <= i)%Z -> out i = probArr i.
Proof.
  intros Hnc Hne H64 Hlen Ht.
  unfold cpupropagator.getProbabilityArr.
  rewrite (u64_small (n_e p)) by lia. rewrite (u64_small (n_c p)) by lia.
  set (Q := fun (m : Z) (st : Z * (Z -> R)) =>
              fst st = m /\
              forall i : Z, (i < 0 \/ m <= i)%Z -> snd st i = probArr i).
  match goal with
  | |- exists out, bind (for_range_o 0 ?n ?body ?a) _ = _ /\ _ =>
      destruct (for_range_o_inv (fun ie st => Q (Z.of_nat ie * n_c p)%Z st) body n 0 a)
        as (st & Hst & HQ)
  end.
  - split; reflexivity.
  - intros ie st Hie HQst.
    match goal with
    | |- exists x', for_range_o 0 ?n ?body ?a = _ /\ _ =>
        destruct (for_range_o_inv
                    (fun ic st => Q (Z.of_nat ie * n_c p + Z.of_nat ic)%Z st) body n 0 a)
          as (st' & Hst' & HQ')
    end.
    + rewrite Z.add_0_r. exact HQst.
    + intros ic [iter arr] Hic [Hiter HQs]. simpl in Hiter. subst iter.
      destruct (getProbability_in_range ProbType_int p (Z.of_nat ic) (Z.of_nat ie) t)
        as (x & Hx & Hlk); try lia.
      rewrite getProbability_unfold in Hx by lia.
      unfold physics.resultIndex in Hx. rewrite (u64_small (n_e p)) in Hx by lia.
      rewrite Hx. cbn [bind].
      eexists. split; [reflexivity|].
      assert (Hflat : (Z.of_nat ie * n_c p + Z.of_nat ic + 1 <= n_e p * n_c p)%Z).
      { assert ((Z.of_nat ie + 1) * n_c p <= n_e p * n_c p)%Z
          by (apply Z.mul_le_mono_nonneg_r; lia). lia. }
      assert (Hnn : (0 <= Z.of_nat ie * n_c p)%Z) by (apply Z.mul_nonneg_nonneg; lia).
      split.
      * simpl. rewrite u64_small by nia. lia.
      * intros i Hi. cbn [snd].
        destruct (Z.eqb_spec i (Z.of_nat ie * n_c p + Z.of_nat ic)) as [Heq|Hneq]; [lia|].
        apply HQs. lia.
    + exists st'. split; [exact Hst'|].
      destruct HQ' as [Hi HQ']. split.
      * rewrite Hi. simpl. rewrite Z2Nat.id by lia. lia.
      * intros i Hi'. apply HQ'. simpl. rewrite Z2Nat.id by lia. lia.
  - rewrite Hst. cbn [bind]. exists (snd st). split; [reflexivity|].
    intros i Hi. destruct HQ as [_ HQ]. apply HQ.
    simpl. rewrite Z2Nat.id by lia. lia.
Qed.

End CpuArray.

(** The entry after the four bins of the grid of two by two bins. *)
Lemma getProbabilityArr_writes_bins_only_witness :
  exists out,
    cpupropagator.getProbabilityArr (fun t : Z => t) sample.grid (fun _ => 7) 4%Z
    = Done out
    /\ out 4%Z = 7.
Proof.
  destruct (getProbabilityArr_writes_bins_only (fun t : Z => t) sample.grid
              (fun _ => 7) 4%Z) as (out & Hrun & Hall).
  - simpl. lia.
  - simpl. lia.
  - simpl. lia.
  - reflexivity.
  - lia.
  - exists out. split; [exact Hrun|].
    apply (Hall 4%Z). right. simpl. lia.
Defined.


(** ** The number of layers of a path *)

Lemma for_range_o_done_inv {A : Type} (P : nat -> A -> Prop)
  (body : nat -> A -> outcome A) (n lo : nat) (a a' : A) :
  for_range_o lo n body a = Done a' ->
  P lo a ->
  (forall i x x', (lo <= i < lo + n)%nat -> body i x = Done x' -> P i x -> P (S i) x') ->
  P (lo + n)%nat a'.
Proof.
  revert lo a. induction n as [|n IH]; intros lo a H H0 Hstep.
  - simpl in H. inversion H; subst. replace (lo + 0)%nat with lo by lia. exact H0.
  - simpl in H. destruct (body lo a) as [x| | |] eqn:E; try discriminate.
    cbn [bind] in H. replace (lo + S n)%nat with (S lo + n)%nat by lia.
    apply (IH (S lo) x); [exact H| |].
    + apply (Hstep lo a x); [lia|exact E|exact H0].
    + intros i y y' Hi. apply Hstep. lia.
Qed.

(** The steeper the path, the more thresholds lie above its cosine. *)
Lemma crossed_layers_antitone (coslimit : list R) (c1 c2 : R) :
  c1 <= c2 -> (crossed_layers coslimit c2 <= crossed_layers coslimit c1)%Z.
Proof.
  intros Hc. unfold crossed_layers. apply inj_le.
  induction coslimit as [|x l IH]; [reflexivity|].
  rewrite !filter_cons.
  destruct (decide (fltb c2 x = true)) as [H2|H2];
    destruct (decide (fltb c1 x = true)) as [H1|H1]; simpl; try lia.
  exfalso. apply H1. apply fltb_true. apply fltb_true in H2. lra.
Qed.

Lemma crossed_layers_bounds (coslimit : list R) (c : R) :
  (0 <= crossed_layers coslimit c <= Z.of_nat (length coslimit))%Z.
Proof.
  unfold crossed_layers. split; [lia|]. apply inj_le. apply length_filter.
Qed.

(** What one turn of the loop of [setMaxlayers] does when it returns. *)
Lemma setMaxlayers_step K (i : nat) (x x' : propagator.Propagator) :
  match propagator.cosineList x !! i with
  | None => Undefined
  | Some c =>
    let maxLayer :=
      Z.of_nat (length (filter (fun limit => fltb c limit = true) (propagator.coslimit x))) in
    if (maxLayer >? MaxNLayers K)%Z
    then Throw "setMaxlayers : invalid number of maxLayer"
    else if (i <? length (propagator.maxlayers x))%nat
    then Done (propagator.set_maxlayers (<[i := maxLayer]> (propagator.maxlayers x)) x)
    else Undefined
  end = Done x' ->
  exists c,
    propagator.cosineList x !! i = Some c
    /\ (crossed_layers (propagator.coslimit x) c <= MaxNLayers K)%Z
    /\ (i < length (propagator.maxlayers x))%nat
    /\ x' = propagator.set_maxlayers
              (<[i := crossed_layers (propagator.coslimit x) c]> (propagator.maxlayers x)) x.
Proof.
  intros H.
  destruct (propagator.cosineList x !! i) as [c|]; [|discriminate].
  cbv zeta in H. fold (crossed_layers (propagator.coslimit x) c) in H.
  destruct (crossed_layers (propagator.coslimit x) c >? MaxNLayers K)%Z eqn:E1;
    [discriminate|].
  destruct (i <? length (propagator.maxlayers x))%nat eqn:E2; [|discriminate].
  exists c. split; [reflexivity|]. split.
  - rewrite Z.gtb_ltb in E1. apply Z.ltb_ge in E1. exact E1.
  - split; [apply Nat.ltb_lt; exact E2|]. inversion H. reflexivity.
Qed.

(** A run of [setMaxlayers] that returns has stored, for every cosine bin,
    the number of thresholds above its cosine, and has changed nothing
    else. *)
Lemma setMaxlayers_done K (p p' : propagator.Propagator) :
  propagator.setMaxlayers K p = Done p' ->
  p' = propagator.set_maxlayers (propagator.maxlayers p') p
  /\ length (propagator.maxlayers p') = length (propagator.maxlayers p)
  /\ forall i : nat, (Z.of_nat i < propagator.n_cosines p)%Z ->
       exists c,
         propagator.cosineList p !! i = Some c
         /\ propagator.maxlayers p' !! i = Some (crossed_layers (propagator.coslimit p) c)
         /\ (crossed_layers (propagator.coslimit p) c <= MaxNLayers K)%Z.
Proof.
  intros H. unfold propagator.setMaxlayers in H.
  pose proof (for_range_o_done_inv
    (fun n q =>
       q = propagator.set_maxlayers (propagator.maxlayers q) p
       /\ length (propagator.maxlayers q) = length (propagator.maxlayers p)
       /\ forall i : nat, (i < n)%nat ->
            exists c,
              propagator.cosineList p !! i = Some c
              /\ propagator.maxlayers q !! i
                 = Some (crossed_layers (propagator.coslimit p) c)
              /\ (crossed_layers (propagator.coslimit p) c <= MaxNLayers K)%Z)
    _ _ _ _ _ H) as Hinv.
  destruct Hinv as (Hp & Hl & Hall).
  - split; [destruct p; reflexivity|]. split; [reflexivity|]. intros i Hi. lia.
  - intros i x x' Hi Hb (Hx & Hlx & Hbelow).
    apply setMaxlayers_step in Hb. destruct Hb as (c & Hc & Hm & Hlt & ->).
    assert (Hcos : propagator.cosineList x = propagator.cosineList p) by (rewrite Hx; reflexivity).
    assert (Hlim : propagator.coslimit x = propagator.coslimit p) by (rewrite Hx; reflexivity).
    rewrite Hcos in Hc. rewrite Hlim in Hm |- *.
    cbn [propagator.maxlayers propagator.set_maxlayers].
    split; [rewrite Hx at 2; reflexivity|].
    split; [rewrite length_insert; exact Hlx|].
    intros j Hj. destruct (Nat.eq_dec j i) as [->|Hne].
    + exists c. split; [exact Hc|]. split; [|exact Hm].
      apply list_lookup_insert_eq. exact Hlt.
    + destruct (Hbelow j ltac:(lia)) as (c' & Hc' & Hm' & Hb').
      exists c'. split; [exact Hc'|]. split; [|exact Hb'].
      rewrite list_lookup_insert_ne by lia. exact Hm'.
  - split; [exact Hp|]. split; [exact Hl|].
    intros i Hi. apply Hall. simpl. lia.
Qed.

(** [setMaxlayers] returns when the lists have the size of the grid and no
    cosine has more thresholds above it than [MaxNLayers]. *)
Lemma setMaxlayers_total K (p : propagator.Propagator) :
  Z.of_nat (length (propagator.cosineList p)) = propagator.n_cosines p ->
  length (propagator.maxlayers p) = length (propagator.cosineList p) ->
  (forall c, c ∈ propagator.cosineList p ->
             (crossed_layers (propagator.coslimit p) c <= MaxNLayers K)%Z) ->
  exists p', propagator.setMaxlayers K p = Done p'.
Proof.
  intros Hn Hl Hm. unfold propagator.setMaxlayers.
  destruct (for_range_o_inv
    (fun (n : nat) q =>
       propagator.cosineList q = propagator.cosineList p
       /\ propagator.coslimit q = propagator.coslimit p
       /\ length (propagator.maxlayers q) = length (propagator.maxlayers p))
    (fun index_cosine q =>
       match propagator.cosineList q !! index_cosine with
       | None => Undefined
       | Some c =>
         let maxLayer :=
           Z.of_nat (length (filter (fun limit => fltb c limit = true)
                               (propagator.coslimit q))) in
         if (maxLayer >? MaxNLayers K)%Z
         then Throw "setMaxlayers : invalid number of maxLayer"
         else if (index_cosine <? length (propagator.maxlayers q))%nat
         then Done (propagator.set_maxlayers
                      (<[index_cosine := maxLayer]> (propagator.maxlayers q)) q)
         else Undefined
       end)
    (Z.to_nat (propagator.n_cosines p)) 0 p) as (p' & Hrun & _).
  - repeat split; reflexivity.
  - intros i x Hi (Hc & Hlim & Hlen).
    assert (Hlt : (i < length (propagator.cosineList p))%nat) by lia.
    destruct (lookup_lt_is_Some_2 _ _ Hlt) as [c Hci].
    rewrite Hc, Hci. cbv zeta. rewrite Hlim.
    fold (crossed_layers (propagator.coslimit p) c).
    assert (E1 : (crossed_layers (propagator.coslimit p) c >? MaxNLayers K)%Z = false).
    { rewrite Z.gtb_ltb. apply Z.ltb_ge. apply Hm.
      apply list_elem_of_lookup. exists i. exact Hci. }
    rewrite E1.
    assert (E2 : (i <? length (propagator.maxlayers x))%nat = true)
      by (apply Nat.ltb_lt; lia).
    rewrite E2. eexists. split; [reflexivity|].
    cbn [propagator.cosineList propagator.coslimit propagator.maxlayers
         propagator.set_maxlayers].
    rewrite length_insert. repeat split; assumption.
  - exists p'. exact Hrun.
Qed.

(** [setMaxlayers] stores for every cosine bin the number of cosine
    thresholds above its cosine, a number between 0 and [MaxNLayers] that
    does not exceed the number of thresholds and does not grow with the
    cosine; it changes no other member. *)
Theorem setMaxlayers_layer_counts (K : Constants) (p p' : propagator.Propagator) :
  propagator.setMaxlayers K p = Done p' ->
  p' = propagator.set_maxlayers (propagator.maxlayers p') p
  /\ (forall i : nat, (Z.of_nat i < propagator.n_cosines p)%Z ->
        exists c m,
          propagator.cosineList p !! i = Some c
          /\ propagator.maxlayers p' !! i = Some m
          /\ m = crossed_layers (propagator.coslimit p) c
          /\ (0 <= m <= MaxNLayers K)%Z
          /\ (m <= Z.of_nat (length (propagator.coslimit p)))%Z)
  /\ (forall (i j : nat) (ci cj : R) (mi mj : Z),
        (Z.of_nat i < propagator.n_cosines p)%Z ->
        (Z.of_nat j < propagator.n_cosines p)%Z ->
        propagator.cosineList p !! i = Some ci -> propagator.cosineList p !! j = Some cj ->
        propagator.maxlayers p' !! i = Some mi -> propagator.maxlayers p' !! j = Some mj ->
        ci <= cj -> (mj <= mi)%Z).
Proof.
  intros H. destruct (setMaxlayers_done K p p' H) as (Hp & _ & Hall).
  split; [exact Hp|]. split.
  - intros i Hi. destruct (Hall i Hi) as (c & Hc & Hm & Hle).
    exists c, (crossed_layers (propagator.coslimit p) c).
    pose proof (crossed_layers_bounds (propagator.coslimit p) c).
    repeat split; try assumption; lia.
  - intros i j ci cj mi mj Hi Hj Hci Hcj Hmi Hmj Hle.
    destruct (Hall i Hi) as (c1 & Hc1 & Hm1 & _).
    destruct (Hall j Hj) as (c2 & Hc2 & Hm2 & _).
    rewrite Hci in Hc1. rewrite Hcj in Hc2. inversion Hc1; inversion Hc2; subst c1 c2.
    rewrite Hmi in Hm1. rewrite Hmj in Hm2. inversion Hm1; inversion Hm2; subst mi mj.
    apply crossed_layers_antitone. exact Hle.
Qed.

(** [setMaxlayers] cannot throw when there are at most [MaxNLayers] cosine
    thresholds: it returns whenever the cosine list and [maxlayers] have the
    size of the grid. *)
Theorem setMaxlayers_returns_within_capacity (K : Constants) (p : propagator.Propagator) :
  Z.of_nat (length (propagator.cosineList p)) = propagator.n_cosines p ->
  length (propagator.maxlayers p) = length (propagator.cosineList p) ->
  (Z.of_nat (length (propagator.coslimit p)) <= MaxNLayers K)%Z ->
  exists p', propagator.setMaxlayers K p = Done p'.
Proof.
  intros Hn Hl Hcap. apply setMaxlayers_total; [exact Hn|exact Hl|].
  intros c _. pose proof (crossed_layers_bounds (propagator.coslimit p) c). lia.
Qed.

(** The grid of two cosine bins with the thresholds 0 and -1/2. *)
Lemma setMaxlayers_returns_within_capacity_witness :
  exists p',
    propagator.setMaxlayers sample.constants
      (propagator.set_coslimit [0; -0.5] (cpupropagator.base sample.grid))
    = Done p'.
Proof.
  apply (setMaxlayers_returns_within_capacity sample.constants
           (propagator.set_coslimit [0; -0.5] (cpupropagator.base sample.grid))).
  - reflexivity.
  - reflexivity.
  - simpl. lia.
Defined.

Lemma setMaxlayers_layer_counts_witness :
  exists p',
    propagator.setMaxlayers sample.constants
      (propagator.set_coslimit [0; -0.5] (cpupropagator.base sample.grid))
    = Done p'
    /\ p' = propagator.set_maxlayers (propagator.maxlayers p')
              (propagator.set_coslimit [0; -0.5] (cpupropagator.base sample.grid)).
Proof.
  destruct (setMaxlayers_total sample.constants
              (propagator.set_coslimit [0; -0.5] (cpupropagator.base sample.grid)))
    as (p' & Hp').
  - reflexivity.
  - reflexivity.
  - intros c _.
    pose proof (crossed_layers_bounds [0; -0.5] c) as Hb. simpl in Hb |- *. lia.
  - exists p'. split; [exact Hp'|].
    exact (proj1 (setMaxlayers_layer_counts sample.constants _ p' Hp')).
Defined.

(** The cosine thresholds: none is positive, and the first one is 0. *)
Lemma imap_nonpos (f : nat -> R -> R) (l : list R) :
  (forall i r, f i r <= 0) -> forall x, x ∈ imap f l -> x <= 0.
Proof.
  revert f. induction l as [|r l IH]; intros f Hf x Hx.
  - inversion Hx.
  - simpl in Hx. apply elem_of_cons in Hx. destruct Hx as [->|Hx]; [apply Hf|].
    apply (IH (f ∘ S)); [intros i r'; apply Hf|exact Hx].
Qed.

Lemma cosine_limits_nonpos (K : Constants) (radii : list R) (x : R) :
  x ∈ propagator.cosine_limits K radii -> x <= 0.
Proof.
  unfold propagator.cosine_limits. apply imap_nonpos.
  intros i r. destruct (Nat.eqb i 0); [lra|].
  pose proof (sqrt_pos (1 - r * r / (REarth K * REarth K))). lra.
Qed.

Lemma crossed_layers_cosine_limits (K : Constants) (radii : list R) (c : R) :
  radii <> [] ->
  (0 <= c -> crossed_layers (propagator.cosine_limits K radii) c = 0%Z)
  /\ (c < 0 -> (1 <= crossed_layers (propagator.cosine_limits K radii) c)%Z).
Proof.
  intros Hne. split.
  - intros Hc. unfold crossed_layers.
    assert (H : filter (fun limit => fltb c limit = true) (propagator.cosine_limits K radii)
                = []).
    { assert (Hall : forall x, x ∈ propagator.cosine_limits K radii -> x <= 0)
        by (intros x; apply cosine_limits_nonpos).
      induction (propagator.cosine_limits K radii) as [|x l IH]; [reflexivity|].
      rewrite filter_cons.
      destruct (decide (fltb c x = true)) as [Hf|Hf].
      - exfalso. apply fltb_true in Hf.
        pose proof (Hall x ltac:(left)). lra.
      - apply IH. intros y Hy. apply Hall. right. exact Hy. }
    rewrite H. reflexivity.
  - intros Hc. destruct radii as [|r rest]; [congruence|].
    unfold crossed_layers, propagator.cosine_limits. simpl imap.
    rewrite filter_cons.
    destruct (decide (fltb c 0 = true)) as [H|H].
    + simpl. lia.
    + exfalso. apply H. apply fltb_true. exact Hc.
Qed.

(** A call of [setDensity] that returns has run [setMaxlayers] on the
    thresholds of the stored radii. *)
Lemma setDensity_done (K : Constants) (radii_ rhos_ yps_ : list R)
  (p p' : propagator.Propagator) :
  propagator.setDensity K radii_ rhos_ yps_ p = Done p' ->
  exists p1,
    propagator.setMaxlayers K p1 = Done p'
    /\ propagator.coslimit p1 = propagator.cosine_limits K (propagator.radii p1)
    /\ propagator.radii p1 <> []
    /\ propagator.cosineList p1 = propagator.cosineList p
    /\ propagator.n_cosines p1 = propagator.n_cosines p.
Proof.
  unfold propagator.setDensity.
  destruct (negb (length rhos_ =? length radii_)%nat) eqn:E1; [discriminate|].
  destruct (negb (length rhos_ =? length yps_)%nat) eqn:E2; [discriminate|].
  destruct ((length rhos_ =? 0)%nat || (length radii_ =? 0)%nat || (length yps_ =? 0)%nat)
    eqn:E3; [discriminate|].
  assert (Hne : radii_ <> []).
  { intros ->. simpl in E3. rewrite orb_true_r in E3. discriminate. }
  match goal with
  | |- match ?chk with _ => _ end = _ -> _ => destruct chk as [needFlip|]
  end; [|discriminate].
  intros H. eexists. split; [exact H|].
  destruct needFlip; simpl_fields;
    (split; [reflexivity|]); (split; [|split; reflexivity]).
  - intros Hr. apply (f_equal (@length R)) in Hr. rewrite length_reverse in Hr.
    destruct radii_; [congruence|discriminate].
  - exact Hne.
Qed.

(** After [setDensity] the paths from above cross no layer of the Earth and
    every path from below crosses at least one: the layer count of a cosine
    bin is 0 exactly when its cosine is not negative. *)
Theorem setDensity_layer_counts (K : Constants) (radii_ rhos_ yps_ : list R)
  (p p' : propagator.Propagator) (i : nat) :
  propagator.setDensity K radii_ rhos_ yps_ p = Done p' ->
  (Z.of_nat i < propagator.n_cosines p)%Z ->
  exists c m,
    propagator.cosineList p' !! i = Some c
    /\ propagator.maxlayers p' !! i = Some m
    /\ (0 <= c -> m = 0%Z)
    /\ (c < 0 -> (1 <= m <= MaxNLayers K)%Z).
Proof.
  intros H Hi.
  destruct (setDensity_done K radii_ rhos_ yps_ p p' H) as (p1 & Hrun & Hlim & Hne & Hcos & Hn).
  destruct (setMaxlayers_done K p1 p' Hrun) as (Hp & _ & Hall).
  destruct (Hall i ltac:(lia)) as (c & Hc & Hm & Hle).
  exists c, (crossed_layers (propagator.coslimit p1) c).
  assert (Hc' : propagator.cosineList p' = propagator.cosineList p1)
    by (rewrite Hp; reflexivity).
  rewrite Hc'. split; [exact Hc|]. split; [exact Hm|].
  rewrite Hlim in Hle |- *.
  destruct (crossed_layers_cosine_limits K (propagator.radii p1) c Hne) as [H0 H1].
  split; [exact H0|]. intros Hneg. specialize (H1 Hneg). lia.
Qed.

(** An Earth of one layer on the grid of two cosine bins. *)
Lemma setDensity_one_layer :
  exists p',
    propagator.setDensity sample.constants [6371] [3] [0.5]
      (cpupropagator.base sample.grid) = Done p'.
Proof.
  unfold propagator.setDensity. cbn [length Nat.eqb negb orb].
  apply setMaxlayers_total.
  - reflexivity.
  - reflexivity.
  - intros c _.
    match goal with
    | |- (crossed_layers ?l c <= _)%Z =>
        pose proof (crossed_layers_bounds l c) as Hb
    end.
    simpl in Hb |- *. lia.
Qed.

Lemma setDensity_layer_counts_witness :
  exists p' c m,
    propagator.setDensity sample.constants [6371] [3] [0.5]
      (cpupropagator.base sample.grid) = Done p'
    /\ propagator.cosineList p' !! 0%nat = Some c
    /\ propagator.maxlayers p' !! 0%nat = Some m
    /\ (0 <= c -> m = 0%Z).
Proof.
  destruct setDensity_one_layer as (p' & Hp').
  destruct (setDensity_layer_counts sample.constants [6371] [3] [0.5]
              (cpupropagator.base sample.grid) p' 0 Hp' ltac:(simpl; lia))
    as (c & m & Hc & Hm & H0 & _).
  exists p', c, m. repeat split; assumption.
Defined.

(** ** The polynomial density *)

Ltac simpl_poly_fields :=
  cbn [propagator.radii propagator.rhos propagator.yps propagator.coslimit
       propagator.as_ propagator.bs propagator.cs propagator.UsePolyDensity
       propagator.maxlayers propagator.set_maxlayers
       propagator.set_coslimit propagator.set_yps propagator.set_rhos
       propagator.set_as_ propagator.set_bs propagator.set_cs
       propagator.set_radii propagator.set_UsePolyDensity] in *.

(** [setDensity] with polynomial coefficients stores the radii, the three
    lists of coefficients and the electron fractions in descending order of
    the radius, all five reversed exactly when the first step of the radii
    ascends; it sets [UsePolyDensity] and leaves the constant densities
    alone.  Only [a_] and [yps_] are compared with the radii in size: of
    [b_] and [c_] it is only known that they are not empty. *)
Theorem setDensity_poly_canonical_order (K : Constants)
  (radii_ a_ b_ c_ yps_ : list R) (p p' : propagator.Propagator) :
  propagator.setDensity_poly K radii_ a_ b_ c_ yps_ p = Done p' ->
  let flipped := first_step_ascends radii_ in
  propagator.radii p' = (if flipped then reverse radii_ else radii_)
  /\ propagator.as_ p' = (if flipped then reverse a_ else a_)
  /\ propagator.bs p' = (if flipped then reverse b_ else b_)
  /\ propagator.cs p' = (if flipped then reverse c_ else c_)
  /\ propagator.yps p' = (if flipped then reverse yps_ else yps_)
  /\ descending (propagator.radii p')
  /\ propagator.UsePolyDensity p' = true
  /\ propagator.rhos p' = propagator.rhos p
  /\ length a_ = length radii_ /\ length yps_ = length radii_
  /\ b_ <> [] /\ c_ <> [].
Proof.
  pose proof (setDensity_check radii_) as Hchk.
  unfold propagator.setDensity_poly.
  destruct (negb (length a_ =? length radii_)%nat) eqn:E1; [discriminate|].
  destruct (negb (length a_ =? length yps_)%nat) eqn:E2; [discriminate|].
  destruct ((length a_ =? 0)%nat || (length b_ =? 0)%nat || (length c_ =? 0)%nat
            || (length radii_ =? 0)%nat || (length yps_ =? 0)%nat) eqn:E3; [discriminate|].
  apply negb_false_iff, Nat.eqb_eq in E1. apply negb_false_iff, Nat.eqb_eq in E2.
  repeat (apply orb_false_iff in E3; destruct E3 as [E3 ?]).
  assert (Hb : b_ <> []) by (intros ->; discriminate).
  assert (Hc : c_ <> []) by (intros ->; discriminate).
  assert (Hfin : forall needFlip q,
    needFlip = first_step_ascends radii_ ->
    (needFlip = true -> ascending radii_) -> (needFlip = false -> descending radii_) ->
    propagator.setMaxlayers K q = Done p' ->
    propagator.radii q = (if needFlip then reverse radii_ else radii_) ->
    propagator.as_ q = (if needFlip then reverse a_ else a_) ->
    propagator.bs q = (if needFlip then reverse b_ else b_) ->
    propagator.cs q = (if needFlip then reverse c_ else c_) ->
    propagator.yps q = (if needFlip then reverse yps_ else yps_) ->
    propagator.UsePolyDensity q = true ->
    propagator.rhos q = propagator.rhos p ->
    let flipped := first_step_ascends radii_ in
    propagator.radii p' = (if flipped then reverse radii_ else radii_)
    /\ propagator.as_ p' = (if flipped then reverse a_ else a_)
    /\ propagator.bs p' = (if flipped then reverse b_ else b_)
    /\ propagator.cs p' = (if flipped then reverse c_ else c_)
    /\ propagator.yps p' = (if flipped then reverse yps_ else yps_)
    /\ descending (propagator.radii p')
    /\ propagator.UsePolyDensity p' = true
    /\ propagator.rhos p' = propagator.rhos p
    /\ length a_ = length radii_ /\ length yps_ = length radii_
    /\ b_ <> [] /\ c_ <> []).
  { intros needFlip q Hnf Hasc Hdesc Hrun Hr Ha Hbs Hcs Hy Hu Hrho. cbv zeta.
    destruct (setMaxlayers_done K q p' Hrun) as (Hp & _).
    rewrite <- Hnf.
    assert (Fr : propagator.radii p' = propagator.radii q) by (rewrite Hp; reflexivity).
    assert (Fa : propagator.as_ p' = propagator.as_ q) by (rewrite Hp; reflexivity).
    assert (Fb : propagator.bs p' = propagator.bs q) by (rewrite Hp; reflexivity).
    assert (Fc : propagator.cs p' = propagator.cs q) by (rewrite Hp; reflexivity).
    assert (Fy : propagator.yps p' = propagator.yps q) by (rewrite Hp; reflexivity).
    assert (Fu : propagator.UsePolyDensity p' = propagator.UsePolyDensity q)
      by (rewrite Hp; reflexivity).
    assert (Fo : propagator.rhos p' = propagator.rhos q) by (rewrite Hp; reflexivity).
    rewrite Fr, Fa, Fb, Fc, Fy, Fu, Fo, Hr, Ha, Hbs, Hcs, Hy, Hu, Hrho.
    repeat (split; [reflexivity|]).
    split.
    { destruct needFlip.
      - apply Sorted_reverse. apply Hasc. reflexivity.
      - apply Hdesc. reflexivity. }
    repeat (split; [reflexivity|]).
    split; [exact E1|]. split; [congruence|]. split; assumption. }
  destruct radii_ as [|r0 [|r1 rest]].
  - discriminate.
  - destruct Hchk as [Hf Hd]. intros Hrun.
    apply (Hfin false _ (eq_sym Hf)) in Hrun; simpl_poly_fields;
      try reflexivity; try discriminate.
    + exact Hrun.
    + intros _. exact Hd.
  - cbv zeta in Hchk.
    destruct (propagator.order_messed_up _ r0 (r1 :: rest)) eqn:Eo; [discriminate|].
    destruct Hchk as (Hs & Hasc & Hdesc). rewrite Hs. intros Hrun.
    destruct (first_step_ascends (r0 :: r1 :: rest)) eqn:Ef.
    + apply (Hfin true) in Hrun; simpl_poly_fields; try reflexivity; try discriminate.
      * exact Hrun.
      * intros _. apply Hasc. reflexivity.
    + apply (Hfin false) in Hrun; simpl_poly_fields; try reflexivity; try discriminate.
      * exact Hrun.
      * intros _. apply Hdesc. reflexivity.
Qed.

(** Two layers with coefficient lists [b_] and [c_] of one entry. *)
Lemma setDensity_poly_two_layers :
  exists p',
    propagator.setDensity_poly sample.constants [6371; 3480] [1; 2] [0] [0] [0.5; 0.5]
      (cpupropagator.base sample.grid) = Done p'.
Proof.
  unfold propagator.setDensity_poly. cbn [length Nat.eqb negb orb].
  assert (E1 : fltb 0 (3480 - 6371) = false) by (apply fltb_false; lra).
  rewrite E1. cbn [propagator.order_messed_up].
  assert (E2 : fltb ((3480 - 6371) * IZR (-1)) 0 = false) by (apply fltb_false; lra).
  rewrite E2. cbn [Z.eqb].
  apply setMaxlayers_total.
  - reflexivity.
  - reflexivity.
  - intros c _.
    match goal with
    | |- (crossed_layers ?l c <= _)%Z =>
        pose proof (crossed_layers_bounds l c) as Hb
    end.
    simpl in Hb |- *. lia.
Qed.

Lemma setDensity_poly_canonical_order_witness :
  exists p',
    propagator.setDensity_poly sample.constants [6371; 3480] [1; 2] [0] [0] [0.5; 0.5]
      (cpupropagator.base sample.grid) = Done p'
    /\ propagator.bs p'
       = (if first_step_ascends [6371; 3480] then reverse [0] else [0])
    /\ descending (propagator.radii p').
Proof.
  destruct setDensity_poly_two_layers as (p' & Hp').
  exists p'. split; [exact Hp'|].
  destruct (setDensity_poly_canonical_order sample.constants [6371; 3480] [1; 2] [0] [0]
              [0.5; 0.5] (cpupropagator.base sample.grid) p' Hp')
    as (_ & _ & Hb & _ & _ & Hd & _).
  split; [exact Hb|exact Hd].
Defined.

(** ** The chemical composition *)

(** The list after [n] turns of an entry by entry copy of [src] over
    [dst]. *)
Lemma insert_take_drop (src dst : list R) (i : nat) (x : R) :
  src !! i = Some x -> (i < length dst)%nat ->
  <[i := x]> (take i src ++ drop i dst) = take (S i) src ++ drop (S i) dst.
Proof.
  intros Hx Hi.
  assert (Hls : (i < length src)%nat) by (apply lookup_lt_is_Some; eauto).
  rewrite insert_app_r_alt by (rewrite length_take; lia).
  rewrite length_take. replace (i - i `min` length src)%nat with 0%nat by lia.
  destruct (lookup_lt_is_Some_2 dst i Hi) as [y Hy].
  rewrite (drop_S dst y i Hy). cbn [insert list_insert].
  rewrite (take_S_r src i x Hx). rewrite <- app_assoc. reflexivity.
Qed.

(** [setChemicalComposition] throws on a list whose size is not the size of
    the stored electron fractions; otherwise the electron fractions become
    the list, and nothing else changes. *)
Theorem setChemicalComposition_replaces_yps (list : list R)
  (p : cpupropagator.CpuPropagator) :
  (Z.of_nat (length list) < 2 ^ 31)%Z ->
  (length list <> length (propagator.yps (cpupropagator.base p)) ->
   cpupropagator.setChemicalComposition list p
   = Throw "CpuPropagator::setChemicalComposition. Size of input list not equal to expectation.")
  /\ (length list = length (propagator.yps (cpupropagator.base p)) ->
      cpupropagator.setChemicalComposition list p
      = Done {| cpupropagator.base := propagator.set_yps list (cpupropagator.base p);
                cpupropagator.resultList := cpupropagator.resultList p |}).
Proof.
  intros Hint. unfold cpupropagator.setChemicalComposition. split.
  - intros Hne. apply Nat.eqb_neq in Hne. rewrite Hne. reflexivity.
  - intros Heq. rewrite Heq, Nat.eqb_refl. cbn [negb]. rewrite <- Heq.
    set (b0 := cpupropagator.base p) in *.
    match goal with
    | |- bind (for_range_o 0 ?n ?body ?a) _ = _ =>
        destruct (for_range_o_inv
          (fun k b => b = propagator.set_yps (take k list ++ drop k (propagator.yps b0)) b0)
          body n 0 a) as (b' & Hrun & Hb')
    end.
    + simpl. destruct b0. reflexivity.
    + intros i b Hi ->.
      assert (E : (2 ^ 31 <=? Z.of_nat i)%Z = false) by (apply Z.leb_gt; lia).
      rewrite E.
      destruct (lookup_lt_is_Some_2 list i ltac:(lia)) as [x Hx]. rewrite Hx.
      cbn [propagator.yps propagator.set_yps].
      assert (Hlen : length (take i list ++ drop i (propagator.yps b0)) = length list).
      { rewrite length_app, length_take, length_drop. lia. }
      assert (E2 : (i <? length (take i list ++ drop i (propagator.yps b0)))%nat = true)
        by (apply Nat.ltb_lt; lia).
      rewrite E2. eexists. split; [reflexivity|].
      rewrite insert_take_drop by (try assumption; lia). reflexivity.
    + rewrite Hrun. cbn [bind]. rewrite Hb'. simpl plus.
      rewrite take_ge by lia. rewrite drop_ge by lia. rewrite app_nil_r. reflexivity.
Qed.

(** Three layers. *)
Lemma setChemicalComposition_replaces_yps_witness :
  cpupropagator.setChemicalComposition [0.5; 0.4; 0.3]
    {| cpupropagator.base := propagator.set_yps [1; 1; 1] sample.storage;
       cpupropagator.resultList := [] |}
  = Done {| cpupropagator.base :=
              propagator.set_yps [0.5; 0.4; 0.3] (propagator.set_yps [1; 1; 1] sample.storage);
            cpupropagator.resultList := [] |}.
Proof.
  apply (setChemicalComposition_replaces_yps [0.5; 0.4; 0.3]
           {| cpupropagator.base := propagator.set_yps [1; 1; 1] sample.storage;
              cpupropagator.resultList := [] |}).
  - simpl. lia.
  - reflexivity.
Defined.

(** ** The production heights *)

(** The copy loop of [setProductionHeightList] writes the source over the
    start of the destination when it fits. *)
Lemma copy_prefix_done (src dst : list R) :
  (length src <= length dst)%nat ->
  propagator.copy_prefix src dst = Done (src ++ drop (length src) dst).
Proof.
  intros Hle. unfold propagator.copy_prefix.
  destruct (for_range_o_inv
    (fun k v => v = take k src ++ drop k dst)
    (fun i v => match src !! i with
                | Some x => store v (Z.of_nat i) x
                | None => Undefined
                end)
    (length src) 0 dst) as (v & Hrun & Hv).
  - reflexivity.
  - intros i v Hi ->.
    destruct (lookup_lt_is_Some_2 src i ltac:(lia)) as [x Hx]. rewrite Hx.
    assert (Hlen : length (take i src ++ drop i dst) = length dst).
    { rewrite length_app, length_take, length_drop. lia. }
    rewrite store_done by (rewrite Hlen; lia).
    eexists. split; [reflexivity|].
    rewrite Nat2Z.id. apply insert_take_drop; [exact Hx|lia].
  - rewrite Hrun, Hv. simpl plus. rewrite take_ge by lia. reflexivity.
Qed.

Section ProductionHeights.
Context (MaxProdHeightBins : Z).

(** [SetNumberOfProductionHeightBinsForAveraging] rejects a number above
    [MaxProdHeightBins]; it switches the averaging on for a number of at
    least 1, and it never switches it off: after a call with a number of at
    least 1, a later call with any admitted number, 0 included, leaves the
    averaging on. *)
Theorem averaging_stays_on (n1 n2 : Z) (p : propagator.Propagator) :
  (1 <= n1 <= MaxProdHeightBins)%Z -> (n2 <= MaxProdHeightBins)%Z ->
  exists p1 p2,
    propagator.SetNumberOfProductionHeightBinsForAveraging MaxProdHeightBins n1 p = Done p1
    /\ propagator.useProductionHeightAveraging p1 = true
    /\ propagator.nProductionHeightBins p1 = n1
    /\ propagator.SetNumberOfProductionHeightBinsForAveraging MaxProdHeightBins n2 p1
       = Done p2
    /\ propagator.useProductionHeightAveraging p2 = true
    /\ propagator.nProductionHeightBins p2 = n2.
Proof.
  intros H1 H2. unfold propagator.SetNumberOfProductionHeightBinsForAveraging.
  assert (E1 : (n1 >? MaxProdHeightBins)%Z = false) by (rewrite Z.gtb_ltb; apply Z.ltb_ge; lia).
  assert (E2 : (n2 >? MaxProdHeightBins)%Z = false) by (rewrite Z.gtb_ltb; apply Z.ltb_ge; lia).
  rewrite E1, E2. cbn [propagator.nProductionHeightBins propagator.set_nProductionHeightBins].
  assert (E3 : (n1 >=? 1)%Z = true) by (rewrite Z.geb_leb; apply Z.leb_le; lia).
  rewrite E3.
  eexists. eexists. split; [reflexivity|]. split; [reflexivity|]. split; [reflexivity|].
  split; [reflexivity|].
  destruct (n2 >=? 1)%Z; split; reflexivity.
Qed.

(** With the averaging switched on and lists of the expected sizes,
    [setProductionHeightList] stores the weights followed by zeros up to the
    size for [MaxProdHeightBins] bins, and the bin edges followed by zeros up
    to [MaxProdHeightBins + 1] entries. *)
Theorem setProductionHeightList_pads (list_prob list_bins : list R)
  (p : propagator.Propagator) :
  let n := propagator.nProductionHeightBins p in
  let n_e := propagator.n_energies p in
  let n_c := propagator.n_cosines p in
  propagator.useProductionHeightAveraging p = true ->
  (0 <= n <= MaxProdHeightBins)%Z -> (0 < n_e)%Z -> (0 < n_c)%Z ->
  (MaxProdHeightBins * 2 * 3 * n_e * n_c < 2 ^ 31)%Z ->
  Z.of_nat (length list_prob) = (n * 2 * 3 * n_e * n_c)%Z ->
  Z.of_nat (length list_bins) = (n + 1)%Z ->
  exists p',
    propagator.setProductionHeightList MaxProdHeightBins list_prob list_bins p = Done p'
    /\ propagator.productionHeightList_prob p'
       = list_prob
         ++ replicate (Z.to_nat (MaxProdHeightBins * 2 * 3 * n_e * n_c) - length list_prob) 0
    /\ propagator.productionHeightList_bins p'
       = list_bins ++ replicate (Z.to_nat (MaxProdHeightBins + 1) - length list_bins) 0
    /\ propagator.isSetProductionHeightArray p' = true.
Proof.
  intros n n_e n_c Hon Hn He Hc Hmax Hlp Hlb.
  unfold propagator.setProductionHeightList. rewrite Hon. cbn [negb].
  fold n n_e n_c.
  assert (M1 : (0 <= MaxProdHeightBins * 2 * 3)%Z) by lia.
  assert (M2 : (MaxProdHeightBins * 2 * 3 <= MaxProdHeightBins * 2 * 3 * n_e)%Z) by nia.
  assert (M3 : (MaxProdHeightBins * 2 * 3 * n_e
                <= MaxProdHeightBins * 2 * 3 * n_e * n_c)%Z) by nia.
  assert (N1 : (0 <= n * 2 * 3)%Z) by lia.
  assert (N2 : (n * 2 * 3 * n_e <= MaxProdHeightBins * 2 * 3 * n_e)%Z) by nia.
  assert (N3 : (n * 2 * 3 * n_e * n_c <= MaxProdHeightBins * 2 * 3 * n_e * n_c)%Z) by nia.
  assert (N4 : (0 <= n * 2 * 3 * n_e)%Z) by nia.
  assert (N5 : (0 <= n * 2 * 3 * n_e * n_c)%Z) by nia.
  assert (Hin : forall z, (0 <= z < 2 ^ 31)%Z -> propagator.in_int z = true).
  { intros z Hz. unfold propagator.in_int. apply andb_true_iff.
    split; [apply Z.leb_le|apply Z.ltb_lt]; lia. }
  rewrite !Hin by lia. cbn [andb negb].
  rewrite (u64_small (n * 2 * 3 * n_e * n_c)) by lia.
  rewrite Hlp, Z.eqb_refl. cbn [negb].
  rewrite Hlb. replace (n + 1 - 1)%Z with n by lia. rewrite Z.eqb_refl. cbn [negb].
  assert (E1 : (MaxProdHeightBins * 2 * 3 * n_e * n_c <? 0)%Z = false)
    by (apply Z.ltb_ge; lia).
  rewrite E1.
  rewrite copy_prefix_done by (rewrite length_replicate; lia).
  cbn [bind].
  assert (E2 : (MaxProdHeightBins + 1 <? 0)%Z = false) by (apply Z.ltb_ge; lia).
  assert (E3 : (MaxProdHeightBins <? 0)%Z = false) by (apply Z.ltb_ge; lia).
  rewrite E2, E3.
  rewrite copy_prefix_done by (rewrite length_replicate; lia).
  cbn [bind].
  eexists. split; [reflexivity|].
  cbn [propagator.productionHeightList_prob propagator.productionHeightList_bins
       propagator.isSetProductionHeightArray propagator.set_isSetProductionHeightArray
       propagator.set_productionHeightList_bins propagator.set_productionHeightList_prob].
  rewrite !drop_replicate. repeat split; reflexivity.
Qed.

End ProductionHeights.

(** Two bins, then none, with room for twenty. *)
Lemma averaging_stays_on_witness :
  exists p1 p2,
    propagator.SetNumberOfProductionHeightBinsForAveraging 20 2 sample.storage = Done p1
    /\ propagator.SetNumberOfProductionHeightBinsForAveraging 20 0 p1 = Done p2
    /\ propagator.useProductionHeightAveraging p2 = true
    /\ propagator.nProductionHeightBins p2 = 0%Z.
Proof.
  destruct (averaging_stays_on 20 2 0 sample.storage)
    as (p1 & p2 & H1 & _ & _ & H2 & Hon & Hn); [lia|lia|].
  exists p1, p2. repeat split; assumption.
Defined.

(** One production height bin on the grid of two by two bins, with room for
    two. *)
Lemma setProductionHeightList_pads_witness :
  exists p',
    propagator.setProductionHeightList 2 (replicate 24 0.05) [0; 10]
      (propagator.set_useProductionHeightAveraging true
         (propagator.set_nProductionHeightBins 1 (cpupropagator.base sample.grid)))
    = Done p'
    /\ propagator.productionHeightList_bins p' = [0; 10] ++ replicate (3 - 2) 0.
Proof.
  destruct (setProductionHeightList_pads 2 (replicate 24 0.05) [0; 10]
              (propagator.set_useProductionHeightAveraging true
                 (propagator.set_nProductionHeightBins 1 (cpupropagator.base sample.grid))))
    as (p' & Hrun & _ & Hbins & _).
  - reflexivity.
  - simpl. lia.
  - simpl. lia.
  - simpl. lia.
  - simpl. lia.
  - reflexivity.
  - reflexivity.
  - exists p'. split; [exact Hrun|exact Hbins].
Defined.

(** ** Copies *)

Section Copies.
Context {ProbType : Type} (ProbType_int : ProbType -> Z).

(** A copy-constructed propagator has the lists and the result buffer of
    the original, but not the size of its grid: the assignment operator
    names neither [n_cosines] nor [n_energies], so the copy keeps the values
    that its storage held.  [getProbability] on the copy therefore checks
    the indices against those values: it throws for every index at or beyond
    them, whatever the original holds, and it agrees with the original when
    they happen to be the sizes of the original. *)
Theorem copy_leaves_grid_size_unset (other : cpupropagator.CpuPropagator)
  (uninit : propagator.Propagator) (index_cosine index_energy : Z) (t : ProbType) :
  let copy := cpupropagator.CpuPropagator_copy other uninit in
  cpupropagator.resultList copy = cpupropagator.resultList other
  /\ propagator.energyList (cpupropagator.base copy)
     = propagator.energyList (cpupropagator.base other)
  /\ propagator.cosineList (cpupropagator.base copy)
     = propagator.cosineList (cpupropagator.base other)
  /\ propagator.n_cosines (cpupropagator.base copy) = propagator.n_cosines uninit
  /\ propagator.n_energies (cpupropagator.base copy) = propagator.n_energies uninit
  /\ ((propagator.n_cosines uninit <= index_cosine
       \/ propagator.n_energies uninit <= index_energy)%Z ->
      cpupropagator.getProbability ProbType_int copy index_cosine index_energy t
      = Throw "CpuPropagator::getProbability. Invalid indices")
  /\ (propagator.n_cosines uninit = propagator.n_cosines (cpupropagator.base other) ->
      propagator.n_energies uninit = propagator.n_energies (cpupropagator.base other) ->
      cpupropagator.getProbability ProbType_int copy index_cosine index_energy t
      = cpupropagator.getProbability ProbType_int other index_cosine index_energy t).
Proof.
  intros copy.
  split; [reflexivity|]. split; [reflexivity|]. split; [reflexivity|].
  split; [reflexivity|]. split; [reflexivity|]. split.
  - intros Hout. unfold cpupropagator.getProbability.
    change (propagator.n_cosines (cpupropagator.base copy))
      with (propagator.n_cosines uninit).
    change (propagator.n_energies (cpupropagator.base copy))
      with (propagator.n_energies uninit).
    assert (E : ((index_cosine >=? propagator.n_cosines uninit)
                 || (index_energy >=? propagator.n_energies uninit))%Z = true).
    { apply orb_true_iff. rewrite !Z.geb_leb.
      destruct Hout as [H|H]; [left|right]; apply Z.leb_le; exact H. }
    rewrite E. reflexivity.
  - intros Hc He. unfold cpupropagator.getProbability.
    change (propagator.n_cosines (cpupropagator.base copy))
      with (propagator.n_cosines uninit).
    change (propagator.n_energies (cpupropagator.base copy))
      with (propagator.n_energies uninit).
    change (cpupropagator.resultList copy) with (cpupropagator.resultList other).
    rewrite Hc, He. reflexivity.
Qed.

End Copies.

(** A copy of the grid of two by two bins into storage that held zeros. *)
Lemma copy_leaves_grid_size_unset_witness :
  cpupropagator.getProbability (fun t : Z => t)
    (cpupropagator.CpuPropagator_copy sample.grid sample.storage) 0 0 4%Z
  = Throw "CpuPropagator::getProbability. Invalid indices".
Proof.
  apply (copy_leaves_grid_size_unset (fun t : Z => t) sample.grid sample.storage 0 0 4%Z).
  left. simpl. lia.
Defined.

(** ** The order of the set-up calls *)

(** [setProductionHeight] throws on a propagator that was just constructed,
    because the cosine list has to be set first. *)
Lemma setProductionHeight_fresh (n_cosines n_energies : Z) (uninit p : propagator.Propagator)
  (heightKM : R) :
  propagator.Propagator_new n_cosines n_energies uninit = Done p ->
  propagator.setProductionHeight heightKM p
  = Throw "must set cosine list before production height".
Proof.
  unfold propagator.Propagator_new.
  destruct ((n_energies <? 0) || (n_cosines <? 0))%Z; [discriminate|].
  intros H. inversion H. reflexivity.
Qed.

(** A call of [setCosineList] that returns has stored the list, whose size
    is the number of cosine bins, has kept a production height that was set
    before, and has opened the way for [setProductionHeight], which stores
    the height in centimetres; on a propagator that was just constructed
    [setProductionHeight] throws. *)
Theorem setCosineList_enables_production_height (K : Constants) (list : list R)
  (p p' : propagator.Propagator) (heightKM : R) :
  propagator.setCosineList K list p = Done p' ->
  propagator.cosineList p' = list
  /\ Z.of_nat (length list) = u64 (propagator.n_cosines p)
  /\ propagator.isSetCosine p' = true
  /\ propagator.isSetProductionHeight p' = propagator.isSetProductionHeight p
  /\ (propagator.isSetProductionHeight p = true ->
      propagator.ProductionHeightinCentimeter p'
      = propagator.ProductionHeightinCentimeter p)
  /\ (exists p'',
        propagator.setProductionHeight heightKM p' = Done p''
        /\ propagator.ProductionHeightinCentimeter p'' = heightKM * 100000
        /\ propagator.isSetProductionHeight p'' = true)
  /\ (forall n_cosines n_energies uninit q,
        propagator.Propagator_new n_cosines n_energies uninit = Done q ->
        propagator.setProductionHeight heightKM q
        = Throw "must set cosine list before production height").
Proof.
  intros H. unfold propagator.setCosineList in H.
  destruct (negb (Z.of_nat (length list) =? u64 (propagator.n_cosines p))%Z) eqn:E;
    [discriminate|].
  apply negb_false_iff, Z.eqb_eq in E.
  match type of H with
  | bind ?X _ = _ => destruct X as [q| | |] eqn:EX; try discriminate H
  end.
  cbn [bind] in H.
  destruct (propagator.setMaxlayers K q) as [r| | |] eqn:Er; try discriminate H.
  cbn [bind] in H. inversion H; subst p'. clear H.
  destruct (setMaxlayers_done K q r Er) as (Hr & _).
  assert (Hq : propagator.cosineList q = list
               /\ propagator.isSetProductionHeight q = propagator.isSetProductionHeight p
               /\ (propagator.isSetProductionHeight p = true ->
                   propagator.ProductionHeightinCentimeter q
                   = propagator.ProductionHeightinCentimeter p)).
  { cbn [propagator.isSetProductionHeight propagator.set_cosineList
         propagator.ProductionHeightinCentimeter] in EX.
    destruct (propagator.isSetProductionHeight p) eqn:Eh.
    - unfold propagator.setProductionHeight in EX.
      destruct (negb _); [discriminate|]. inversion EX; subst q.
      split; [reflexivity|]. split; [reflexivity|]. intros _.
      cbn [propagator.ProductionHeightinCentimeter propagator.set_isSetProductionHeight
           propagator.set_ProductionHeightinCentimeter propagator.set_cosineList].
      lra.
    - inversion EX; subst q.
      split; [reflexivity|]. split; [exact Eh|]. intros Hf. discriminate. }
  destruct Hq as (Hlist & Hflag & Hheight).
  assert (F1 : propagator.cosineList r = propagator.cosineList q)
    by (rewrite Hr; reflexivity).
  assert (F2 : propagator.isSetProductionHeight r = propagator.isSetProductionHeight q)
    by (rewrite Hr; reflexivity).
  assert (F3 : propagator.ProductionHeightinCentimeter r
               = propagator.ProductionHeightinCentimeter q)
    by (rewrite Hr; reflexivity).
  cbn [propagator.cosineList propagator.isSetCosine propagator.isSetProductionHeight
       propagator.ProductionHeightinCentimeter propagator.set_isSetCosine].
  split; [rewrite F1; exact Hlist|]. split; [exact E|]. split; [reflexivity|].
  split; [rewrite F2; exact Hflag|]. split; [intros Hf; rewrite F3; apply Hheight; exact Hf|].
  split.
  - unfold propagator.setProductionHeight.
    cbn [propagator.isSetCosine propagator.set_isSetCosine negb].
    eexists. split; [reflexivity|]. split; [|reflexivity].
    cbn [propagator.ProductionHeightinCentimeter propagator.set_isSetProductionHeight
         propagator.set_ProductionHeightinCentimeter]. lra.
  - intros n_c n_e uninit q0 Hnew. apply (setProductionHeight_fresh n_c n_e uninit q0).
    exact Hnew.
Qed.

(** The cosine list of the grid of two cosine bins, set again after a
    production height of 15 km. *)
Lemma setCosineList_again :
  exists p',
    propagator.setCosineList sample.constants [-1; 0]
      (propagator.set_isSetProductionHeight true
         (propagator.set_ProductionHeightinCentimeter 1500000
            (cpupropagator.base sample.grid)))
    = Done p'.
Proof.
  unfold propagator.setCosineList.
  match goal with
  | |- exists p', (if ?c then _ else _) = _ =>
      assert (E : c = false) by reflexivity; rewrite E
  end.
  cbn [propagator.isSetProductionHeight propagator.set_cosineList
       propagator.set_isSetProductionHeight propagator.set_ProductionHeightinCentimeter
       propagator.ProductionHeightinCentimeter].
  unfold propagator.setProductionHeight.
  match goal with
  | |- context [if ?c then Throw _ else _] =>
      assert (E2 : c = false) by reflexivity; rewrite E2
  end.
  cbn [bind].
  match goal with
  | |- exists p', bind (propagator.setMaxlayers ?K ?q) _ = _ =>
      destruct (setMaxlayers_total K q) as (r & Hr)
  end.
  - reflexivity.
  - reflexivity.
  - intros c _.
    match goal with
    | |- (crossed_layers ?l c <= _)%Z =>
        pose proof (crossed_layers_bounds l c) as Hb
    end.
    simpl in Hb |- *. lia.
  - rewrite Hr. cbn [bind]. eexists. reflexivity.
Qed.

Lemma setCosineList_enables_production_height_witness :
  exists p' p'',
    propagator.setCosineList sample.constants [-1; 0]
      (propagator.set_isSetProductionHeight true
         (propagator.set_ProductionHeightinCentimeter 1500000
            (cpupropagator.base sample.grid)))
    = Done p'
    /\ propagator.ProductionHeightinCentimeter p' = 1500000
    /\ propagator.setProductionHeight 20 p' = Done p''
    /\ propagator.ProductionHeightinCentimeter p'' = 20 * 100000.
Proof.
  destruct setCosineList_again as (p' & Hp').
  destruct (setCosineList_enables_production_height sample.constants [-1; 0] _ p' 20 Hp')
    as (_ & _ & _ & _ & Hkeep & (p'' & Hset & Hh & _) & _).
  exists p', p''. split; [exact Hp'|]. split; [exact (Hkeep eq_refl)|].
  split; [exact Hset|exact Hh].
Defined.

(** ** The weighting tensor *)

Lemma sum_from_ext (f g : nat -> R) (lo n : nat) :
  (forall h, (lo <= h < lo + n)%nat -> f h = g h) -> sum_from f lo n = sum_from g lo n.
Proof.
  induction n as [|n IH]; intros H; [reflexivity|].
  rewrite !sum_from_snoc. rewrite IH by (intros h Hh; apply H; lia).
  rewrite (H (lo + n)%nat) by lia. reflexivity.
Qed.

(** The loop over the production heights in closed form.  Every entry of
    [totalLenShiftFactor] off the diagonal is the sum over the first 19
    path lengths of the weight of the flavour times the factor of the pair
    of eigenstates; the diagonal stays 1; the tensor is symmetric in its
    first two indices, imaginary part included; and the weights of the last
    production height bin are never read. *)
Theorem totalLenShiftFactor_closed_form (K : Constants) (type : NeutrinoType)
  (n_cosines n_energies index_cosine index_energy : Z)
  (prob : Z -> R) (lengths : nat -> R) (darg0 : nat -> R) :
  let T := physics.accumulate_totalLenShiftFactor K type n_cosines n_energies
             index_cosine index_energy prob lengths darg0 physics.unit_tensor in
  (forall i j e,
     T i j e = shift_factor_sum K type n_cosines n_energies index_cosine index_energy
                 prob lengths darg0 19 i j e)
  /\ (forall i j e, T i j e = T j i e)
  /\ (forall i e, T i i e = physics.unit_tensor i i e)
  /\ (forall prob' : Z -> R,
        (forall e h, (e < 3)%nat -> (h < 19)%nat ->
           prob' (physics.ProbIndex K type n_cosines n_energies index_cosine index_energy
                    e h)
           = prob (physics.ProbIndex K type n_cosines n_energies index_cosine index_energy
                     e h)) ->
        forall i j e,
          physics.accumulate_totalLenShiftFactor K type n_cosines n_energies
            index_cosine index_energy prob' lengths darg0 physics.unit_tensor i j e
          = T i j e).
Proof.
  assert (Hclosed : forall prob0 i j e,
    physics.accumulate_totalLenShiftFactor K type n_cosines n_energies
      index_cosine index_energy prob0 lengths darg0 physics.unit_tensor i j e
    = shift_factor_sum K type n_cosines n_energies index_cosine index_energy
        prob0 lengths darg0 19 i j e).
  { intros prob0.
    apply (accumulate_invariant K type n_cosines n_energies index_cosine index_energy
             prob0 lengths darg0
             (fun h T => forall i j e,
                T i j e = shift_factor_sum K type n_cosines n_energies index_cosine
                            index_energy prob0 lengths darg0 h i j e)).
    - intros i j e. unfold shift_factor_sum, sum_from. cbn [for_range].
      destruct ((i <? 3)%nat && (j <? 3)%nat && (e <? 3)%nat && negb (i =? j)%nat) eqn:E;
        [|reflexivity].
      apply andb_true_iff in E. destruct E as [_ E]. apply negb_true_iff in E.
      unfold physics.unit_tensor. rewrite E. reflexivity.
    - intros h T Hh HT i j e. rewrite HT. unfold shift_factor_sum.
      destruct ((i <? 3)%nat && (j <? 3)%nat && (e <? 3)%nat && negb (i =? j)%nat);
        [|reflexivity].
      cbn [re im]. rewrite !sum_from_snoc. reflexivity.
    - intros h T T' Hext HT i j e. rewrite <- Hext. apply HT. }
  intros T. split; [exact (Hclosed prob)|]. split; [|split].
  - intros i j e. unfold T. rewrite !Hclosed. unfold shift_factor_sum.
    rewrite (Nat.max_comm j i), (Nat.min_comm j i), (Nat.eqb_sym j i).
    rewrite (andb_comm (j <? 3)%nat (i <? 3)%nat).
    destruct ((i <? 3)%nat && (j <? 3)%nat && (e <? 3)%nat && negb (i =? j)%nat) eqn:E;
      [reflexivity|].
    unfold physics.unit_tensor. rewrite (Nat.eqb_sym j i). reflexivity.
  - intros i e. unfold T. rewrite Hclosed. unfold shift_factor_sum.
    rewrite Nat.eqb_refl. cbn [negb]. rewrite andb_false_r. reflexivity.
  - intros prob' Hagree i j e. unfold T. rewrite !Hclosed. unfold shift_factor_sum.
    destruct ((i <? 3)%nat && (j <? 3)%nat && (e <? 3)%nat && negb (i =? j)%nat) eqn:E;
      [|reflexivity].
    assert (He : (e < 3)%nat).
    { apply andb_true_iff in E. destruct E as [E _].
      apply andb_true_iff in E. destruct E as [_ E]. apply Nat.ltb_lt. exact E. }
    f_equal; apply sum_from_ext; intros h Hh; rewrite Hagree by lia; reflexivity.
Qed.



(** * The amplitude of one layer is unitary *)

(** The real and the imaginary part of the entry [(i,j)] of [A B^dagger]. *)
Local Abbreviation overlap_re A B i j :=
  (re (A i 0%nat) * re (B j 0%nat) + im (A i 0%nat) * im (B j 0%nat)
   + (re (A i 1%nat) * re (B j 1%nat) + im (A i 1%nat) * im (B j 1%nat))
   + (re (A i 2%nat) * re (B j 2%nat) + im (A i 2%nat) * im (B j 2%nat))).
Local Abbreviation overlap_im A B i j :=
  (im (A i 0%nat) * re (B j 0%nat) - re (A i 0%nat) * im (B j 0%nat)
   + (im (A i 1%nat) * re (B j 1%nat) - re (A i 1%nat) * im (B j 1%nat))
   + (im (A i 2%nat) * re (B j 2%nat) - re (A i 2%nat) * im (B j 2%nat))).

(** The sum that [get_product] divides: the entry [(i,j)] of the product of
    the two factors of the expansion index [k]. *)
Local Abbreviation numerator M k :=
  (fun i j : nat => for3 (fun l acc =>
           mkComplex
             (re acc + (re (M i l (fst (physics.product_factors k)))
                        * re (M l j (snd (physics.product_factors k)))
                        - im (M i l (fst (physics.product_factors k)))
                          * im (M l j (snd (physics.product_factors k)))))
             (im acc + (re (M i l (fst (physics.product_factors k)))
                        * im (M l j (snd (physics.product_factors k)))
                        + im (M i l (fst (physics.product_factors k)))
                          * re (M l j (snd (physics.product_factors k))))))
        czero).

(** A Hermitian 3x3 matrix with diagonal [a] and upper triangle [b], minus
    [mass j] on the diagonal. *)
Local Abbreviation shifted a0 a1 a2 b01r b01i b02r b02i b12r b12i mass :=
  (fun (n m j : nat) =>
     match n, m with
     | 0%nat, 0%nat => mkComplex (a0 - mass j) 0
     | 1%nat, 1%nat => mkComplex (a1 - mass j) 0
     | 2%nat, 2%nat => mkComplex (a2 - mass j) 0
     | 0%nat, 1%nat => mkComplex b01r b01i
     | 1%nat, 0%nat => mkComplex b01r (- b01i)
     | 0%nat, 2%nat => mkComplex b02r b02i
     | 2%nat, 0%nat => mkComplex b02r (- b02i)
     | 1%nat, 2%nat => mkComplex b12r b12i
     | 2%nat, 1%nat => mkComplex b12r (- b12i)
     | _, _ => czero
     end).

Ltac three_cases i Hi :=
  let H := fresh in
  assert (H : (i = 0 \/ i = 1 \/ i = 2)%nat) by lia;
  clear Hi; destruct H as [-> | [-> | ->]].

(** The products of two factors [2EH - M_j] of a Hermitian matrix whose
    characteristic polynomial has the roots [mass 0], [mass 1], [mass 2]
    are orthogonal to each other, and each reproduces itself up to the
    product of the two mass differences. *)
Lemma numerators_orthogonal (M : nat -> nat -> nat -> ComplexNumber)
  (a0 a1 a2 b01r b01i b02r b02i b12r b12i : R) (mass : nat -> R) :
  (forall n m j, (n < 3)%nat -> (m < 3)%nat -> (j < 3)%nat ->
     M n m j = shifted a0 a1 a2 b01r b01i b02r b02i b12r b12i mass n m j) ->
  mass 0%nat + mass 1%nat + mass 2%nat = a0 + a1 + a2 ->
  mass 0%nat * mass 1%nat + mass 0%nat * mass 2%nat + mass 1%nat * mass 2%nat
  = a0 * a1 + a0 * a2 + a1 * a2 - (b01r * b01r + b01i * b01i)
    - (b02r * b02r + b02i * b02i) - (b12r * b12r + b12i * b12i) ->
  mass 0%nat * mass 1%nat * mass 2%nat
  = a0 * a1 * a2
    + 2 * (b01r * (b12r * b02r + b12i * b02i) - b01i * (b12i * b02r - b12r * b02i))
    - a0 * (b12r * b12r + b12i * b12i) - a1 * (b02r * b02r + b02i * b02i)
    - a2 * (b01r * b01r + b01i * b01i) ->
  forall k l i j, (k < 3)%nat -> (l < 3)%nat -> (i < 3)%nat -> (j < 3)%nat ->
    overlap_re (numerator M k) (numerator M l) i j
    = (if Nat.eqb k l
       then physics.product_divisor (fun x y => mass x - mass y) k * re (numerator M k i j)
       else 0)
    /\ overlap_im (numerator M k) (numerator M l) i j
       = (if Nat.eqb k l
          then physics.product_divisor (fun x y => mass x - mass y) k * im (numerator M k i j)
          else 0).
Proof.
  intros HM E1 E2 E3 k l i j Hk Hl Hi Hj.
  three_cases k Hk; three_cases l Hl; three_cases i Hi; three_cases j Hj;
    cbv beta; unfold for3;
    cbn [physics.product_factors physics.product_divisor fst snd Nat.eqb];
    rewrite !HM by lia; cbn [re im czero]; split; nsatz.
Qed.

(** The matrix [twoEHmM] of [get_product] is a Hermitian matrix minus the
    matter mass on the diagonal. *)
Lemma twoEHmM_shifted (K : Constants) (g : physics.Globals) (E rho : R)
  (type : NeutrinoType) (mass : nat -> R) (n m j : nat) :
  let fac := physics.matter_fac K type E rho in
  let w x := re (physics.U g 0 x) * re (physics.U g 0 x)
             + im (physics.U g 0 x) * im (physics.U g 0 x) in
  let br x y := - fac * (re (physics.U g 0 x) * re (physics.U g 0 y)
                         + im (physics.U g 0 x) * im (physics.U g 0 y)) in
  let bi x y := - fac * (re (physics.U g 0 x) * im (physics.U g 0 y)
                         - im (physics.U g 0 x) * re (physics.U g 0 y)) in
  (n < 3)%nat -> (m < 3)%nat -> (j < 3)%nat ->
  physics.twoEHmM K g E rho (fun x y => mass x - physics.DM g y 0) type n m j
  = shifted (- fac * w 0%nat + physics.DM g 0 0) (- fac * w 1%nat + physics.DM g 1 0)
            (- fac * w 2%nat + physics.DM g 2 0)
            (br 0%nat 1%nat) (bi 0%nat 1%nat) (br 0%nat 2%nat) (bi 0%nat 2%nat)
            (br 1%nat 2%nat) (bi 1%nat 2%nat) mass n m j.
Proof.
  intros fac w br bi Hn Hm Hj. unfold physics.twoEHmM. fold fac.
  three_cases n Hn; three_cases m Hm; cbv beta iota; cbn [Nat.eqb];
    apply complex_eq; cbn [re im]; unfold w, br, bi; ring.
Qed.

(** When no divisor of [get_product] is zero, the three matter masses are
    the three roots of the cubic in some order: they satisfy Vieta's
    relations. *)
Lemma matter_masses_vieta (K : Constants) (g : physics.Globals) (Enu rho : R)
  (type : NeutrinoType) :
  let alpha := physics.getMfast_alpha K g Enu rho type in
  let beta := physics.getMfast_beta K g Enu rho type in
  let gamma := physics.getMfast_gamma K g Enu rho type in
  let z j := physics.getMfast_mMat K g Enu rho type j - physics.DM g 0 0 in
  0 < alpha * alpha - 3 * beta ->
  -1 <= physics.getMfast_argtmp K g Enu rho type <= 1 ->
  (forall k, (k < 3)%nat -> divisors K g Enu rho type k <> 0) ->
  z 0%nat + z 1%nat + z 2%nat = - alpha
  /\ z 0%nat * z 1%nat + z 0%nat * z 2%nat + z 1%nat * z 2%nat = beta
  /\ z 0%nat * z 1%nat * z 2%nat = - gamma.
Proof.
  intros alpha beta gamma z Hpos Harg Hd.
  destruct (getMfast_vieta K g Enu rho type Hpos Harg) as (V1 & V2 & V3).
  cbv beta zeta in V1, V2, V3. fold alpha in V1. fold beta in V2. fold gamma in V3.
  pose proof (Hd 0%nat ltac:(lia)) as H0.
  pose proof (Hd 1%nat ltac:(lia)) as H1.
  unfold divisors, physics.product_divisor, physics.getMfast in H0, H1.
  cbn [fst] in H0, H1.
  assert (Hc : forall j, physics.getMfast_mMat K g Enu rho type j
                         = physics.getMfast_mMatU K g Enu rho type 0
                         \/ physics.getMfast_mMat K g Enu rho type j
                            = physics.getMfast_mMatU K g Enu rho type 1
                         \/ physics.getMfast_mMat K g Enu rho type j
                            = physics.getMfast_mMatU K g Enu rho type 2).
  { intros j. unfold physics.getMfast_mMat.
    destruct (physics.ORDER g j) as [|[|o]]; [left|right; left|right; right]; reflexivity. }
  unfold z.
  destruct (Hc 0%nat) as [E0 | [E0 | E0]]; destruct (Hc 1%nat) as [E1 | [E1 | E1]];
    destruct (Hc 2%nat) as [E2 | [E2 | E2]]; rewrite E0, E1, E2 in *;
    try (exfalso; apply H0; ring); try (exfalso; apply H1; ring);
    (split; [rewrite <- V1; ring|split; [rewrite <- V2; ring|rewrite <- V3; ring]]).
Qed.

(** The three matrices of [get_product] are orthogonal projectors: for a
    normalised first row of the mixing matrix and an antisymmetric first
    column of mass differences, whenever the cubic of [getMfast] is solved
    without clamping and no divisor is zero,
    [product_k product_l^dagger] is [product_k] for [k = l] and zero
    otherwise. *)
Lemma get_product_projectors (K : Constants) (g : physics.Globals) (Enu rho : R)
  (type : NeutrinoType) :
  let alpha := physics.getMfast_alpha K g Enu rho type in
  let beta := physics.getMfast_beta K g Enu rho type in
  let P := physics.get_product K g Enu rho
             (snd (physics.getMfast K g Enu rho type))
             (fst (physics.getMfast K g Enu rho type)) type in
  re (physics.U g 0 0) * re (physics.U g 0 0) + im (physics.U g 0 0) * im (physics.U g 0 0)
  + (re (physics.U g 0 1) * re (physics.U g 0 1) + im (physics.U g 0 1) * im (physics.U g 0 1))
  + (re (physics.U g 0 2) * re (physics.U g 0 2) + im (physics.U g 0 2) * im (physics.U g 0 2))
  = 1 ->
  physics.DM g 0 0 = 0 ->
  physics.DM g 1 0 = - physics.DM g 0 1 ->
  physics.DM g 2 0 = - physics.DM g 0 2 ->
  0 < alpha * alpha - 3 * beta ->
  -1 <= physics.getMfast_argtmp K g Enu rho type <= 1 ->
  (forall k, (k < 3)%nat -> divisors K g Enu rho type k <> 0) ->
  forall k l i j, (k < 3)%nat -> (l < 3)%nat -> (i < 3)%nat -> (j < 3)%nat ->
    overlap_re (fun a b => P a b k) (fun a b => P a b l) i j
    = (if Nat.eqb k l then re (P i j k) else 0)
    /\ overlap_im (fun a b => P a b k) (fun a b => P a b l) i j
       = (if Nat.eqb k l then im (P i j k) else 0).
Proof.
  intros alpha beta P HN D0 D1 D2 Hpos Harg Hd k l i j Hk Hl Hi Hj.
  destruct (matter_masses_vieta K g Enu rho type Hpos Harg Hd) as (V1 & V2 & V3).
  cbv beta zeta in V1, V2, V3.
  set (mass := physics.getMfast_mMat K g Enu rho type) in *.
  set (fac := physics.matter_fac K type Enu rho).
  set (M := physics.twoEHmM K g Enu rho (fun x y => mass x - physics.DM g y 0) type).
  pose proof (fun n m j Hn Hm Hj =>
                twoEHmM_shifted K g Enu rho type mass n m j Hn Hm Hj) as HM.
  cbv beta zeta in HM. fold fac M in HM.
  assert (Hk' := Hd k Hk). assert (Hl' := Hd l Hl).
  unfold divisors, physics.getMfast in Hk', Hl'. cbn [fst] in Hk', Hl'. fold mass in Hk', Hl'.
  pose proof (numerators_orthogonal M _ _ _ _ _ _ _ _ _ mass HM) as HO.
  unfold physics.getMfast_alpha, physics.getMfast_beta, physics.getMfast_gamma in V1, V2, V3.
  fold fac in V1, V2, V3.
  rewrite D0 in V1, V2, V3, HO. rewrite D1, D2 in HO.
  assert (HO' : forall k l i j, (k < 3)%nat -> (l < 3)%nat -> (i < 3)%nat -> (j < 3)%nat ->
            overlap_re (numerator M k) (numerator M l) i j
            = (if Nat.eqb k l
               then physics.product_divisor (fun x y => mass x - mass y) k
                    * re (numerator M k i j)
               else 0)
            /\ overlap_im (numerator M k) (numerator M l) i j
               = (if Nat.eqb k l
                  then physics.product_divisor (fun x y => mass x - mass y) k
                       * im (numerator M k i j)
                  else 0)).
  { apply HO; clear HO HM M Hk' Hl' Hd Harg Hpos P;
      revert V1 V2 V3 HN;
      generalize (mass 0%nat) (mass 1%nat) (mass 2%nat) (re (physics.U g 0 0))
        (im (physics.U g 0 0)) (re (physics.U g 0 1)) (im (physics.U g 0 1))
        (re (physics.U g 0 2)) (im (physics.U g 0 2)) (physics.DM g 0 1) (physics.DM g 0 2)
        fac; intros; nsatz. }
  clear HO.
  set (Dv := physics.product_divisor (fun x y => mass x - mass y)) in *.
  assert (HP : forall a b c,
            P a b c = mkComplex (re (numerator M c a b) / Dv c)
                                (im (numerator M c a b) / Dv c)) by reflexivity.
  destruct (HO' k l i j Hk Hl Hi Hj) as [Hre Him]. cbv beta in Hre, Him.
  cbv beta. rewrite !HP. cbn [re im]. split.
  - match type of Hre with ?L = _ => transitivity (L / (Dv k * Dv l)) end.
    + field. split; assumption.
    + rewrite Hre. destruct (Nat.eqb k l) eqn:E.
      * apply Nat.eqb_eq in E. subst l. field. assumption.
      * unfold Rdiv. ring.
  - match type of Him with ?L = _ => transitivity (L / (Dv k * Dv l)) end.
    + field. split; assumption.
    + rewrite Him. destruct (Nat.eqb k l) eqn:E.
      * apply Nat.eqb_eq in E. subst l. field. assumption.
      * unfold Rdiv. ring.
Qed.

Ltac pose_overlap HG k l n m R I gr gi :=
  destruct (HG k l n m ltac:(lia) ltac:(lia) ltac:(assumption) ltac:(assumption)) as [R I];
  cbv beta in R, I; cbn [Nat.eqb] in R, I;
  match type of R with ?L = _ => set (gr := L) in R end;
  match type of I with ?L = _ => set (gi := L) in I end.

(** The sum [X] of [getA] over three orthogonal projectors that add up to
    the unit matrix, each with its phase factor, has orthonormal rows. *)
Lemma getA_X_rows_orthonormal (L E : R) (d_dmMatVac : nat -> nat -> R)
  (P : nat -> nat -> nat -> ComplexNumber) :
  (forall k l i j, (k < 3)%nat -> (l < 3)%nat -> (i < 3)%nat -> (j < 3)%nat ->
     overlap_re (fun a b => P a b k) (fun a b => P a b l) i j
     = (if Nat.eqb k l then re (P i j k) else 0)
     /\ overlap_im (fun a b => P a b k) (fun a b => P a b l) i j
        = (if Nat.eqb k l then im (P i j k) else 0)) ->
  (forall i j, (i < 3)%nat -> (j < 3)%nat ->
     re (P i j 0%nat) + re (P i j 1%nat) + re (P i j 2%nat) = (if Nat.eqb i j then 1 else 0)
     /\ im (P i j 0%nat) + im (P i j 1%nat) + im (P i j 2%nat) = 0) ->
  rows_orthonormal (physics.getA_X L E d_dmMatVac 0 P).
Proof.
  intros HG HS n m Hn Hm.
  destruct (HS n m Hn Hm) as [Sre Sim].
  unfold physics.getA_X, for3. cbn [Nat.eqb re im czero].
  set (c0 := cos _). set (s0 := sin _). set (c1 := cos _). set (s1 := sin _).
  set (c2 := cos _). set (s2 := sin _).
  pose proof (sin2_cos2' (- physics.LoEfac * d_dmMatVac 0%nat 0%nat * L / E)) as T0.
  pose proof (sin2_cos2' (- physics.LoEfac * d_dmMatVac 1%nat 0%nat * L / E)) as T1.
  pose proof (sin2_cos2' (- physics.LoEfac * d_dmMatVac 2%nat 0%nat * L / E + 0)) as T2.
  fold c0 s0 in T0. fold c1 s1 in T1. fold c2 s2 in T2.
  clearbody c0 s0 c1 s1 c2 s2.
  pose_overlap HG 0%nat 0%nat n m R00 I00 gr00 gi00.
  pose_overlap HG 0%nat 1%nat n m R01 I01 gr01 gi01.
  pose_overlap HG 0%nat 2%nat n m R02 I02 gr02 gi02.
  pose_overlap HG 1%nat 0%nat n m R10 I10 gr10 gi10.
  pose_overlap HG 1%nat 1%nat n m R11 I11 gr11 gi11.
  pose_overlap HG 1%nat 2%nat n m R12 I12 gr12 gi12.
  pose_overlap HG 2%nat 0%nat n m R20 I20 gr20 gi20.
  pose_overlap HG 2%nat 1%nat n m R21 I21 gr21 gi21.
  pose_overlap HG 2%nat 2%nat n m R22 I22 gr22 gi22.
  split.
  - transitivity (((c0 * c0 + s0 * s0) * gr00 + (c0 * s0 - s0 * c0) * gi00) + ((c0 * c1 + s0 * s1) * gr01 + (c0 * s1 - s0 * c1) * gi01) + ((c0 * c2 + s0 * s2) * gr02 + (c0 * s2 - s0 * c2) * gi02) + ((c1 * c0 + s1 * s0) * gr10 + (c1 * s0 - s1 * c0) * gi10) + ((c1 * c1 + s1 * s1) * gr11 + (c1 * s1 - s1 * c1) * gi11) + ((c1 * c2 + s1 * s2) * gr12 + (c1 * s2 - s1 * c2) * gi12) + ((c2 * c0 + s2 * s0) * gr20 + (c2 * s0 - s2 * c0) * gi20) + ((c2 * c1 + s2 * s1) * gr21 + (c2 * s1 - s2 * c1) * gi21) + ((c2 * c2 + s2 * s2) * gr22 + (c2 * s2 - s2 * c2) * gi22)).
    + unfold gr00, gi00, gr01, gi01, gr02, gi02, gr10, gi10, gr11, gi11, gr12, gi12, gr20, gi20, gr21, gi21, gr22, gi22. ring.
    + rewrite R00, I00, R01, I01, R02, I02, R10, I10, R11, I11, R12, I12, R20, I20, R21, I21, R22, I22. rewrite <- Sre. nsatz.
  - transitivity (((c0 * c0 + s0 * s0) * gi00 + (s0 * c0 - c0 * s0) * gr00) + ((c0 * c1 + s0 * s1) * gi01 + (s0 * c1 - c0 * s1) * gr01) + ((c0 * c2 + s0 * s2) * gi02 + (s0 * c2 - c0 * s2) * gr02) + ((c1 * c0 + s1 * s0) * gi10 + (s1 * c0 - c1 * s0) * gr10) + ((c1 * c1 + s1 * s1) * gi11 + (s1 * c1 - c1 * s1) * gr11) + ((c1 * c2 + s1 * s2) * gi12 + (s1 * c2 - c1 * s2) * gr12) + ((c2 * c0 + s2 * s0) * gi20 + (s2 * c0 - c2 * s0) * gr20) + ((c2 * c1 + s2 * s1) * gi21 + (s2 * c1 - c2 * s1) * gr21) + ((c2 * c2 + s2 * s2) * gi22 + (s2 * c2 - c2 * s2) * gr22)).
    + unfold gr00, gi00, gr01, gi01, gr02, gi02, gr10, gi10, gr11, gi11, gr12, gi12, gr20, gi20, gr21, gi21, gr22, gi22. ring.
    + rewrite R00, I00, R01, I01, R02, I02, R10, I10, R11, I11, R12, I12, R20, I20, R21, I21, R22, I22. nsatz.
Qed.

(** The product of two 3x3 matrices. *)
Local Abbreviation mprod A B :=
  (fun i j : nat =>
     for3 (fun k acc =>
             mkComplex (re acc + (re (A i k) * re (B k j) - im (A i k) * im (B k j)))
                       (im acc + (re (A i k) * im (B k j) + im (A i k) * re (B k j))))
          czero).

Ltac pose_rows HB i j R I gr gi :=
  destruct (HB i j ltac:(lia) ltac:(lia)) as [R I];
  cbn [Nat.eqb] in R, I;
  match type of R with ?L = _ => set (gr := L) in R end;
  match type of I with ?L = _ => set (gi := L) in I end.

(** The product of two matrices with orthonormal rows has orthonormal
    rows. *)
Lemma mprod_rows_orthonormal (A B : nat -> nat -> ComplexNumber) :
  rows_orthonormal A -> rows_orthonormal B -> rows_orthonormal (mprod A B).
Proof.
  intros HA HB n m Hn Hm.
  destruct (HA n m Hn Hm) as [Are Aim].
  unfold for3. cbn [re im czero].
  pose_rows HB 0%nat 0%nat R00 I00 gr00 gi00.
  pose_rows HB 0%nat 1%nat R01 I01 gr01 gi01.
  pose_rows HB 0%nat 2%nat R02 I02 gr02 gi02.
  pose_rows HB 1%nat 0%nat R10 I10 gr10 gi10.
  pose_rows HB 1%nat 1%nat R11 I11 gr11 gi11.
  pose_rows HB 1%nat 2%nat R12 I12 gr12 gi12.
  pose_rows HB 2%nat 0%nat R20 I20 gr20 gi20.
  pose_rows HB 2%nat 1%nat R21 I21 gr21 gi21.
  pose_rows HB 2%nat 2%nat R22 I22 gr22 gi22.
  split.
  - transitivity (((re (A n 0%nat) * re (A m 0%nat) + im (A n 0%nat) * im (A m 0%nat)) * gr00 - (im (A n 0%nat) * re (A m 0%nat) - re (A n 0%nat) * im (A m 0%nat)) * gi00) + ((re (A n 0%nat) * re (A m 1%nat) + im (A n 0%nat) * im (A m 1%nat)) * gr01 - (im (A n 0%nat) * re (A m 1%nat) - re (A n 0%nat) * im (A m 1%nat)) * gi01) + ((re (A n 0%nat) * re (A m 2%nat) + im (A n 0%nat) * im (A m 2%nat)) * gr02 - (im (A n 0%nat) * re (A m 2%nat) - re (A n 0%nat) * im (A m 2%nat)) * gi02) + ((re (A n 1%nat) * re (A m 0%nat) + im (A n 1%nat) * im (A m 0%nat)) * gr10 - (im (A n 1%nat) * re (A m 0%nat) - re (A n 1%nat) * im (A m 0%nat)) * gi10) + ((re (A n 1%nat) * re (A m 1%nat) + im (A n 1%nat) * im (A m 1%nat)) * gr11 - (im (A n 1%nat) * re (A m 1%nat) - re (A n 1%nat) * im (A m 1%nat)) * gi11) + ((re (A n 1%nat) * re (A m 2%nat) + im (A n 1%nat) * im (A m 2%nat)) * gr12 - (im (A n 1%nat) * re (A m 2%nat) - re (A n 1%nat) * im (A m 2%nat)) * gi12) + ((re (A n 2%nat) * re (A m 0%nat) + im (A n 2%nat) * im (A m 0%nat)) * gr20 - (im (A n 2%nat) * re (A m 0%nat) - re (A n 2%nat) * im (A m 0%nat)) * gi20) + ((re (A n 2%nat) * re (A m 1%nat) + im (A n 2%nat) * im (A m 1%nat)) * gr21 - (im (A n 2%nat) * re (A m 1%nat) - re (A n 2%nat) * im (A m 1%nat)) * gi21) + ((re (A n 2%nat) * re (A m 2%nat) + im (A n 2%nat) * im (A m 2%nat)) * gr22 - (im (A n 2%nat) * re (A m 2%nat) - re (A n 2%nat) * im (A m 2%nat)) * gi22)).
    + unfold gr00, gi00, gr01, gi01, gr02, gi02, gr10, gi10, gr11, gi11, gr12, gi12, gr20, gi20, gr21, gi21, gr22, gi22. ring.
    + rewrite R00, I00, R01, I01, R02, I02, R10, I10, R11, I11, R12, I12, R20, I20, R21, I21, R22, I22. etransitivity; [|exact Are]. ring.
  - transitivity (((re (A n 0%nat) * re (A m 0%nat) + im (A n 0%nat) * im (A m 0%nat)) * gi00 + (im (A n 0%nat) * re (A m 0%nat) - re (A n 0%nat) * im (A m 0%nat)) * gr00) + ((re (A n 0%nat) * re (A m 1%nat) + im (A n 0%nat) * im (A m 1%nat)) * gi01 + (im (A n 0%nat) * re (A m 1%nat) - re (A n 0%nat) * im (A m 1%nat)) * gr01) + ((re (A n 0%nat) * re (A m 2%nat) + im (A n 0%nat) * im (A m 2%nat)) * gi02 + (im (A n 0%nat) * re (A m 2%nat) - re (A n 0%nat) * im (A m 2%nat)) * gr02) + ((re (A n 1%nat) * re (A m 0%nat) + im (A n 1%nat) * im (A m 0%nat)) * gi10 + (im (A n 1%nat) * re (A m 0%nat) - re (A n 1%nat) * im (A m 0%nat)) * gr10) + ((re (A n 1%nat) * re (A m 1%nat) + im (A n 1%nat) * im (A m 1%nat)) * gi11 + (im (A n 1%nat) * re (A m 1%nat) - re (A n 1%nat) * im (A m 1%nat)) * gr11) + ((re (A n 1%nat) * re (A m 2%nat) + im (A n 1%nat) * im (A m 2%nat)) * gi12 + (im (A n 1%nat) * re (A m 2%nat) - re (A n 1%nat) * im (A m 2%nat)) * gr12) + ((re (A n 2%nat) * re (A m 0%nat) + im (A n 2%nat) * im (A m 0%nat)) * gi20 + (im (A n 2%nat) * re (A m 0%nat) - re (A n 2%nat) * im (A m 0%nat)) * gr20) + ((re (A n 2%nat) * re (A m 1%nat) + im (A n 2%nat) * im (A m 1%nat)) * gi21 + (im (A n 2%nat) * re (A m 1%nat) - re (A n 2%nat) * im (A m 1%nat)) * gr21) + ((re (A n 2%nat) * re (A m 2%nat) + im (A n 2%nat) * im (A m 2%nat)) * gi22 + (im (A n 2%nat) * re (A m 2%nat) - re (A n 2%nat) * im (A m 2%nat)) * gr22)).
    + unfold gr00, gi00, gr01, gi01, gr02, gi02, gr10, gi10, gr11, gi11, gr12, gi12, gr20, gi20, gr21, gi21, gr22, gi22. ring.
    + rewrite R00, I00, R01, I01, R02, I02, R10, I10, R11, I11, R12, I12, R20, I20, R21, I21, R22, I22. etransitivity; [|exact Aim]. ring.
Qed.

(** [getA] multiplies the sum [X] by the mixing matrix from the left and by
    its conjugate transpose from the right. *)
Lemma getA_as_product (K : Constants) (Umat : nat -> nat -> ComplexNumber)
  (dm : nat -> nat -> R) (type0 : NeutrinoType) (g0 : physics.Globals)
  (L E rho : R) (d_dmMatVac d_dmMatMat : nat -> nat -> R) (type : NeutrinoType)
  (p0 : nat -> nat -> nat -> ComplexNumber) (n m : nat) :
  let g := physics.prepare_getMfast type0 (physics.set_parameters Umat dm g0) in
  physics.getA K g L E rho d_dmMatVac d_dmMatMat type 0 p0 n m
  = mprod (mprod Umat
             (physics.getA_X L E d_dmMatVac 0
                (physics.get_product K g E rho d_dmMatVac d_dmMatMat type)))
          (adjoint Umat) n m.
Proof.
  intros g. unfold physics.getA. rewrite feqb_refl.
  set (X := physics.getA_X L E d_dmMatVac 0 _).
  unfold for3, adjoint, g, physics.prepare_getMfast, physics.set_parameters,
    physics.setMassDifferences_host, physics.setMixMatrix_host.
  cbn [physics.AXFAC re im czero].
  apply complex_eq; cbn [re im]; ring.
Qed.

(** The mixing matrix of [setMNSMatrix] has orthonormal columns, for all
    angles. *)
Lemma setMNSMatrix_columns_orthonormal theta12 theta13 theta23 dCP p :
  rows_orthonormal
    (adjoint (mixing_matrix (propagator.setMNSMatrix theta12 theta13 theta23 dCP p))).
Proof.
  destruct (setMNSMatrix_U theta12 theta13 theta23 dCP p)
    as (H00 & H01 & H02 & H10 & H11 & H12 & H20 & H21 & H22).
  pose proof (sin2_cos2' theta12) as E12. pose proof (sin2_cos2' theta13) as E13.
  pose proof (sin2_cos2' theta23) as E23. pose proof (sin2_cos2' dCP) as Ed.
  cbv zeta in H00, H01, H02, H10, H11, H12, H20, H21, H22.
  revert H00 H01 H02 H10 H11 H12 H20 H21 H22 E12 E13 E23 Ed.
  generalize (sin theta12) (cos theta12) (sin theta13) (cos theta13)
             (sin theta23) (cos theta23) (sin dCP) (cos dCP).
  intros s12 c12 s13 c13 s23 c23 sd cd H00 H01 H02 H10 H11 H12 H20 H21 H22 E12 E13 E23 Ed.
  intros n m Hn Hm. unfold adjoint, mixing_matrix. cbn [re im].
  three_cases n Hn; three_cases m Hm;
    rewrite ?H00, ?H01, ?H02, ?H10, ?H11, ?H12, ?H20, ?H21, ?H22;
    cbn [re im Nat.eqb]; split; nsatz.
Qed.

(** When [alpha*alpha-3.0*beta] is not positive the three roots of
    [getMfast] are equal, and when the quotient of Equation (21) is clamped
    to 1 or -1 two of them are: with three pairwise distinct matter masses
    the cubic was solved without clamping. *)
Lemma distinct_masses_unclamped (K : Constants) (g : physics.Globals) (Enu rho : R)
  (type : NeutrinoType) :
  let alpha := physics.getMfast_alpha K g Enu rho type in
  let beta := physics.getMfast_beta K g Enu rho type in
  (forall k, (k < 3)%nat -> divisors K g Enu rho type k <> 0) ->
  0 < alpha * alpha - 3 * beta
  /\ -1 <= physics.getMfast_argtmp K g Enu rho type <= 1.
Proof.
  intros alpha beta Hd.
  pose proof (Hd 0%nat ltac:(lia)) as H0.
  pose proof (Hd 1%nat ltac:(lia)) as H1.
  unfold divisors, physics.product_divisor, physics.getMfast in H0, H1.
  cbn [fst] in H0, H1.
  assert (Hc : forall j, physics.getMfast_mMat K g Enu rho type j
                         = physics.getMfast_mMatU K g Enu rho type 0
                         \/ physics.getMfast_mMat K g Enu rho type j
                            = physics.getMfast_mMatU K g Enu rho type 1
                         \/ physics.getMfast_mMat K g Enu rho type j
                            = physics.getMfast_mMatU K g Enu rho type 2).
  { intros j. unfold physics.getMfast_mMat.
    destruct (physics.ORDER g j) as [|[|o]]; [left|right; left|right; right]; reflexivity. }
  assert (Hpair : physics.getMfast_mMatU K g Enu rho type 0
                  = physics.getMfast_mMatU K g Enu rho type 1
                  \/ physics.getMfast_mMatU K g Enu rho type 1
                     = physics.getMfast_mMatU K g Enu rho type 2 -> False).
  { intros Heq.
    destruct (Hc 0%nat) as [E0 | [E0 | E0]]; destruct (Hc 1%nat) as [E1 | [E1 | E1]];
      destruct (Hc 2%nat) as [E2 | [E2 | E2]]; rewrite E0, E1, E2 in *;
      destruct Heq as [Heq | Heq]; rewrite ?Heq in *;
      (apply H0; ring) || (apply H1; ring). }
  split.
  - destruct (Rlt_dec 0 (alpha * alpha - 3 * beta)) as [Hpos | Hneg]; [exact Hpos|].
    exfalso. apply Hpair. left.
    assert (Ht : physics.getMfast_tmp K g Enu rho type = 0).
    { unfold physics.getMfast_tmp. fold alpha beta.
      destruct (fltb (alpha * alpha - 3 * beta) 0) eqn:E; [reflexivity|].
      apply fltb_false in E. lra. }
    unfold physics.getMfast_mMatU. rewrite Ht, sqrt_0. ring.
  - set (x := physics.getMfast_argtmp K g Enu rho type).
    destruct (clamp_range x) as (_ & Hhi & Hlo & _). cbv zeta in Hhi, Hlo.
    destruct (Rlt_dec 1 x) as [Hgt | Hle].
    + exfalso. apply Hpair. right.
      assert (Ha : physics.getMfast_arg K g Enu rho type = 1) by exact (Hhi Hgt).
      unfold physics.getMfast_mMatU. rewrite Ha, acos_1.
      replace (0 / 3 - 2 * PI / 3) with (- (0 / 3 + 2 * PI / 3)) by field.
      rewrite cos_neg. reflexivity.
    + destruct (Rlt_dec x (-1)) as [Hlt | Hge]; [|lra].
      exfalso. apply Hpair. left.
      assert (Ha : physics.getMfast_arg K g Enu rho type = -1) by exact (Hlo Hlt).
      unfold physics.getMfast_mMatU. rewrite Ha, acos_m1.
      rewrite cos_PI3_minus, cos_PI3. reflexivity.
Qed.

(** With a unitary mixing matrix and an antisymmetric first column of mass
    differences, the amplitude of one layer has orthonormal rows whenever
    no divisor is zero. *)
Lemma layer_amplitude_rows_orthonormal (K : Constants)
  (Umat : nat -> nat -> ComplexNumber) (dm : nat -> nat -> R)
  (type0 nutype : NeutrinoType) (g0 : physics.Globals) (Enu rho Len : R)
  (p0 : nat -> nat -> nat -> ComplexNumber) :
  let g := physics.prepare_getMfast type0 (physics.set_parameters Umat dm g0) in
  rows_orthonormal Umat -> rows_orthonormal (adjoint Umat) ->
  dm 0%nat 0%nat = 0 -> dm 1%nat 0%nat = - dm 0%nat 1%nat ->
  dm 2%nat 0%nat = - dm 0%nat 2%nat ->
  (forall k, (k < 3)%nat -> divisors K g Enu rho nutype k <> 0) ->
  rows_orthonormal (physics.get_transition_matrix K g nutype Enu rho Len 0 p0).
Proof.
  intros g HU HUc H00 H10 H20 Hd.
  destruct (distinct_masses_unclamped K g Enu rho nutype Hd) as [Hpos Harg].
  set (P := physics.get_product K g Enu rho
              (snd (physics.getMfast K g Enu rho nutype))
              (fst (physics.getMfast K g Enu rho nutype)) nutype).
  set (X := physics.getA_X Len Enu (snd (physics.getMfast K g Enu rho nutype)) 0 P).
  assert (HX : rows_orthonormal X).
  { apply getA_X_rows_orthonormal.
    - apply (get_product_projectors K g Enu rho nutype); try assumption.
      destruct (HU 0%nat 0%nat ltac:(lia) ltac:(lia)) as [H _]. exact H.
    - intros i j Hi Hj. exact (get_product_sum K g Enu rho nutype i j Hi Hj Hd). }
  pose proof (mprod_rows_orthonormal _ _ (mprod_rows_orthonormal _ _ HU HX) HUc) as HB.
  assert (HE : forall a b,
            physics.get_transition_matrix K g nutype Enu rho Len 0 p0 a b
            = mprod (mprod Umat X) (adjoint Umat) a b).
  { intros a b. unfold physics.get_transition_matrix.
    change (physics.getMfast K g Enu rho nutype)
      with (fst (physics.getMfast K g Enu rho nutype),
            snd (physics.getMfast K g Enu rho nutype)).
    cbv iota beta.
    exact (getA_as_product K Umat dm type0 g0 Len Enu rho _ _ nutype p0 a b). }
  intros n m Hn Hm. rewrite !HE. exact (HB n m Hn Hm).
Qed.

(** Orthonormality of the rows only reads the entries. *)
Lemma rows_orthonormal_ext (A B : nat -> nat -> ComplexNumber) :
  (forall i j, A i j = B i j) -> rows_orthonormal B -> rows_orthonormal A.
Proof.
  intros H HB n m Hn Hm. rewrite !H. exact (HB n m Hn Hm).
Qed.



(** The products of two factors [2EH - M_j] of a Hermitian matrix are
    Hermitian. *)
Lemma numerators_hermitian (M : nat -> nat -> nat -> ComplexNumber)
  (a0 a1 a2 b01r b01i b02r b02i b12r b12i : R) (mass : nat -> R) :
  (forall n m j, (n < 3)%nat -> (m < 3)%nat -> (j < 3)%nat ->
     M n m j = shifted a0 a1 a2 b01r b01i b02r b02i b12r b12i mass n m j) ->
  forall k i j, (k < 3)%nat -> (i < 3)%nat -> (j < 3)%nat ->
    re (numerator M k j i) = re (numerator M k i j)
    /\ im (numerator M k j i) = - im (numerator M k i j).
Proof.
  intros HM k i j Hk Hi Hj.
  three_cases k Hk; three_cases i Hi; three_cases j Hj;
    cbv beta; unfold for3;
    cbn [physics.product_factors fst snd];
    rewrite !HM by lia; cbn [re im czero]; split; ring.
Qed.

(** The three matrices of [get_product] are Hermitian. *)
Lemma get_product_hermitian (K : Constants) (g : physics.Globals) (Enu rho : R)
  (type : NeutrinoType) (k i j : nat) :
  let P := physics.get_product K g Enu rho
             (snd (physics.getMfast K g Enu rho type))
             (fst (physics.getMfast K g Enu rho type)) type in
  (k < 3)%nat -> (i < 3)%nat -> (j < 3)%nat ->
  re (P j i k) = re (P i j k) /\ im (P j i k) = - im (P i j k).
Proof.
  intros P Hk Hi Hj.
  set (mass := physics.getMfast_mMat K g Enu rho type).
  set (M := physics.twoEHmM K g Enu rho (fun x y => mass x - physics.DM g y 0) type).
  pose proof (fun n m j Hn Hm Hj =>
                twoEHmM_shifted K g Enu rho type mass n m j Hn Hm Hj) as HM.
  cbv beta zeta in HM. fold M in HM.
  destruct (numerators_hermitian M _ _ _ _ _ _ _ _ _ mass HM k i j Hk Hi Hj) as [Hre Him].
  cbv beta in Hre, Him.
  set (Dv := physics.product_divisor (fun x y => mass x - mass y)).
  assert (HP : forall a b c,
            P a b c = mkComplex (re (numerator M c a b) / Dv c)
                                (im (numerator M c a b) / Dv c)) by reflexivity.
  rewrite !HP. cbn [re im]. rewrite Hre, Him. split; unfold Rdiv; ring.
Qed.

(** Orthonormality of the rows reads nine entries only. *)
Lemma rows_orthonormal_ext3 (A B : nat -> nat -> ComplexNumber) :
  (forall i j, (i < 3)%nat -> (j < 3)%nat -> A i j = B i j) ->
  rows_orthonormal B -> rows_orthonormal A.
Proof.
  intros H HB n m Hn Hm. rewrite !H by lia. exact (HB n m Hn Hm).
Qed.

(** With Hermitian products, the conjugate transpose of the sum [X] of
    [getA] is the sum [X] for the opposite length. *)
Lemma getA_X_adjoint (L E : R) (d_dmMatVac : nat -> nat -> R)
  (P : nat -> nat -> nat -> ComplexNumber) (i j : nat) :
  (forall k a b, (k < 3)%nat -> (a < 3)%nat -> (b < 3)%nat ->
     re (P b a k) = re (P a b k) /\ im (P b a k) = - im (P a b k)) ->
  (i < 3)%nat -> (j < 3)%nat ->
  adjoint (physics.getA_X L E d_dmMatVac 0 P) i j
  = physics.getA_X (- L) E d_dmMatVac 0 P i j.
Proof.
  intros HP Hi Hj.
  destruct (HP 0%nat i j ltac:(lia) Hi Hj) as [R0 I0].
  destruct (HP 1%nat i j ltac:(lia) Hi Hj) as [R1 I1].
  destruct (HP 2%nat i j ltac:(lia) Hi Hj) as [R2 I2].
  unfold adjoint, physics.getA_X, for3. cbn [Nat.eqb re im czero].
  replace (- physics.LoEfac * d_dmMatVac 0%nat 0%nat * - L / E)
    with (- (- physics.LoEfac * d_dmMatVac 0%nat 0%nat * L / E))
    by (unfold Rdiv; ring).
  replace (- physics.LoEfac * d_dmMatVac 1%nat 0%nat * - L / E)
    with (- (- physics.LoEfac * d_dmMatVac 1%nat 0%nat * L / E))
    by (unfold Rdiv; ring).
  replace (- physics.LoEfac * d_dmMatVac 2%nat 0%nat * - L / E + 0)
    with (- (- physics.LoEfac * d_dmMatVac 2%nat 0%nat * L / E + 0))
    by (unfold Rdiv; ring).
  rewrite !cos_neg, !sin_neg, R0, I0, R1, I1, R2, I2.
  apply complex_eq; cbn [re im]; ring.
Qed.

(** The conjugate transpose of a product. *)
Lemma adjoint_mprod3 (A X : nat -> nat -> ComplexNumber) (i j : nat) :
  adjoint (mprod (mprod A X) (adjoint A)) i j
  = mprod (mprod A (adjoint X)) (adjoint A) i j.
Proof.
  unfold adjoint, for3. cbn [re im czero]. apply complex_eq; cbn [re im]; ring.
Qed.

(** With a unitary mixing matrix and an antisymmetric first column of mass
    differences, the amplitude of one layer has orthonormal columns
    whenever no divisor is zero. *)
Lemma layer_amplitude_columns_orthonormal (K : Constants)
  (Umat : nat -> nat -> ComplexNumber) (dm : nat -> nat -> R)
  (type0 nutype : NeutrinoType) (g0 : physics.Globals) (Enu rho Len : R)
  (p0 : nat -> nat -> nat -> ComplexNumber) :
  let g := physics.prepare_getMfast type0 (physics.set_parameters Umat dm g0) in
  rows_orthonormal Umat -> rows_orthonormal (adjoint Umat) ->
  dm 0%nat 0%nat = 0 -> dm 1%nat 0%nat = - dm 0%nat 1%nat ->
  dm 2%nat 0%nat = - dm 0%nat 2%nat ->
  (forall k, (k < 3)%nat -> divisors K g Enu rho nutype k <> 0) ->
  rows_orthonormal
    (adjoint (physics.get_transition_matrix K g nutype Enu rho Len 0 p0)).
Proof.
  intros g HU HUc H00 H10 H20 Hd.
  destruct (distinct_masses_unclamped K g Enu rho nutype Hd) as [Hpos Harg].
  set (P := physics.get_product K g Enu rho
              (snd (physics.getMfast K g Enu rho nutype))
              (fst (physics.getMfast K g Enu rho nutype)) nutype).
  set (X := physics.getA_X Len Enu (snd (physics.getMfast K g Enu rho nutype)) 0 P).
  assert (HX : rows_orthonormal (adjoint X)).
  { apply (rows_orthonormal_ext3 _
             (physics.getA_X (- Len) Enu (snd (physics.getMfast K g Enu rho nutype)) 0 P)).
    - intros i j Hi Hj. apply getA_X_adjoint; try assumption.
      intros k a b Hk Ha Hb. exact (get_product_hermitian K g Enu rho nutype k a b Hk Ha Hb).
    - apply getA_X_rows_orthonormal.
      + apply (get_product_projectors K g Enu rho nutype); try assumption.
        destruct (HU 0%nat 0%nat ltac:(lia) ltac:(lia)) as [H _]. exact H.
      + intros i j Hi Hj. exact (get_product_sum K g Enu rho nutype i j Hi Hj Hd). }
  pose proof (mprod_rows_orthonormal _ _ (mprod_rows_orthonormal _ _ HU HX) HUc) as HB.
  apply (rows_orthonormal_ext _ (mprod (mprod Umat (adjoint X)) (adjoint Umat)));
    [|exact HB].
  intros i j. rewrite <- adjoint_mprod3.
  unfold adjoint at 1 3. unfold physics.get_transition_matrix.
  change (physics.getMfast K g Enu rho nutype)
    with (fst (physics.getMfast K g Enu rho nutype),
          snd (physics.getMfast K g Enu rho nutype)).
  cbv iota beta.
  rewrite (getA_as_product K Umat dm type0 g0 Len Enu rho _ _ nutype p0 j i).
  reflexivity.
Qed.

(** ** The amplitude of a path is unitary *)

(** Orthonormal rows and orthonormal columns. *)
Local Abbreviation unitary M := (rows_orthonormal M /\ rows_orthonormal (adjoint M)).



Section PathAmplitude.
Context (K : Constants).
Context (Umat : nat -> nat -> ComplexNumber) (dm : nat -> nat -> R)
        (type0 : NeutrinoType) (g0 : physics.Globals) (type : NeutrinoType)
        (energy : R) (radii rhos : Z -> R) (MaxLayer : Z)
        (PathLength TotalEarthLength cosine_zenith : R)
        (p0 : nat -> nat -> nat -> ComplexNumber).

Local Abbreviation g' :=
  (physics.prepare_getMfast type0 (physics.set_parameters Umat dm g0)).
Local Abbreviation density i := (physics.getDensityOfLayer rhos (Z.of_nat i) MaxLayer).
Local Abbreviation distance i :=
  (physics.getTraversedDistanceOfLayer K radii (Z.of_nat i) MaxLayer
     PathLength TotalEarthLength cosine_zenith).
Local Abbreviation step :=
  (physics.layer_step K g' type energy radii rhos MaxLayer
     PathLength TotalEarthLength cosine_zenith p0).
(** The coefficient matrices of the atmosphere. *)
Local Abbreviation Cout0 :=
  (fst (physics.get_transition_matrix_expansion K g' type energy (density 0%nat)
          (distance 0%nat / km2cm K) physics.phaseOffset p0)).

Hypothesis rows_U : rows_orthonormal Umat.
Hypothesis columns_U : rows_orthonormal (adjoint Umat).
Hypothesis dm00 : dm 0%nat 0%nat = 0.
Hypothesis dm10 : dm 1%nat 0%nat = - dm 0%nat 1%nat.
Hypothesis dm20 : dm 2%nat 0%nat = - dm 0%nat 2%nat.

(** What the loop over layers keeps: the two accumulated matrices are
    unitary, and the first slot of [ExpansionMatrix] holds the coefficients
    of the atmosphere. *)
Local Abbreviation kept i st :=
  (unitary (physics.TransitionMatrixCoreToMantle st)
   /\ length (physics.ExpansionMatrix st) <> 0%nat
   /\ ((0 < i)%nat ->
       unitary (physics.finalTransitionMatrix st)
       /\ physics.ExpansionMatrix st !! 0%nat = Some Cout0)).


End PathAmplitude.




(** ** Conservation of probability *)







(** The mixing matrix of [setMNSMatrix] and the mass differences of
    [setNeutrinoMasses], as [calculate] receives them: a unitary matrix and
    an antisymmetric first column. *)
Lemma configured_propagator (theta12 theta13 theta23 dCP dm12sq dm23sq : R)
  (p : propagator.Propagator) :
  let q := propagator.setNeutrinoMasses dm12sq dm23sq
             (propagator.setMNSMatrix theta12 theta13 theta23 dCP p) in
  rows_orthonormal (mixing_matrix q)
  /\ rows_orthonormal (adjoint (mixing_matrix q))
  /\ mass_differences q 0%nat 0%nat = 0
  /\ mass_differences q 1%nat 0%nat = - mass_differences q 0%nat 1%nat
  /\ mass_differences q 2%nat 0%nat = - mass_differences q 0%nat 2%nat.
Proof.
  intros q.
  assert (HUeq : forall i j,
            mixing_matrix q i j
            = mixing_matrix (propagator.setMNSMatrix theta12 theta13 theta23 dCP p) i j).
  { intros i j. unfold mixing_matrix, q. apply setNeutrinoMasses_U. }
  destruct (setNeutrinoMasses_DM dm12sq dm23sq
              (propagator.setMNSMatrix theta12 theta13 theta23 dCP p))
    as (H00 & _ & _ & H01 & H10 & H02 & H20 & _).
  fold q in H00, H01, H10, H02, H20. cbv zeta in H01, H10, H02, H20.
  split; [|split; [|split; [|split]]].
  - apply (rows_orthonormal_ext _ _ HUeq). apply setMNSMatrix_rows_orthonormal.
  - apply (rows_orthonormal_ext _
             (adjoint (mixing_matrix
                         (propagator.setMNSMatrix theta12 theta13 theta23 dCP p)))).
    + intros i j. unfold adjoint. rewrite HUeq. reflexivity.
    + apply setMNSMatrix_columns_orthonormal.
  - exact H00.
  - unfold mass_differences. rewrite H10, H01. reflexivity.
  - unfold mass_differences. rewrite H20, H02. reflexivity.
Qed.

(** One layer is unitary.  For the mixing matrix of [setMNSMatrix] and the
    mass differences of [setNeutrinoMasses], at every energy, density,
    length and neutrino type at which no divisor of [get_product] is zero
    (the three matter masses are pairwise distinct), the amplitude of
    [get_transition_matrix] has orthonormal rows and orthonormal columns:
    in particular the three probabilities of each flavour add up to
    exactly 1. *)
Theorem get_transition_matrix_unitary (K : Constants)
  (theta12 theta13 theta23 dCP dm12sq dm23sq : R) (p : propagator.Propagator)
  (type0 nutype : NeutrinoType) (g0 : physics.Globals) (Enu rho Len : R)
  (p0 : nat -> nat -> nat -> ComplexNumber) :
  let q := propagator.setNeutrinoMasses dm12sq dm23sq
             (propagator.setMNSMatrix theta12 theta13 theta23 dCP p) in
  let g := globals_of q type0 g0 in
  let A := physics.get_transition_matrix K g nutype Enu rho Len 0 p0 in
  (forall k, (k < 3)%nat -> divisors K g Enu rho nutype k <> 0) ->
  rows_orthonormal A
  /\ rows_orthonormal (adjoint A)
  /\ (forall n, (n < 3)%nat ->
        (re (A n 0%nat) * re (A n 0%nat) + im (A n 0%nat) * im (A n 0%nat))
        + (re (A n 1%nat) * re (A n 1%nat) + im (A n 1%nat) * im (A n 1%nat))
        + (re (A n 2%nat) * re (A n 2%nat) + im (A n 2%nat) * im (A n 2%nat)) = 1).
Proof.
  intros q g A Hd.
  destruct (configured_propagator theta12 theta13 theta23 dCP dm12sq dm23sq p)
    as (HU & HUc & D00 & D10 & D20).
  fold q in HU, HUc, D00, D10, D20.
  assert (HA : rows_orthonormal A).
  { exact (layer_amplitude_rows_orthonormal K (mixing_matrix q) (mass_differences q)
             type0 nutype g0 Enu rho Len p0 HU HUc D00 D10 D20 Hd). }
  split; [exact HA|]. split.
  - exact (layer_amplitude_columns_orthonormal K (mixing_matrix q) (mass_differences q)
             type0 nutype g0 Enu rho Len p0 HU HUc D00 D10 D20 Hd).
  - intros n Hn. destruct (HA n n Hn Hn) as [H _]. rewrite Nat.eqb_refl in H. exact H.
Qed.

(** Unitarity at vacuum masses 0, 1 and 2 over one kilometre: the
    probabilities of the first flavour add up to 1. *)
Lemma get_transition_matrix_unitary_witness :
  let A := physics.get_transition_matrix sample.constants
             (globals_of sample.equidistant Neutrino sample.globals) Neutrino 1 0 1 0
             sample.product0 in
  (re (A 0%nat 0%nat) * re (A 0%nat 0%nat) + im (A 0%nat 0%nat) * im (A 0%nat 0%nat))
  + (re (A 0%nat 1%nat) * re (A 0%nat 1%nat) + im (A 0%nat 1%nat) * im (A 0%nat 1%nat))
  + (re (A 0%nat 2%nat) * re (A 0%nat 2%nat) + im (A 0%nat 2%nat) * im (A 0%nat 2%nat)) = 1.
Proof.
  refine (proj2 (proj2 (get_transition_matrix_unitary sample.constants 0 0 0 0 1 1
                          sample.storage Neutrino Neutrino sample.globals 1 0 1
                          sample.product0 _))
            0%nat _).
  - intros k _. exact (equidistant_divisors_nonzero k).
  - lia.
Defined.








